(** * Portfolio API: authentication core

    A shallow embedding of the login state machine of the NestJS
    backend: [AuthService] (auth.service.ts), [OtpService]
    (otp.service.ts), [TwoFactorService] (two-factor.service.ts),
    [AccountLockoutService] (account-lockout.service.ts) and the secret
    codec (utils/crypto.util.ts).

    Stateful code is written in explicit state-passing style over a
    [World] record holding the relational tables, the Redis cache, the
    mail outbox and the clock.  A thrown exception is a [Throw] result;
    the world reached at the point of the throw is kept, since none of
    the services runs inside a database transaction. *)

From Stdlib Require Import ZArith NArith String Ascii List Bool Lia.
From Stdlib.Strings Require Import Byte.
From stdpp Require Import base gmap strings list.

Open Scope string_scope.
Open Scope Z_scope.

(** ** JavaScript values used by the services *)

(** A JavaScript number as the counters use it: an integer or NaN. *)
Inductive jsnum : Type :=
  | NaN
  | Num (z : Z).

(** Exceptions the services throw (NestJS HTTP exceptions, plain
    [Error]s, errors raised by node:crypto and by the Prisma client). *)
Inductive Exn : Type :=
  | UnauthorizedException (message : string)
  | BadRequestException (message : string)
  | ConflictException (message : string)
  | Error (message : string)
  | CryptoError
  | PrismaNotFound.

Inductive result (A : Type) : Type :=
  | Ok (a : A)
  | Throw (e : Exn).
Arguments Ok {A} a.
Arguments Throw {A} e.

(** [if (x)] on an object or null/undefined. *)
Definition present {A : Type} (o : option A) : bool :=
  match o with
  | Some _ => true
  | None => false
  end.

(** [if (s)] on a string or null: null and the empty string are falsy. *)
Definition truthy (v : option string) : bool :=
  match v with
  | Some s => negb (String.eqb s "")
  | None => false
  end.

Definition is_digit (c : ascii) : bool :=
  let n := N_of_ascii c in (48 <=? n)%N && (n <=? 57)%N.

Definition digit_val (c : ascii) : Z := Z.of_N (N_of_ascii c) - 48.

Definition is_space (c : ascii) : bool :=
  let n := N_of_ascii c in (n =? 32)%N || ((9 <=? n)%N && (n <=? 13)%N).

(** The value of the longest prefix of decimal digits, with the number of
    digits read. *)
Fixpoint read_digits (acc : Z) (seen : bool) (s : string) : Z * bool :=
  match s with
  | String c rest =>
      if is_digit c then read_digits (10 * acc + digit_val c) true rest
      else (acc, seen)
  | EmptyString => (acc, seen)
  end.

Fixpoint skip_spaces (s : string) : string :=
  match s with
  | String c rest => if is_space c then skip_spaces rest else s
  | EmptyString => s
  end.

(** [parseInt(s)] on decimal input: leading white space, an optional
    sign, then the longest run of digits; NaN when no digit is read. *)
Definition parseInt (s : string) : jsnum :=
  match skip_spaces s with
  | String "-" rest =>
      match read_digits 0 false rest with
      | (v, true) => Num (- v)
      | (_, false) => NaN
      end
  | String "+" rest =>
      match read_digits 0 false rest with
      | (v, true) => Num v
      | (_, false) => NaN
      end
  | t =>
      match read_digits 0 false t with
      | (v, true) => Num v
      | (_, false) => NaN
      end
  end.

Definition digit_char (d : Z) : ascii := ascii_of_N (Z.to_N (48 + d)).

(** Decimal digits of a non-negative integer, most significant first. *)
Fixpoint digits_of (fuel : nat) (n : Z) : list Z :=
  match fuel with
  | O => [n mod 10]
  | S f => if n <? 10 then [n] else digits_of f (n / 10) ++ [n mod 10]
  end.

Definition string_of_digits (ds : list Z) : string :=
  fold_right (fun d s => String (digit_char d) s) EmptyString ds.

Definition nat_toString (n : Z) : string :=
  string_of_digits (digits_of (Z.to_nat (Z.log2 n)) n).

(** [n.toString()] *)
Definition toString (n : jsnum) : string :=
  match n with
  | NaN => "NaN"
  | Num z => if z <? 0 then String "-" (nat_toString (- z)) else nat_toString z
  end.

Definition js_succ (n : jsnum) : jsnum :=
  match n with
  | NaN => NaN
  | Num z => Num (z + 1)
  end.

(** [a >= b]; any comparison with NaN is false. *)
Definition js_ge (a : jsnum) (b : Z) : bool :=
  match a with
  | NaN => false
  | Num z => b <=? z
  end.

(** [s.length]: the number of UTF-16 code units of the JavaScript string
    whose UTF-8 octets are [s]: one for every octet that starts a
    character, and one more for a character of four octets, which
    JavaScript holds as a surrogate pair. *)
Fixpoint js_length (s : string) : nat :=
  match s with
  | EmptyString => O
  | String c rest =>
      let n := N_of_ascii c in
      ((if (n <? 128)%N || (192 <=? n)%N then 1 else 0)
       + (if (240 <=? n)%N then 1 else 0) + js_length rest)%nat
  end.

(** ** utils/crypto.util.ts *)

Definition Buffer : Type := list byte.

Definition hex_digit (n : N) : ascii :=
  if (n <? 10)%N then ascii_of_N (48 + n) else ascii_of_N (87 + n).

Definition hex_val (c : ascii) : option N :=
  let n := N_of_ascii c in
  if (48 <=? n)%N && (n <=? 57)%N then Some (n - 48)%N
  else if (97 <=? n)%N && (n <=? 102)%N then Some (n - 87)%N
  else if (65 <=? n)%N && (n <=? 70)%N then Some (n - 55)%N
  else None.

(** [buf.toString('hex')]: two lower-case digits per byte. *)
Fixpoint to_hex (b : Buffer) : string :=
  match b with
  | [] => EmptyString
  | x :: rest =>
      let n := Byte.to_N x in
      String (hex_digit (n / 16)) (String (hex_digit (n mod 16)) (to_hex rest))
  end.

Definition byte_of_nibbles (h l : N) : byte :=
  match Byte.of_N (16 * h + l) with
  | Some b => b
  | None => x00
  end.

(** [Buffer.from(s, 'hex')]: decoding stops at the first pair that is not
    two hexadecimal digits; a trailing single digit is dropped. *)
Fixpoint from_hex (s : string) : Buffer :=
  match s with
  | String a (String b rest) =>
      match hex_val a, hex_val b with
      | Some h, Some l => byte_of_nibbles h l :: from_hex rest
      | _, _ => []
      end
  | _ => []
  end.

(** [s.split(sep)] for a one-character separator. *)
Fixpoint split (sep : ascii) (s : string) : list string :=
  match s with
  | EmptyString => [EmptyString]
  | String c rest =>
      if Ascii.eqb c sep then EmptyString :: split sep rest
      else
        match split sep rest with
        | f :: fs => String c f :: fs
        | [] => [String c EmptyString]
        end
  end.

(** The octets of a text ('utf8' encoding): a [string] of this file is the
    sequence of UTF-8 octets of the JavaScript string it stands for. *)
Definition utf8_encode (s : string) : Buffer :=
  map byte_of_ascii (list_ascii_of_string s).

Definition utf8_decode (b : Buffer) : string :=
  string_of_list_ascii (map ascii_of_byte b).

(** node:crypto's AES-256-GCM, the primitive the codec is built on.
    [gcm_seal key iv plaintext] is [createCipheriv] followed by
    [update], [final] and [getAuthTag]; it has no result when
    [createCipheriv] throws.  [gcm_open key iv tag ciphertext] is
    [createDecipheriv], [setAuthTag], [update] and [final]; it has no
    result when any of them throws, in particular when the tag does not
    verify. *)
Class AesGcm : Type := {
  gcm_seal : Buffer -> Buffer -> Buffer -> option (Buffer * Buffer);
  gcm_open : Buffer -> Buffer -> Buffer -> Buffer -> option Buffer
}.

Definition AUTH_TAG_LENGTH : nat := 16.

Section Codec.
Context `{Gcm : AesGcm}.

(** [encrypt(text, encryptionKey)]; [iv] is the result of
    [randomBytes(IV_LENGTH)]. *)
Definition encrypt (iv : Buffer) (text encryptionKey : string) : result string :=
  let key := from_hex encryptionKey in
  match gcm_seal key iv (utf8_encode text) with
  | None => Throw CryptoError
  | Some (ciphertext, authTag) =>
      let encrypted := to_hex ciphertext in
      Ok (to_hex iv ++ ":" ++ to_hex authTag ++ ":" ++ encrypted)
  end.

(** [decrypt(encryptedText, encryptionKey)].  [decipher.update(encrypted,
    'hex', 'utf8')] throws (ERR_INVALID_ARG_VALUE) on a text with an odd
    number of characters and decodes any other text as [Buffer.from]
    does; that error is raised by node:crypto like those of
    [createDecipheriv], [setAuthTag] and [final], and it is thrown
    whenever the third field is of odd length, whichever of them
    throws first. *)
Definition decrypt (encryptedText encryptionKey : string) : result string :=
  let key := from_hex encryptionKey in
  let parts := split ":" encryptedText in
  let ivHex := nth_error parts 0 in
  let authTagHex := nth_error parts 1 in
  let encrypted := nth_error parts 2 in
  if negb (truthy ivHex) || negb (truthy authTagHex) || negb (truthy encrypted)
  then Throw (Error "Invalid encrypted text format")
  else
    let iv := from_hex (default "" ivHex) in
    let authTag := from_hex (default "" authTagHex) in
    if Nat.odd (js_length (default "" encrypted)) then Throw CryptoError
    else
      match gcm_open key iv authTag (from_hex (default "" encrypted)) with
      | Some decrypted => Ok (utf8_decode decrypted)
      | None => Throw CryptoError
      end.
End Codec.

(** ** Data model (the Prisma models the services read and write) *)

Inductive UserRole : Type := OWNER | ADMIN | USER.

Inductive TwoFactorType : Type := TOTP | EMAIL.

Definition TwoFactorType_eqb (a b : TwoFactorType) : bool :=
  match a, b with
  | TOTP, TOTP | EMAIL, EMAIL => true
  | _, _ => false
  end.

Record User : Type := {
  user_id : string;
  user_email : string;
  user_username : string;
  user_name : string;
  user_role : UserRole
}.

Record Account : Type := {
  account_id : string;
  account_userId : string;
  passwordHash : string;
  lastLoginAt : option Z
}.

(** [recoveryCodes] is a nullable JSON column: [None] stands for null or
    any value that is not an array. *)
Record TwoFactorAuth : Type := {
  tfa_userId : string;
  tfa_type : TwoFactorType;
  tfa_secret : string;
  tfa_enabled : bool;
  recoveryCodes : option (list string)
}.

Record Session : Type := {
  session_id : nat;
  session_userId : string;
  session_token : string;
  session_expiresAt : Z
}.

Record EmailOTP : Type := {
  otp_id : nat;
  otp_userId : string;
  otpHash : string;
  otp_attempts : Z;
  otp_expiresAt : Z;
  otp_createdAt : Z
}.

Record LoginAttempt : Type := {
  la_identifier : string;
  la_ipAddress : option string;
  la_success : bool
}.

Record AuditLog : Type := {
  al_userId : string;
  al_action : string;
  al_method : option string;
  al_success : bool;
  al_ipAddress : option string
}.

Record Mail : Type := {
  mail_to : string;
  mail_subject : string;
  mail_template : string;
  mail_context : list (string * string)
}.

(** The state the services act on.  Times are milliseconds since the
    epoch ([Date.now()]); one service call runs at one reading of the
    clock, and [advance] moves it between calls.  A Redis entry carries
    the instant it expires at.  [nextId] is the source of fresh primary
    keys.  Mail that is sent is appended to [outbox]; a failing SMTP
    server is not part of the model. *)
Record World : Type := {
  users : list User;
  accounts : list Account;
  twoFactorAuths : list TwoFactorAuth;
  sessions : list Session;
  emailOTPs : list EmailOTP;
  loginAttempts : list LoginAttempt;
  auditLogs : list AuditLog;
  redis : gmap string (string * Z);
  outbox : list Mail;
  nextId : nat;
  clock : Z
}.

Definition set_users (v : list User) (w : World) : World :=
  {| users := v; accounts := accounts w; twoFactorAuths := twoFactorAuths w;
     sessions := sessions w; emailOTPs := emailOTPs w;
     loginAttempts := loginAttempts w; auditLogs := auditLogs w;
     redis := redis w; outbox := outbox w; nextId := nextId w; clock := clock w |}.

Definition set_accounts (v : list Account) (w : World) : World :=
  {| users := users w; accounts := v; twoFactorAuths := twoFactorAuths w;
     sessions := sessions w; emailOTPs := emailOTPs w;
     loginAttempts := loginAttempts w; auditLogs := auditLogs w;
     redis := redis w; outbox := outbox w; nextId := nextId w; clock := clock w |}.

Definition set_twoFactorAuths (v : list TwoFactorAuth) (w : World) : World :=
  {| users := users w; accounts := accounts w; twoFactorAuths := v;
     sessions := sessions w; emailOTPs := emailOTPs w;
     loginAttempts := loginAttempts w; auditLogs := auditLogs w;
     redis := redis w; outbox := outbox w; nextId := nextId w; clock := clock w |}.

Definition set_sessions (v : list Session) (w : World) : World :=
  {| users := users w; accounts := accounts w; twoFactorAuths := twoFactorAuths w;
     sessions := v; emailOTPs := emailOTPs w;
     loginAttempts := loginAttempts w; auditLogs := auditLogs w;
     redis := redis w; outbox := outbox w; nextId := nextId w; clock := clock w |}.

Definition set_emailOTPs (v : list EmailOTP) (w : World) : World :=
  {| users := users w; accounts := accounts w; twoFactorAuths := twoFactorAuths w;
     sessions := sessions w; emailOTPs := v;
     loginAttempts := loginAttempts w; auditLogs := auditLogs w;
     redis := redis w; outbox := outbox w; nextId := nextId w; clock := clock w |}.

Definition set_loginAttempts (v : list LoginAttempt) (w : World) : World :=
  {| users := users w; accounts := accounts w; twoFactorAuths := twoFactorAuths w;
     sessions := sessions w; emailOTPs := emailOTPs w;
     loginAttempts := v; auditLogs := auditLogs w;
     redis := redis w; outbox := outbox w; nextId := nextId w; clock := clock w |}.

Definition set_auditLogs (v : list AuditLog) (w : World) : World :=
  {| users := users w; accounts := accounts w; twoFactorAuths := twoFactorAuths w;
     sessions := sessions w; emailOTPs := emailOTPs w;
     loginAttempts := loginAttempts w; auditLogs := v;
     redis := redis w; outbox := outbox w; nextId := nextId w; clock := clock w |}.

Definition set_redis (v : gmap string (string * Z)) (w : World) : World :=
  {| users := users w; accounts := accounts w; twoFactorAuths := twoFactorAuths w;
     sessions := sessions w; emailOTPs := emailOTPs w;
     loginAttempts := loginAttempts w; auditLogs := auditLogs w;
     redis := v; outbox := outbox w; nextId := nextId w; clock := clock w |}.

Definition set_outbox (v : list Mail) (w : World) : World :=
  {| users := users w; accounts := accounts w; twoFactorAuths := twoFactorAuths w;
     sessions := sessions w; emailOTPs := emailOTPs w;
     loginAttempts := loginAttempts w; auditLogs := auditLogs w;
     redis := redis w; outbox := v; nextId := nextId w; clock := clock w |}.

Definition set_nextId (v : nat) (w : World) : World :=
  {| users := users w; accounts := accounts w; twoFactorAuths := twoFactorAuths w;
     sessions := sessions w; emailOTPs := emailOTPs w;
     loginAttempts := loginAttempts w; auditLogs := auditLogs w;
     redis := redis w; outbox := outbox w; nextId := v; clock := clock w |}.

(** Time passing between two requests. *)
Definition advance (ms : Z) (w : World) : World :=
  {| users := users w; accounts := accounts w; twoFactorAuths := twoFactorAuths w;
     sessions := sessions w; emailOTPs := emailOTPs w;
     loginAttempts := loginAttempts w; auditLogs := auditLogs w;
     redis := redis w; outbox := outbox w; nextId := nextId w; clock := clock w + ms |}.

(** The primary key of [Session]: every row's id was issued before
    [nextId]. *)
Definition sessionIdsFresh (w : World) : Prop :=
  forall s, In s (sessions w) -> (session_id s < nextId w)%nat.

(** The configuration object of config/configuration.ts, the fields the
    services read. *)
Record Config : Type := {
  jwt_secret : string;
  jwt_refreshSecret : string;
  jwt_expiresIn : string;
  jwt_refreshExpiresIn : string;
  twoFactor_encryptionKey : string;
  twoFactor_otpExpiryMinutes : Z;
  twoFactor_maxOTPAttempts : Z;
  twoFactor_maxResendAttempts : Z;
  twoFactor_lockoutMinutes : Z;
  lockout_maxAttempts : Z;
  lockout_lockoutMinutes : Z
}.

(** ** RedisService *)

(** Modelled from the spec: redis.service.ts is not among the sources;
    the spec's Counter Cache Adapter is [get(key) -> string|absent],
    [set(key, value, ttlSeconds)], [del(key)] and
    [ttl(key) -> secondsRemaining].  An entry past its expiry is absent;
    [ttl] of an absent key is -2, as Redis answers. *)
Definition redis_get (key : string) (w : World) : option string :=
  match redis w !! key with
  | Some (v, expiry) => if clock w <? expiry then Some v else None
  | None => None
  end.

Definition redis_set (key value : string) (ttlSeconds : Z) (w : World) : World :=
  set_redis (<[key := (value, clock w + ttlSeconds * 1000)]> (redis w)) w.

Definition redis_del (key : string) (w : World) : World :=
  set_redis (delete key (redis w)) w.

Definition redis_ttl (key : string) (w : World) : Z :=
  match redis w !! key with
  | Some (_, expiry) => if clock w <? expiry then (expiry - clock w) / 1000 else -2
  | None => -2
  end.

(** ** Libraries the services call *)

Record JwtPayload : Type := {
  sub : string;
  jp_email : string;
  jp_username : string;
  jp_role : UserRole
}.

(** argon2, @nestjs/jwt, speakeasy and node:crypto.  [argon2_hash plain
    salt] is [argon2.hash(plain)] with the salt it drew;
    [argon2_verify hash plain] is [argon2.verify(hash, plain)];
    [jwt_sign payload secret expiresIn now] is [signAsync];
    [jwt_verify token secret now] is [verify], without result when it
    throws; [totp_verify secret token now] is
    [speakeasy.totp.verify] with base32 encoding and window 2. *)
Class Externals : Type := {
  argon2_hash : string -> string -> string;
  argon2_verify : string -> string -> bool;
  jwt_sign : JwtPayload -> string -> string -> Z -> string;
  jwt_verify : string -> string -> Z -> option JwtPayload;
  totp_verify : string -> string -> Z -> bool;
  ext_gcm :: AesGcm
}.

(** What one request draws from the random source: the raw value behind
    [randomInt], the salt of [argon2.hash], and the identifiers Prisma
    generates for a new user and its account. *)
Record Entropy : Type := {
  rand_raw : Z;
  rand_salt : string;
  rand_userId : string;
  rand_accountId : string
}.

(** [crypto.randomInt(min, max)]: an integer n with min <= n < max, the
    upper bound excluded (node:crypto); [raw] is the value drawn. *)
Definition randomInt (min max raw : Z) : Z := min + raw mod (max - min).

Section Services.
Context `{Ext : Externals}.
Variable cfg : Config.

(** ** OtpService (otp.service.ts) *)

(** [generateOTP()]: [randomInt(100000, 999999).toString()] *)
Definition generateOTP (raw : Z) : string :=
  toString (Num (randomInt 100000 999999 raw)).

(** [sendOTPEmail(email, otp, expiryMinutes)] *)
Definition sendOTPEmail (email otp : string) (expiryMinutes : Z) (w : World) : World :=
  set_outbox (outbox w ++
    [{| mail_to := email; mail_subject := "Your Verification Code";
        mail_template := "otp-code";
        mail_context := [("otp", otp); ("expiryMinutes", toString (Num expiryMinutes))] |}]) w.

(** [generateAndSendOTP(userId, userEmail)] *)
Definition generateAndSendOTP (rnd : Entropy) (userId userEmail : string) (w : World)
  : World * result unit :=
  let resendKey := "otp:resend:" ++ userId in
  let resendCount := redis_get resendKey w in
  let maxResends := twoFactor_maxResendAttempts cfg in
  if truthy resendCount && js_ge (parseInt (default "" resendCount)) maxResends then
    (w, Throw (BadRequestException "Too many OTP requests. Please try again later."))
  else
    let otp := generateOTP (rand_raw rnd) in
    let otpHash := argon2_hash otp (rand_salt rnd) in
    let expiryMinutes := twoFactor_otpExpiryMinutes cfg in
    let expiresAt := clock w + expiryMinutes * 60 * 1000 in
    let w1 := set_emailOTPs
                (List.filter (fun r => negb (String.eqb (otp_userId r) userId)) (emailOTPs w)) w in
    let w2 := set_nextId (S (nextId w1))
                (set_emailOTPs (emailOTPs w1 ++
                   [{| otp_id := nextId w1; otp_userId := userId; otpHash := otpHash;
                       otp_attempts := 0; otp_expiresAt := expiresAt;
                       otp_createdAt := clock w1 |}]) w1) in
    let w3 := sendOTPEmail userEmail otp expiryMinutes w2 in
    let lockoutMinutes := twoFactor_lockoutMinutes cfg in
    let currentCount := if truthy resendCount then parseInt (default "" resendCount) else Num 0 in
    (redis_set resendKey (toString (js_succ currentCount)) (lockoutMinutes * 60) w3, Ok tt).

Definition newer (a b : EmailOTP) : EmailOTP :=
  if otp_createdAt a <? otp_createdAt b then b else a.

(** [findFirst({ where: { userId, expiresAt: { gt: new Date() } },
    orderBy: { createdAt: 'desc' } })] *)
Definition findLiveOTP (userId : string) (w : World) : option EmailOTP :=
  match List.filter (fun r => String.eqb (otp_userId r) userId && (clock w <? otp_expiresAt r))
          (emailOTPs w) with
  | [] => None
  | r :: rest => Some (fold_left newer rest r)
  end.

Definition with_attempts (n : Z) (r : EmailOTP) : EmailOTP :=
  {| otp_id := otp_id r; otp_userId := otp_userId r; otpHash := otpHash r;
     otp_attempts := n; otp_expiresAt := otp_expiresAt r; otp_createdAt := otp_createdAt r |}.

(** [verifyOTP(userId, otp)] *)
Definition verifyOTP (userId otp : string) (w : World) : World * result bool :=
  let attemptKey := "otp:attempts:" ++ userId in
  let attempts := redis_get attemptKey w in
  let maxAttempts := twoFactor_maxOTPAttempts cfg in
  if truthy attempts && js_ge (parseInt (default "" attempts)) maxAttempts then
    (w, Throw (UnauthorizedException
                 "Too many verification attempts. Please request a new OTP."))
  else
    match findLiveOTP userId w with
    | None => (w, Throw (BadRequestException "OTP expired or not found"))
    | Some otpRecord =>
        let w1 := set_emailOTPs
                    (map (fun r => if Nat.eqb (otp_id r) (otp_id otpRecord)
                                   then with_attempts (otp_attempts otpRecord + 1) r else r)
                         (emailOTPs w)) w in
        let isValid := argon2_verify (otpHash otpRecord) otp in
        if negb isValid then
          let lockoutMinutes := twoFactor_lockoutMinutes cfg in
          let currentAttempts := if truthy attempts then parseInt (default "" attempts) else Num 0 in
          (redis_set attemptKey (toString (js_succ currentAttempts)) (lockoutMinutes * 60) w1,
           Throw (UnauthorizedException "Invalid OTP"))
        else
          let w2 := set_emailOTPs
                      (List.filter (fun r => negb (Nat.eqb (otp_id r) (otp_id otpRecord)))
                         (emailOTPs w1)) w1 in
          let w3 := redis_del attemptKey w2 in
          let w4 := redis_del ("otp:resend:" ++ userId) w3 in
          (w4, Ok true)
    end.

(** ** TwoFactorService (two-factor.service.ts) *)

(** [findUnique({ where: { userId_type: { userId, type } } })] *)
Definition findTwoFactorAuth (userId : string) (ty : TwoFactorType) (w : World)
  : option TwoFactorAuth :=
  List.find (fun a => String.eqb (tfa_userId a) userId && TwoFactorType_eqb (tfa_type a) ty)
    (twoFactorAuths w).

(** [verifyTOTP(userId, token)] *)
Definition verifyTOTP (userId token : string) (w : World) : result bool :=
  match findTwoFactorAuth userId TOTP w with
  | None => Ok false
  | Some totpAuth =>
      if negb (tfa_enabled totpAuth) then Ok false
      else
        match decrypt (tfa_secret totpAuth) (twoFactor_encryptionKey cfg) with
        | Throw e => Throw e
        | Ok secret => Ok (totp_verify secret token (clock w))
        end
  end.

Definition with_recoveryCodes (codes : list string) (a : TwoFactorAuth) : TwoFactorAuth :=
  {| tfa_userId := tfa_userId a; tfa_type := tfa_type a; tfa_secret := tfa_secret a;
     tfa_enabled := tfa_enabled a; recoveryCodes := Some codes |}.

(** [verifyRecoveryCode(userId, code)] *)
Definition verifyRecoveryCode (userId code : string) (w : World) : World * bool :=
  match findTwoFactorAuth userId TOTP w with
  | None => (w, false)
  | Some totpAuth =>
      if negb (tfa_enabled totpAuth) then (w, false)
      else
        match recoveryCodes totpAuth with
        | None => (w, false)
        | Some codes =>
            match List.find (fun hashedCode => argon2_verify hashedCode code) codes with
            | Some hashedCode =>
                let updatedCodes :=
                  List.filter (fun c => negb (String.eqb c hashedCode)) codes in
                (set_twoFactorAuths
                   (map (fun a => if String.eqb (tfa_userId a) userId
                                     && TwoFactorType_eqb (tfa_type a) TOTP
                                  then with_recoveryCodes updatedCodes a else a)
                      (twoFactorAuths w)) w, true)
            | None => (w, false)
            end
        end
  end.

(** ** AccountLockoutService (account-lockout.service.ts) *)

(** [Math.ceil(ttl / 60)] *)
Definition ceil_div60 (ttl : Z) : Z := - ((- ttl) / 60).

(** [lockAccount(identifier, durationMinutes, userEmail, userName)].  The
    [unlockTime] of the mail is [toLocaleString()] of the instant the lock
    ends; it is kept here as that instant's milliseconds. *)
Definition lockAccount (identifier : string) (durationMinutes : Z)
    (userEmail userName : option string) (w : World) : World :=
  let lockKey := "lockout:locked:" ++ identifier in
  let w1 := redis_set lockKey "locked" (durationMinutes * 60) w in
  if truthy userEmail && truthy userName then
    set_outbox (outbox w1 ++
      [{| mail_to := default "" userEmail; mail_subject := "Account Temporarily Locked";
          mail_template := "account-locked";
          mail_context :=
            [("name", default "" userName);
             ("lockoutMinutes", toString (Num durationMinutes));
             ("unlockTime", toString (Num (clock w1 + durationMinutes * 60 * 1000)))] |}]) w1
  else w1.

(** [recordFailedAttempt(identifier, ipAddress)] *)
Definition recordFailedAttempt (identifier : string) (ipAddress : option string) (w : World)
  : World :=
  let maxAttempts := lockout_maxAttempts cfg in
  let lockoutMinutes := lockout_lockoutMinutes cfg in
  let identifierKey := "lockout:user:" ++ identifier in
  let attempts := redis_get identifierKey w in
  let newAttempts := if truthy attempts then js_succ (parseInt (default "" attempts)) else Num 1 in
  let w1 := redis_set identifierKey (toString newAttempts) (lockoutMinutes * 60) w in
  let w2 :=
    if truthy ipAddress then
      let ipKey := "lockout:ip:" ++ default "" ipAddress in
      let ipAttempts := redis_get ipKey w1 in
      let newIpAttempts :=
        if truthy ipAttempts then js_succ (parseInt (default "" ipAttempts)) else Num 1 in
      redis_set ipKey (toString newIpAttempts) (lockoutMinutes * 60) w1
    else w1 in
  if js_ge newAttempts maxAttempts then lockAccount identifier lockoutMinutes None None w2
  else w2.

(** [checkLockout(identifier)] *)
Definition checkLockout (identifier : string) (w : World) : result unit :=
  let lockKey := "lockout:locked:" ++ identifier in
  if truthy (redis_get lockKey w) then
    let minutesLeft := ceil_div60 (redis_ttl lockKey w) in
    Throw (Error ("Account is temporarily locked. Try again in "
                    ++ toString (Num minutesLeft) ++ " minutes."))
  else Ok tt.

(** [resetAttempts(identifier, ipAddress)] *)
Definition resetAttempts (identifier : string) (ipAddress : option string) (w : World) : World :=
  let w1 := redis_del ("lockout:user:" ++ identifier) w in
  if truthy ipAddress then redis_del ("lockout:ip:" ++ default "" ipAddress) w1 else w1.

(** [unlockAccount(identifier)] *)
Definition unlockAccount (identifier : string) (w : World) : World :=
  redis_del ("lockout:user:" ++ identifier) (redis_del ("lockout:locked:" ++ identifier) w).

(** ** AuditLogService (audit-log.service.ts) *)

(** [log({ userId, action, method, success, ipAddress })] *)
Definition auditLog (userId action : string) (method : option string) (success : bool)
    (ipAddress : option string) (w : World) : World :=
  set_auditLogs (auditLogs w ++
    [{| al_userId := userId; al_action := action; al_method := method;
        al_success := success; al_ipAddress := ipAddress |}]) w.

(** ** AuthService (auth.service.ts) *)

Record Tokens : Type := {
  accessToken : string;
  refreshToken : string
}.

Record LoginDto : Type := {
  identifier : string;
  password : string;
  twoFactorToken : option string
}.

Record RegisterDto : Type := {
  reg_name : string;
  reg_username : string;
  reg_email : string;
  reg_password : string
}.

(** What [login] resolves to: the user with the token pair, or the
    challenge object [{ requires2FA: true, method }]. *)
Inductive LoginResult : Type :=
  | LoggedIn (user : User) (tokens : Tokens)
  | Requires2FA (method : string).

(** [generateTokens(user)] *)
Definition generateTokens (user : User) (w : World) : Tokens :=
  let payload := {| sub := user_id user; jp_email := user_email user;
                    jp_username := user_username user; jp_role := user_role user |} in
  {| accessToken := jwt_sign payload (jwt_secret cfg) (jwt_expiresIn cfg) (clock w);
     refreshToken :=
       jwt_sign payload (jwt_refreshSecret cfg) (jwt_refreshExpiresIn cfg) (clock w) |}.

Definition SEVEN_DAYS_MS : Z := 7 * 24 * 60 * 60 * 1000.

(** [createSession(userId, refreshToken)].  [expiresAt.setDate(
    expiresAt.getDate() + 7)] moves the date seven calendar days ahead,
    which is [SEVEN_DAYS_MS] later when the zone's offset does not change
    in between (a server running in UTC). *)
Definition createSession (userId refreshToken : string) (w : World) : World :=
  let expiresIn := jwt_refreshExpiresIn cfg in
  let expiresAt := clock w + SEVEN_DAYS_MS in
  set_nextId (S (nextId w))
    (set_sessions (sessions w ++
       [{| session_id := nextId w; session_userId := userId;
           session_token := refreshToken; session_expiresAt := expiresAt |}]) w).

(** [logLoginAttempt(identifier, ipAddress, success)] *)
Definition logLoginAttempt (identifier : string) (ipAddress : option string) (success : bool)
    (w : World) : World :=
  set_loginAttempts (loginAttempts w ++
    [{| la_identifier := identifier; la_ipAddress := ipAddress; la_success := success |}]) w.

(** [findUserByIdentifier(identifier)]: the [findFirst] with
    [OR: [{ email }, { username }]] that [login] starts with. *)
Definition findUserByIdentifier (identifier : string) (w : World) : option User :=
  List.find (fun u => String.eqb (user_email u) identifier
                      || String.eqb (user_username u) identifier) (users w).

(** The [account] relation loaded by [include: { account: true }]. *)
Definition findAccount (userId : string) (w : World) : option Account :=
  List.find (fun a => String.eqb (account_userId a) userId) (accounts w).

Definition with_lastLoginAt (t : Z) (a : Account) : Account :=
  {| account_id := account_id a; account_userId := account_userId a;
     passwordHash := passwordHash a; lastLoginAt := Some t |}.

Definition factorMethod (totpAuth : option TwoFactorAuth) : option string :=
  Some (if present totpAuth then "google" else "email").

(** [login], lines 145-198: the block guarded by
    [dto.twoFactorToken && has2FA]. *)
Definition verifySecondFactor (user : User) (totpAuth emailAuth : option TwoFactorAuth)
    (token : string) (ipAddress : option string) (w : World) : World * result unit :=
  let '(w1, verified) :=
    match totpAuth with
    | Some _ =>
        match verifyTOTP (user_id user) token w with
        | Throw e => (w, Throw e)
        | Ok true => (w, Ok true)
        | Ok false =>
            let '(w', v) := verifyRecoveryCode (user_id user) token w in
            if v then
              (auditLog (user_id user) "2fa_recovery_code_used" (Some "recovery") true
                 ipAddress w', Ok true)
            else (w', Ok false)
        end
    | None =>
        match emailAuth with
        | Some _ => verifyOTP (user_id user) token w
        | None => (w, Ok false)
        end
    end in
  match verified with
  | Throw e => (w1, Throw e)
  | Ok false =>
      (auditLog (user_id user) "2fa_verification_failed" (factorMethod totpAuth) false
         ipAddress w1,
       Throw (UnauthorizedException "Invalid two-factor code"))
  | Ok true =>
      (auditLog (user_id user) "2fa_verified" (factorMethod totpAuth) true ipAddress w1,
       Ok tt)
  end.

(** [login], lines 200-221: last-login update, the successful
    [LoginAttempt], the token pair and the session. *)
Definition completeLogin (user : User) (account : Account) (dto : LoginDto)
    (ipAddress : option string) (w : World) : World * result LoginResult :=
  let w1 := set_accounts
              (map (fun a => if String.eqb (account_id a) (account_id account)
                             then with_lastLoginAt (clock w) a else a) (accounts w)) w in
  let w2 := logLoginAttempt (identifier dto) ipAddress true w1 in
  let tokens := generateTokens user w2 in
  let w3 := createSession (user_id user) (refreshToken tokens) w2 in
  (w3, Ok (LoggedIn user tokens)).

(** [login(dto, ipAddress)] *)
Definition login (rnd : Entropy) (dto : LoginDto) (ipAddress : option string) (w : World)
  : World * result LoginResult :=
  let invalid := Throw (UnauthorizedException "Invalid credentials") in
  match findUserByIdentifier (identifier dto) w with
  | None => (logLoginAttempt (identifier dto) ipAddress false w, invalid)
  | Some user =>
      match findAccount (user_id user) w with
      | None => (logLoginAttempt (identifier dto) ipAddress false w, invalid)
      | Some account =>
          if negb (argon2_verify (passwordHash account) (password dto)) then
            (logLoginAttempt (identifier dto) ipAddress false w, invalid)
          else
            let auths := List.filter (fun a => String.eqb (tfa_userId a) (user_id user))
                           (twoFactorAuths w) in
            let totpAuth :=
              List.find (fun a => TwoFactorType_eqb (tfa_type a) TOTP && tfa_enabled a) auths in
            let emailAuth :=
              List.find (fun a => TwoFactorType_eqb (tfa_type a) EMAIL && tfa_enabled a) auths in
            let has2FA := present totpAuth || present emailAuth in
            if has2FA && negb (truthy (twoFactorToken dto)) then
              match emailAuth with
              | Some _ =>
                  match generateAndSendOTP rnd (user_id user) (user_email user) w with
                  | (w1, Throw e) => (w1, Throw e)
                  | (w1, Ok _) => (w1, Ok (Requires2FA "email"))
                  end
              | None => (w, Ok (Requires2FA "google"))
              end
            else
              let '(w1, checked) :=
                if truthy (twoFactorToken dto) && has2FA then
                  verifySecondFactor user totpAuth emailAuth (default "" (twoFactorToken dto))
                    ipAddress w
                else (w, Ok tt) in
              match checked with
              | Throw e => (w1, Throw e)
              | Ok _ => completeLogin user account dto ipAddress w1
              end
      end
  end.

(** The body of the [try] block of [refreshTokens]. *)
Definition refreshTokens_try (token : string) (w : World) : World * result Tokens :=
  match jwt_verify token (jwt_refreshSecret cfg) (clock w) with
  | None => (w, Throw (Error "jwt"))
  | Some payload =>
      match List.find (fun s => String.eqb (session_token s) token
                                && String.eqb (session_userId s) (sub payload)
                                && (clock w <? session_expiresAt s)) (sessions w) with
      | None => (w, Throw (UnauthorizedException "Invalid refresh token"))
      | Some session =>
          match List.find (fun u => String.eqb (user_id u) (sub payload)) (users w) with
          | None => (w, Throw (UnauthorizedException "User not found"))
          | Some user =>
              let tokens := generateTokens user w in
              let w1 := set_sessions
                          (List.filter
                             (fun s => negb (Nat.eqb (session_id s) (session_id session)))
                             (sessions w)) w in
              (createSession (user_id user) (refreshToken tokens) w1, Ok tokens)
          end
      end
  end.

(** [refreshTokens(refreshToken)]: whatever the [try] block throws is
    caught and replaced. *)
Definition refreshTokens (token : string) (w : World) : World * result Tokens :=
  match refreshTokens_try token w with
  | (w', Throw _) => (w', Throw (UnauthorizedException "Invalid refresh token"))
  | (w', Ok tokens) => (w', Ok tokens)
  end.

(** [register(dto)] *)
Definition register (rnd : Entropy) (dto : RegisterDto) (w : World)
  : World * result (User * Tokens) :=
  match List.find (fun u => String.eqb (user_email u) (reg_email dto)
                            || String.eqb (user_username u) (reg_username dto)) (users w) with
  | Some existingUser =>
      if String.eqb (user_email existingUser) (reg_email dto)
      then (w, Throw (ConflictException "Email already exists"))
      else (w, Throw (ConflictException "Username already exists"))
  | None =>
      let hash := argon2_hash (reg_password dto) (rand_salt rnd) in
      let user := {| user_id := rand_userId rnd; user_email := reg_email dto;
                     user_username := reg_username dto; user_name := reg_name dto;
                     user_role := USER |} in
      let account := {| account_id := rand_accountId rnd; account_userId := rand_userId rnd;
                        passwordHash := hash; lastLoginAt := None |} in
      let w1 := set_accounts (accounts w ++ [account]) (set_users (users w ++ [user]) w) in
      let tokens := generateTokens user w1 in
      (createSession (user_id user) (refreshToken tokens) w1, Ok (user, tokens))
  end.

End Services.

(** ** The remaining operations of the services *)

Definition upper_ascii (c : ascii) : ascii :=
  let n := N_of_ascii c in
  if (97 <=? n)%N && (n <=? 122)%N then ascii_of_N (n - 32) else c.

(** [s.toUpperCase()] on ASCII text. *)
Fixpoint toUpperCase (s : string) : string :=
  match s with
  | EmptyString => EmptyString
  | String c rest => String (upper_ascii c) (toUpperCase rest)
  end.

Definition is_upper_hex (c : ascii) : bool :=
  let n := N_of_ascii c in
  ((48 <=? n)%N && (n <=? 57)%N) || ((65 <=? n)%N && (n <=? 70)%N).

Fixpoint all_chars (p : ascii -> bool) (s : string) : bool :=
  match s with
  | EmptyString => true
  | String c rest => p c && all_chars p rest
  end.

(** [generateEncryptionKey()]; [bytes] is the result of
    [randomBytes(32)]. *)
Definition generateEncryptionKey (bytes : Buffer) : string := to_hex bytes.

Definition UserRole_eqb (a b : UserRole) : bool :=
  match a, b with
  | OWNER, OWNER | ADMIN, ADMIN | USER, USER => true
  | _, _ => false
  end.

(** [RolesGuard.canActivate] (guards/roles.guard.ts): [requiredRoles] is
    what the reflector finds for the handler, [user] the user of the
    request. *)
Definition canActivate (requiredRoles : option (list UserRole)) (user : option User) : bool :=
  match requiredRoles with
  | None => true
  | Some roles =>
      match user with
      | None => false
      | Some u =>
          if UserRole_eqb (user_role u) OWNER then true
          else existsb (UserRole_eqb (user_role u)) roles
      end
  end.

Definition with_secret_disabled (secret : string) (a : TwoFactorAuth) : TwoFactorAuth :=
  {| tfa_userId := tfa_userId a; tfa_type := tfa_type a; tfa_secret := secret;
     tfa_enabled := false; recoveryCodes := recoveryCodes a |}.

Definition with_enabled (b : bool) (a : TwoFactorAuth) : TwoFactorAuth :=
  {| tfa_userId := tfa_userId a; tfa_type := tfa_type a; tfa_secret := tfa_secret a;
     tfa_enabled := b; recoveryCodes := recoveryCodes a |}.

Definition with_enabled_codes (codes : list string) (a : TwoFactorAuth) : TwoFactorAuth :=
  {| tfa_userId := tfa_userId a; tfa_type := tfa_type a; tfa_secret := tfa_secret a;
     tfa_enabled := true; recoveryCodes := Some codes |}.

Definition isFactor (userId : string) (ty : TwoFactorType) (a : TwoFactorAuth) : bool :=
  String.eqb (tfa_userId a) userId && TwoFactorType_eqb (tfa_type a) ty.

(** [twoFactorAuth.upsert({ where: { userId_type }, create, update })] *)
Definition upsertTwoFactorAuth (userId : string) (ty : TwoFactorType)
    (create : TwoFactorAuth) (update : TwoFactorAuth -> TwoFactorAuth) (w : World) : World :=
  match findTwoFactorAuth userId ty w with
  | Some _ =>
      set_twoFactorAuths
        (map (fun a => if isFactor userId ty a then update a else a) (twoFactorAuths w)) w
  | None => set_twoFactorAuths (twoFactorAuths w ++ [create]) w
  end.

(** What [generateTOTPSecret] returns. *)
Record TotpSetup : Type := {
  setup_secret : string;
  setup_qrCode : string;
  setup_manualEntryKey : string
}.

(** What [get2FAStatus] returns. *)
Record TwoFactorStatus : Type := {
  status_totp_enabled : bool;
  status_email_enabled : bool
}.

(** What [getLockoutInfo] returns. *)
Record LockoutInfo : Type := {
  isLocked : bool;
  remainingMinutes : option Z;
  info_attempts : option jsnum
}.

(** [generateRecoveryCodes(count)]; [draw i] is the result of the i-th
    [randomBytes(4)]. *)
Definition generateRecoveryCodes (draw : nat -> Buffer) (count : nat) : list string :=
  map (fun i => toUpperCase (to_hex (draw i))) (seq 0 count).

Record Disable2FADto : Type := {
  disable_password : string;
  disable_method : TwoFactorType;
  disable_token : option string
}.

Section MoreServices.
Context `{Ext : Externals}.
Variable cfg : Config.

(** speakeasy's [generateSecret({ name, length: 32 })], from the name and
    the bytes it draws to the base32 secret and the otpauth URL, and
    qrcode's [toDataURL]. *)
Variable speakeasy_generateSecret : string -> Buffer -> string * string.
Variable qrcode_toDataURL : string -> string.

(** [generateTOTPSecret(userId, userEmail)]; [raw] is what speakeasy
    draws and [iv] what [encrypt] draws. *)
Definition generateTOTPSecret (raw iv : Buffer) (userId userEmail : string) (w : World)
  : World * result TotpSetup :=
  let secret := speakeasy_generateSecret ("Portfolio (" ++ userEmail ++ ")") raw in
  let qrCodeUrl := qrcode_toDataURL (snd secret) in
  match encrypt iv (fst secret) (twoFactor_encryptionKey cfg) with
  | Throw e => (w, Throw e)
  | Ok encryptedSecret =>
      (upsertTwoFactorAuth userId TOTP
         {| tfa_userId := userId; tfa_type := TOTP; tfa_secret := encryptedSecret;
            tfa_enabled := false; recoveryCodes := None |}
         (with_secret_disabled encryptedSecret) w,
       Ok {| setup_secret := fst secret; setup_qrCode := qrCodeUrl;
             setup_manualEntryKey := fst secret |})
  end.

(** [verifyTOTPSetup(userId, token)]; [draw] feeds [generateRecoveryCodes]
    and [salt i] is the salt of the i-th [argon2.hash]. *)
Definition verifyTOTPSetup (draw : nat -> Buffer) (salt : nat -> string)
    (userId token : string) (w : World) : World * result (list string) :=
  match findTwoFactorAuth userId TOTP w with
  | None => (w, Throw (BadRequestException "2FA setup not initiated"))
  | Some totpAuth =>
      match decrypt (tfa_secret totpAuth) (twoFactor_encryptionKey cfg) with
      | Throw e => (w, Throw e)
      | Ok secret =>
          let isValid := totp_verify secret token (clock w) in
          if negb isValid then
            (w, Throw (UnauthorizedException "Invalid verification code"))
          else
            let codes := generateRecoveryCodes draw 10 in
            let hashedRecoveryCodes :=
              map (fun ic => argon2_hash (snd ic) (salt (fst ic)))
                (combine (seq 0 (length codes)) codes) in
            (set_twoFactorAuths
               (map (fun a => if isFactor userId TOTP a
                              then with_enabled_codes hashedRecoveryCodes a else a)
                  (twoFactorAuths w)) w,
             Ok codes)
      end
  end.

(** [enableEmailOTP(userId)] *)
Definition enableEmailOTP (userId : string) (w : World) : World :=
  upsertTwoFactorAuth userId EMAIL
    {| tfa_userId := userId; tfa_type := EMAIL; tfa_secret := "email";
       tfa_enabled := true; recoveryCodes := None |}
    (with_enabled true) w.

(** [disable2FA(userId, type)] *)
Definition disable2FA (userId : string) (ty : TwoFactorType) (w : World) : World :=
  set_twoFactorAuths
    (map (fun a => if isFactor userId ty a then with_enabled false a else a)
       (twoFactorAuths w)) w.

(** [get2FAStatus(userId)] *)
Definition get2FAStatus (userId : string) (w : World) : TwoFactorStatus :=
  let auths := List.filter (fun a => String.eqb (tfa_userId a) userId) (twoFactorAuths w) in
  {| status_totp_enabled :=
       match List.find (fun a => TwoFactorType_eqb (tfa_type a) TOTP) auths with
       | Some a => tfa_enabled a
       | None => false
       end;
     status_email_enabled :=
       match List.find (fun a => TwoFactorType_eqb (tfa_type a) EMAIL) auths with
       | Some a => tfa_enabled a
       | None => false
       end |}.

(** [cleanExpiredOTPs()] *)
Definition cleanExpiredOTPs (w : World) : World :=
  set_emailOTPs (List.filter (fun r => negb (otp_expiresAt r <? clock w)) (emailOTPs w)) w.

(** [getLockoutInfo(identifier)] *)
Definition getLockoutInfo (identifier : string) (w : World) : LockoutInfo :=
  let lockKey := "lockout:locked:" ++ identifier in
  let attemptKey := "lockout:user:" ++ identifier in
  let locked := redis_get lockKey w in
  let attempts := redis_get attemptKey w in
  if truthy locked then
    {| isLocked := true; remainingMinutes := Some (ceil_div60 (redis_ttl lockKey w));
       info_attempts := None |}
  else
    {| isLocked := false; remainingMinutes := None;
       info_attempts := Some (if truthy attempts then parseInt (default "" attempts)
                              else Num 0) |}.

(** [logout(userId, refreshToken)] *)
Definition logout (userId : string) (token : option string) (w : World) : World :=
  if truthy token then
    set_sessions
      (List.filter (fun s => negb (String.eqb (session_userId s) userId
                                   && String.eqb (session_token s) (default "" token)))
         (sessions w)) w
  else
    set_sessions
      (List.filter (fun s => negb (String.eqb (session_userId s) userId)) (sessions w)) w.

(** [validateToken(token)]: whatever the [try] block throws is replaced
    by "Invalid token". *)
Definition validateToken (token : string) (w : World) : result User :=
  match jwt_verify token (jwt_secret cfg) (clock w) with
  | None => Throw (UnauthorizedException "Invalid token")
  | Some payload =>
      match List.find (fun u => String.eqb (user_id u) (sub payload)) (users w) with
      | None => Throw (UnauthorizedException "Invalid token")
      | Some user => Ok user
      end
  end.

(** [verifyPassword(userId, password)] *)
Definition verifyPassword (userId pwd : string) (w : World) : result unit :=
  match findAccount userId w with
  | None => Throw (UnauthorizedException "Invalid credentials")
  | Some account =>
      if negb (argon2_verify (passwordHash account) pwd)
      then Throw (UnauthorizedException "Invalid password")
      else Ok tt
  end.

(** [AuthController.disable2FA] (auth.controller.ts) for the user the
    JWT guard put on the request; what it returns on success is a fixed
    message.  The user-agent column of the audit row is not kept by
    [AuditLog]. *)
Definition controller_disable2FA (userId : string) (dto : Disable2FADto)
    (ipAddress : option string) (w : World) : World * result string :=
  match verifyPassword userId (disable_password dto) w with
  | Throw e => (w, Throw e)
  | Ok _ =>
      let '(w1, checked) :=
        if truthy (disable_token dto) then
          match disable_method dto with
          | TOTP =>
              match verifyTOTP cfg userId (default "" (disable_token dto)) w with
              | Throw e => (w, Throw e)
              | Ok isValid =>
                  if negb isValid
                  then (w, Throw (UnauthorizedException "Invalid 2FA token"))
                  else (w, Ok tt)
              end
          | EMAIL =>
              match verifyOTP cfg userId (default "" (disable_token dto)) w with
              | (w', Throw e) => (w', Throw e)
              | (w', Ok _) => (w', Ok tt)
              end
          end
        else (w, Ok tt) in
      match checked with
      | Throw e => (w1, Throw e)
      | Ok _ =>
          let w2 := disable2FA userId (disable_method dto) w1 in
          (auditLog userId "2fa_disabled"
             (Some (if TwoFactorType_eqb (disable_method dto) TOTP then "google" else "email"))
             true ipAddress w2,
           Ok "Two-Factor Authentication has been disabled")
      end
  end.

(** [AuthController.resendOTP]: the message of the response. *)
Definition controller_resendOTP (rnd : Entropy) (ident : string) (ipAddress : option string)
    (w : World) : World * result string :=
  match findUserByIdentifier ident w with
  | None => (w, Ok "If the account exists, an OTP has been sent")
  | Some user =>
      match generateAndSendOTP cfg rnd (user_id user) (user_email user) w with
      | (w1, Throw e) => (w1, Throw e)
      | (w1, Ok _) =>
          (auditLog (user_id user) "2fa_otp_resent" (Some "email") true ipAddress w1,
           Ok "A new verification code has been sent to your email")
      end
  end.

End MoreServices.

(** ** PasswordResetService (password-reset.service.ts) *)

Record PasswordResetToken : Type := {
  prt_id : nat;
  prt_userId : string;
  prt_token : string;
  prt_used : bool;
  prt_expiresAt : Z
}.

(** The table of password reset tokens beside the tables of [World]. *)
Record ResetStore : Type := {
  rs_world : World;
  resetTokens : list PasswordResetToken
}.

(** What [validateResetToken] returns. *)
Record ResetTokenCheck : Type := {
  check_valid : bool;
  check_email : option string
}.

Definition with_passwordHash (h : string) (a : Account) : Account :=
  {| account_id := account_id a; account_userId := account_userId a;
     passwordHash := h; lastLoginAt := lastLoginAt a |}.

Definition with_used (t : PasswordResetToken) : PasswordResetToken :=
  {| prt_id := prt_id t; prt_userId := prt_userId t; prt_token := prt_token t;
     prt_used := true; prt_expiresAt := prt_expiresAt t |}.

(** [s[0]], the first UTF-16 code unit of [s], as text; [None] is
    [undefined], for the empty string.  A character of one to three
    octets is one code unit.  A character of four octets is a surrogate
    pair, and its first unit, the high surrogate, is written as the
    three octets generalized UTF-8 gives a lone surrogate. *)
Definition js_first_unit (s : string) : option string :=
  match s with
  | EmptyString => None
  | String c0 rest =>
      let n0 := N_of_ascii c0 in
      if (n0 <? 192)%N then Some (String c0 EmptyString)
      else if (n0 <? 224)%N then Some (String c0 (String.substring 0 1 rest))
      else if (n0 <? 240)%N then Some (String c0 (String.substring 0 2 rest))
      else
        match rest with
        | String c1 (String c2 _) =>
            let top := (N.land n0 7 * 256 + N.land (N_of_ascii c1) 63 * 4
                        + N.land (N_of_ascii c2) 63 / 16 - 64)%N in
            Some (String (ascii_of_N 237)
                    (String (ascii_of_N (160 + top / 64))
                       (String (ascii_of_N (128 + top mod 64)) EmptyString)))
        | _ => Some (String c0 rest)
        end
  end.

(** [`${localPart[0]}***@${domain}`] after
    [const [localPart, domain] = email.split('@')]: a missing first
    character or domain prints as "undefined". *)
Definition maskEmail (email : string) : string :=
  let parts := split "@" email in
  let localPart := default "" (nth_error parts 0) in
  let first := default "undefined" (js_first_unit localPart) in
  let domain := default "undefined" (nth_error parts 1) in
  first ++ "***@" ++ domain.

Section PasswordReset.
Context `{Ext : Externals}.

(** [email.passwordReset.expiryMinutes] and [frontend.url] of the
    configuration. *)
Variable expiryMinutes : Z.
Variable frontendUrl : string.

(** [findMany({ where: { used: false, expiresAt: { gt: new Date() } } })] *)
Definition validResetTokens (st : ResetStore) : list PasswordResetToken :=
  List.filter (fun t => negb (prt_used t) && (clock (rs_world st) <? prt_expiresAt t))
    (resetTokens st).

Definition bumpResetRate (email : string) (attempts : option string) (w : World) : World :=
  let currentAttempts := if truthy attempts then parseInt (default "" attempts) else Num 0 in
  redis_set ("reset:rate:" ++ email) (toString (js_succ currentAttempts)) 900 w.

(** [initiateReset(email)]; [tokenBytes] is the result of
    [randomBytes(32)] and [salt] the salt of [argon2.hash]. *)
Definition initiateReset (tokenBytes : Buffer) (salt email : string) (st : ResetStore)
  : ResetStore * result unit :=
  let w := rs_world st in
  let attempts := redis_get ("reset:rate:" ++ email) w in
  if truthy attempts && js_ge (parseInt (default "" attempts)) 3 then
    (st, Throw (BadRequestException
                  "Too many password reset requests. Please try again later."))
  else
    let unknown :=
      ({| rs_world := bumpResetRate email attempts w; resetTokens := resetTokens st |},
       Ok tt) in
    match List.find (fun u => String.eqb (user_email u) email) (users w) with
    | None => unknown
    | Some user =>
        match findAccount (user_id user) w with
        | None => unknown
        | Some _ =>
            let tokenString := to_hex tokenBytes in
            let tokenHash := argon2_hash tokenString salt in
            let expiresAt := clock w + expiryMinutes * 60 * 1000 in
            let kept := List.filter (fun t => negb (String.eqb (prt_userId t) (user_id user)))
                          (resetTokens st) in
            let created := {| prt_id := nextId w; prt_userId := user_id user;
                              prt_token := tokenHash; prt_used := false;
                              prt_expiresAt := expiresAt |} in
            let resetLink := frontendUrl ++ "/reset-password?token=" ++ tokenString in
            let w1 := set_outbox (outbox w ++
                        [{| mail_to := email; mail_subject := "Reset Your Password";
                            mail_template := "reset-password";
                            mail_context :=
                              [("name", user_name user); ("resetLink", resetLink);
                               ("expiryMinutes", toString (Num expiryMinutes))] |}])
                        (set_nextId (S (nextId w)) w) in
            ({| rs_world := bumpResetRate email attempts w1;
                resetTokens := kept ++ [created] |}, Ok tt)
        end
    end.

(** The loop of [validateResetToken]: the first valid token that answers
    to the string and whose user exists. *)
Fixpoint firstOwnedMatch (tokenString : string) (us : list User)
    (tokens : list PasswordResetToken) : option User :=
  match tokens with
  | [] => None
  | dbToken :: rest =>
      if argon2_verify (prt_token dbToken) tokenString then
        match List.find (fun u => String.eqb (user_id u) (prt_userId dbToken)) us with
        | Some user => Some user
        | None => firstOwnedMatch tokenString us rest
        end
      else firstOwnedMatch tokenString us rest
  end.

(** [validateResetToken(tokenString)] *)
Definition validateResetToken (tokenString : string) (st : ResetStore) : ResetTokenCheck :=
  match firstOwnedMatch tokenString (users (rs_world st)) (validResetTokens st) with
  | Some user => {| check_valid := true; check_email := Some (maskEmail (user_email user)) |}
  | None => {| check_valid := false; check_email := None |}
  end.

(** [resetPassword(tokenString, newPassword)]; the three writes of the
    transaction take effect together, or not at all when the account
    row to update is missing.  The [timestamp] of the mail is
    [toLocaleString()] of the clock, kept as its milliseconds. *)
Definition resetPassword (salt tokenString newPassword : string) (st : ResetStore)
  : ResetStore * result unit :=
  let w := rs_world st in
  match List.find (fun t => argon2_verify (prt_token t) tokenString) (validResetTokens st) with
  | None => (st, Throw (BadRequestException "Invalid or expired reset token"))
  | Some matchedToken =>
      let hash := argon2_hash newPassword salt in
      match findAccount (prt_userId matchedToken) w with
      | None => (st, Throw PrismaNotFound)
      | Some _ =>
          let w1 := set_sessions
                      (List.filter
                         (fun s => negb (String.eqb (session_userId s) (prt_userId matchedToken)))
                         (sessions w))
                      (set_accounts
                         (map (fun a => if String.eqb (account_userId a) (prt_userId matchedToken)
                                        then with_passwordHash hash a else a) (accounts w)) w) in
          let tokens1 := map (fun t => if Nat.eqb (prt_id t) (prt_id matchedToken)
                                       then with_used t else t) (resetTokens st) in
          let w2 :=
            match List.find (fun u => String.eqb (user_id u) (prt_userId matchedToken))
                    (users w1) with
            | Some user =>
                set_outbox (outbox w1 ++
                  [{| mail_to := user_email user;
                      mail_subject := "Your Password Has Been Changed";
                      mail_template := "password-changed";
                      mail_context :=
                        [("name", user_name user);
                         ("timestamp", toString (Num (clock w1)));
                         ("ipAddress", "Password reset flow")] |}])
                  (redis_del ("reset:rate:" ++ user_email user) w1)
            | None => w1
            end in
          ({| rs_world := w2; resetTokens := tokens1 |}, Ok tt)
      end
  end.

(** [cleanExpiredTokens()] *)
Definition cleanExpiredTokens (st : ResetStore) : ResetStore :=
  {| rs_world := rs_world st;
     resetTokens := List.filter (fun t => negb (prt_expiresAt t <? clock (rs_world st)))
                      (resetTokens st) |}.

End PasswordReset.

(** ** A small concrete instance

    Stand-ins for the libraries, simple enough to run, used to evaluate
    the services on concrete worlds. *)

Fixpoint contains (c : ascii) (s : string) : bool :=
  match s with
  | EmptyString => false
  | String d rest => Ascii.eqb d c || contains c rest
  end.

Fixpoint buffer_eqb (a b : Buffer) : bool :=
  match a, b with
  | [], [] => true
  | x :: a', y :: b' => Byte.eqb x y && buffer_eqb a' b'
  | _, _ => false
  end.

(** A sealing that leaves the text as it is and uses key, nonce and text
    together as the tag; a 32-byte key is required, as by AES-256. *)
Definition toy_gcm : AesGcm := {|
  gcm_seal key iv pt :=
    if Nat.eqb (length key) 32 then Some (pt, (key ++ iv ++ pt)%list) else None;
  gcm_open key iv tag ct :=
    if Nat.eqb (length key) 32 && buffer_eqb tag (key ++ iv ++ ct)%list then Some ct else None
|}.


(** Hashes are [salt$plain], so that one text has as many hashes as
    there are salts, as with argon2.  A token is [secret.sub.issuedAt]
    and does not expire; like a JSON Web Token signed with HS256 it is
    determined by the claims, the secret and the time of issue.  The one
    valid TOTP code is the shared secret followed by the number of the
    30-second step. *)
Definition toy_ext : Externals := {|
  argon2_hash plain salt := salt ++ "$" ++ plain;
  argon2_verify hash plain :=
    match split "$" hash with
    | [_; p] => String.eqb p plain
    | _ => false
    end;
  jwt_sign payload secret expiresIn now :=
    secret ++ "." ++ sub payload ++ "." ++ toString (Num now);
  jwt_verify token secret now :=
    match split "." token with
    | [s; u; _] =>
        if String.eqb s secret
        then Some {| sub := u; jp_email := ""; jp_username := ""; jp_role := USER |}
        else None
    | _ => None
    end;
  totp_verify secret token now :=
    String.eqb token (secret ++ toString (Num (now / 30000)));
  ext_gcm := toy_gcm
|}.

Definition toy_key : string :=
  "000102030405060708090a0b0c0d0e0f101112131415161718191a1b1c1d1e1f".

Definition toy_iv : Buffer :=
  [xa0; xa1; xa2; xa3; xa4; xa5; xa6; xa7; xa8; xa9; xaa; xab; xac; xad; xae; xaf].

Definition toy_cfg : Config := {|
  jwt_secret := "access-secret";
  jwt_refreshSecret := "refresh-secret";
  jwt_expiresIn := "15m";
  jwt_refreshExpiresIn := "7d";
  twoFactor_encryptionKey := toy_key;
  twoFactor_otpExpiryMinutes := 5;
  twoFactor_maxOTPAttempts := 5;
  twoFactor_maxResendAttempts := 3;
  twoFactor_lockoutMinutes := 15;
  lockout_maxAttempts := 5;
  lockout_lockoutMinutes := 15
|}.

Definition toy_rnd : Entropy := {|
  rand_raw := 23456;
  rand_salt := "salt";
  rand_userId := "u2";
  rand_accountId := "a2"
|}.

Definition alice : User := {|
  user_id := "u1"; user_email := "a@x.com"; user_username := "a";
  user_name := "Alice"; user_role := USER
|}.

Definition alice_account : Account := {|
  account_id := "a1"; account_userId := "u1";
  passwordHash := "pepper$Secr3t!23"; lastLoginAt := None
|}.

(** The secret "JBSWY3DP" sealed under [toy_key]. *)
Definition alice_secret : string :=
  match @encrypt toy_gcm toy_iv "JBSWY3DP" toy_key with
  | Ok e => e
  | Throw _ => ""
  end.

Definition alice_totp (codes : list string) : TwoFactorAuth := {|
  tfa_userId := "u1"; tfa_type := TOTP; tfa_secret := alice_secret;
  tfa_enabled := true; recoveryCodes := Some codes
|}.

Definition alice_email_factor : TwoFactorAuth := {|
  tfa_userId := "u1"; tfa_type := EMAIL; tfa_secret := "email";
  tfa_enabled := true; recoveryCodes := None
|}.

(** A world with Alice registered, the given second factors, and the
    clock at one million milliseconds. *)
Definition toy_world (factors : list TwoFactorAuth) : World := {|
  users := [alice]; accounts := [alice_account]; twoFactorAuths := factors;
  sessions := []; emailOTPs := []; loginAttempts := []; auditLogs := [];
  redis := ∅; outbox := []; nextId := 0; clock := 1000000
|}.

Definition good_login (token : option string) : LoginDto :=
  {| identifier := "a@x.com"; password := "Secr3t!23"; twoFactorToken := token |}.

Definition bad_login : LoginDto :=
  {| identifier := "a@x.com"; password := "guess"; twoFactorToken := None |}.

(** Alice with both factors enabled, after a [login] without token: the
    e-mail challenge for the code "123456" is pending. *)
Definition challenged_world : World :=
  fst (@login toy_ext toy_cfg toy_rnd (good_login None) None
         (toy_world [alice_totp []; alice_email_factor])).

(** Two stored hashes of the one recovery code "AB12CD34". *)
Definition twin_codes_world : World :=
  toy_world [alice_totp ["s1$AB12CD34"; "s2$AB12CD34"]].

(** Alice without second factor, right after she logged in: the clock
    still shows the instant her tokens were issued at. *)
Definition fresh_login_world : World :=
  fst (@login toy_ext toy_cfg toy_rnd (good_login None) None (toy_world [])).

(** Alice without second factor, one second after she logged in. *)
Definition logged_in_world : World :=
  advance 1000 (fst (@login toy_ext toy_cfg toy_rnd (good_login None) None (toy_world []))).

(** Alice without second factor, one second after she logged in twice
    at the same instant: two session rows hold the same refresh
    token. *)
Definition double_login_world : World :=
  advance 1000
    (fst (@login toy_ext toy_cfg toy_rnd (good_login None) None
            (fst (@login toy_ext toy_cfg toy_rnd (good_login None) None (toy_world []))))).

(** [n] failed [recordFailedAttempt] calls in a row. *)
Fixpoint recordFailures (n : nat) (id : string) (w : World) : World :=
  match n with
  | O => w
  | S k => recordFailedAttempt toy_cfg id None (recordFailures k id w)
  end.

(** [n] [login] calls with a wrong password in a row. *)
Fixpoint failedLogins (n : nat) (w : World) : World :=
  match n with
  | O => w
  | S k => fst (@login toy_ext toy_cfg toy_rnd bad_login None (failedLogins k w))
  end.

(** Stand-ins for speakeasy's [generateSecret] and qrcode's
    [toDataURL]: the secret is the same whatever is drawn. *)
Definition toy_speakeasy (name : string) (raw : Buffer) : string * string :=
  ("JBSWY3DP", "otpauth://totp/" ++ name ++ "?secret=JBSWY3DP").

Definition toy_qrcode (url : string) : string := "data:image/png;base64," ++ url.

(** Ten draws of four bytes, the last of which is the number of the draw. *)
Definition toy_draw (i : nat) : Buffer :=
  [xde; xad; xbe; nth i [x00; x01; x02; x03; x04; x05; x06; x07; x08; x09] xff].

Definition toy_salt (i : nat) : string := "s" ++ toString (Num (Z.of_nat i)).

(** Draws of [randomBytes(4)] of which the first and the fourth are the
    same four bytes. *)
Definition twin_draw (i : nat) : Buffer := toy_draw (if Nat.eqb i 3 then 0%nat else i).

(** Alice after [verifyTOTPSetup] with these draws: the first and the
    fourth of her recovery codes are both "DEADBE00", stored as two
    hashes with salts of their own. *)
Definition twin_setup_world : World :=
  fst (@verifyTOTPSetup toy_ext toy_cfg twin_draw toy_salt "u1" "JBSWY3DP33"
         (toy_world [alice_totp []])).

(** Failed attempts recorded one after the other, each [gap]
    milliseconds after the one before. *)
Fixpoint failuresAfter (cfg : Config) (gaps : list Z) (id : string) (w : World) : World :=
  match gaps with
  | [] => w
  | gap :: rest => failuresAfter cfg rest id (recordFailedAttempt cfg id None (advance gap w))
  end.

(** What [n] recorded failures in a row leave in Redis for [id]: the
    counter, live for the lockout time from the last failure on, and the
    lock once the counter has reached the maximum. *)
Definition failuresRecorded (cfg : Config) (id : string) (n : Z) (w : World) : Prop :=
  if n =? 0 then
    redis_get ("lockout:user:" ++ id) w = None
    /\ redis_get ("lockout:locked:" ++ id) w = None
  else
    redis w !! ("lockout:user:" ++ id)%string
    = Some (toString (Num n), clock w + lockout_lockoutMinutes cfg * 60 * 1000)
    /\ (lockout_maxAttempts cfg <= n ->
        redis w !! ("lockout:locked:" ++ id)%string
        = Some ("locked", clock w + lockout_lockoutMinutes cfg * 60 * 1000))
    /\ (n < lockout_maxAttempts cfg -> redis_get ("lockout:locked:" ++ id) w = None).



(** The store [gap] milliseconds later. *)
Definition advanceStore (gap : Z) (st : ResetStore) : ResetStore :=
  {| rs_world := advance gap (rs_world st); resetTokens := resetTokens st |}.

(** Requests for a password reset one after the other, each [gap]
    milliseconds after the one before and with its own draws. *)
Fixpoint resetRequestsAfter `{Ext : Externals} (expiryMinutes : Z) (frontendUrl : string)
    (reqs : list (Z * (Buffer * string))) (email : string) (st : ResetStore) : ResetStore :=
  match reqs with
  | [] => st
  | (gap, (tokenBytes, salt)) :: rest =>
      resetRequestsAfter expiryMinutes frontendUrl rest email
        (fst (initiateReset expiryMinutes frontendUrl tokenBytes salt email
                (advanceStore gap st)))
  end.

(** What [n] requests in a row leave in Redis for [email]: the counter,
    live for 900 seconds from the last request on. *)
Definition resetsCounted (email : string) (n : Z) (w : World) : Prop :=
  if n =? 0 then redis_get ("reset:rate:" ++ email) w = None
  else redis w !! ("reset:rate:" ++ email)%string
       = Some (toString (Num n), clock w + 900 * 1000).

(** A store with Alice registered and no reset token, and the 32 bytes
    a request draws. *)
Definition toy_store : ResetStore := {| rs_world := toy_world []; resetTokens := [] |}.

Definition toy_token_bytes : Buffer := from_hex toy_key.

(** * Properties *)

(** ** Decimal strings: [parseInt] reads back what [toString] writes *)

Lemma digit_cases (d : Z) :
  0 <= d <= 9 ->
  d = 0 \/ d = 1 \/ d = 2 \/ d = 3 \/ d = 4 \/ d = 5 \/ d = 6 \/ d = 7 \/ d = 8 \/ d = 9.
Proof. lia. Qed.

Lemma digit_char_is_digit (d : Z) :
  0 <= d <= 9 -> is_digit (digit_char d) = true /\ digit_val (digit_char d) = d.
Proof.
  intros Hd. destruct (digit_cases d Hd) as [-> | [-> | [-> | [-> | [-> | [-> | [-> | [-> | [-> | ->]]]]]]]]];
    split; reflexivity.
Qed.

Lemma digits_of_spec (fuel : nat) :
  forall n, 0 <= n < 2 ^ (Z.of_nat fuel + 1) ->
    fold_left (fun a d => 10 * a + d) (digits_of fuel n) 0 = n
    /\ Forall (fun d => 0 <= d <= 9) (digits_of fuel n)
    /\ digits_of fuel n <> [].
Proof.
  induction fuel as [| f IH]; intros n Hn.
  - cbn [digits_of]. change (2 ^ (Z.of_nat 0 + 1)) with 2 in Hn.
    assert (n mod 10 = n) as -> by (apply Z.mod_small; lia).
    split; [| split]; [cbn; lia | repeat constructor; lia | discriminate].
  - cbn [digits_of]. destruct (Z.ltb_spec n 10) as [Hlt | Hge].
    + split; [| split]; [cbn; lia | repeat constructor; lia | discriminate].
    + assert (Hq : 0 <= n / 10 < 2 ^ (Z.of_nat f + 1)).
      { split; [apply Z.div_pos; lia |].
        apply Z.div_lt_upper_bound; [lia |].
        replace (Z.of_nat (S f) + 1) with (Z.succ (Z.of_nat f + 1)) in Hn by lia.
        rewrite Z.pow_succ_r in Hn by lia.
        pose proof (Z.pow_pos_nonneg 2 (Z.of_nat f + 1)). lia. }
      destruct (IH _ Hq) as (Hv & Hall & Hne).
      split; [| split].
      * rewrite fold_left_app, Hv. cbn [fold_left].
        pose proof (Z.div_mod n 10). lia.
      * apply Forall_app. split; [exact Hall |].
        repeat constructor; pose proof (Z.mod_pos_bound n 10); lia.
      * intros Heq. apply app_eq_nil in Heq. destruct Heq as [_ Heq]. discriminate.
Qed.

Lemma log2_fuel (n : Z) : 0 <= n -> 0 <= n < 2 ^ (Z.of_nat (Z.to_nat (Z.log2 n)) + 1).
Proof.
  intros Hn. rewrite Z2Nat.id by apply Z.log2_nonneg.
  destruct (Z.eq_dec n 0) as [-> | Hne]; [cbn; lia |].
  pose proof (Z.log2_spec n ltac:(lia)) as Hs.
  replace (Z.log2 n + 1) with (Z.succ (Z.log2 n)) by lia. lia.
Qed.

Lemma read_digits_string_of_digits (ds : list Z) :
  Forall (fun d => 0 <= d <= 9) ds ->
  forall acc seen,
    read_digits acc seen (string_of_digits ds)
    = (fold_left (fun a d => 10 * a + d) ds acc,
       seen || match ds with [] => false | _ => true end).
Proof.
  induction 1 as [| d ds Hd _ IH]; intros acc seen.
  - cbn. now rewrite orb_false_r.
  - cbn [string_of_digits fold_right read_digits fold_left].
    destruct (digit_char_is_digit d Hd) as [-> ->].
    fold (string_of_digits ds). rewrite IH. now rewrite orb_true_r.
Qed.

Lemma parseInt_leading_digit (c : ascii) (rest : string) :
  is_digit c = true ->
  parseInt (String c rest)
  = match read_digits 0 false (String c rest) with
    | (v, true) => Num v
    | (_, false) => NaN
    end.
Proof.
  destruct c as [[] [] [] [] [] [] [] []]; intros H; try discriminate H; reflexivity.
Qed.

Lemma parseInt_nat_toString (n : Z) : 0 <= n -> parseInt (nat_toString n) = Num n.
Proof.
  intros Hn. unfold nat_toString.
  destruct (digits_of_spec _ n (log2_fuel n Hn)) as (Hv & Hall & Hne).
  destruct (digits_of (Z.to_nat (Z.log2 n)) n) as [| d ds] eqn:E; [congruence |].
  pose proof (read_digits_string_of_digits _ Hall 0 false) as Hr.
  rewrite Hv in Hr.
  inversion Hall as [| ? ? Hd _]; subst.
  change (string_of_digits (d :: ds)) with (String (digit_char d) (string_of_digits ds)) in *.
  rewrite parseInt_leading_digit by apply (digit_char_is_digit d Hd).
  now rewrite Hr.
Qed.

Lemma nat_toString_nonempty (n : Z) : 0 <= n -> nat_toString n <> "".
Proof.
  intros Hn E. pose proof (parseInt_nat_toString n Hn) as H. rewrite E in H. discriminate H.
Qed.

Lemma parseInt_toString (z : Z) : parseInt (toString (Num z)) = Num z.
Proof.
  unfold toString. destruct (Z.ltb_spec z 0) as [Hneg | Hpos].
  - assert (Hn : 0 <= - z) by lia.
    unfold nat_toString.
    destruct (digits_of_spec _ (- z) (log2_fuel _ Hn)) as (Hv & Hall & Hne).
    pose proof (read_digits_string_of_digits _ Hall 0 false) as Hr.
    rewrite Hv in Hr.
    destruct (digits_of (Z.to_nat (Z.log2 (- z))) (- z)) as [| d ds] eqn:E; [congruence |].
    unfold parseInt. cbn [skip_spaces]. change (is_space "-") with false. cbv iota.
    rewrite Hr. cbn. f_equal. lia.
  - now apply parseInt_nat_toString.
Qed.

Lemma toString_inj (a b : Z) : toString (Num a) = toString (Num b) -> a = b.
Proof.
  intros H. pose proof (parseInt_toString a) as Ha. rewrite H, parseInt_toString in Ha.
  congruence.
Qed.

Lemma toString_truthy (z : Z) : truthy (Some (toString (Num z))) = true.
Proof.
  unfold truthy. destruct (String.eqb_spec (toString (Num z)) "") as [E |]; [| reflexivity].
  pose proof (parseInt_toString z) as H. rewrite E in H. discriminate H.
Qed.

(** ** OtpService.generateOTP *)

Lemma randomInt_range (min max raw : Z) :
  min < max -> min <= randomInt min max raw < max.
Proof.
  intros H. unfold randomInt. pose proof (Z.mod_pos_bound raw (max - min)). lia.
Qed.

Lemma randomInt_hits (min max n : Z) :
  min <= n < max -> randomInt min max (n - min) = n.
Proof.
  intros H. unfold randomInt. rewrite Z.mod_small by lia. lia.
Qed.

(** C9: the codes [generateOTP] produces are exactly the decimal
    numerals of 100000 to 999998: every code lies in that range, every
    value of that range is produced by some draw, and no draw produces
    "999999", because [randomInt] excludes its upper bound. *)
Theorem generateOTP_excludes_999999 :
  (forall raw, exists n, 100000 <= n <= 999998 /\ generateOTP raw = toString (Num n))
  /\ (forall n, 100000 <= n <= 999998 -> exists raw, generateOTP raw = toString (Num n))
  /\ (forall raw, generateOTP raw <> "999999").
Proof.
  split; [| split].
  - intros raw. exists (randomInt 100000 999999 raw). split; [| reflexivity].
    pose proof (randomInt_range 100000 999999 raw). lia.
  - intros n Hn. exists (n - 100000). unfold generateOTP.
    rewrite randomInt_hits by lia. reflexivity.
  - intros raw H. unfold generateOTP in H.
    change "999999" with (toString (Num 999999)) in H.
    apply toString_inj in H.
    pose proof (randomInt_range 100000 999999 raw). lia.
Qed.

Lemma generateOTP_excludes_999999_witness :
  generateOTP 899998 = "999998" /\ generateOTP 899999 = "100000"
  /\ (exists raw, generateOTP raw = toString (Num 543210))
  /\ generateOTP 0 <> "999999".
Proof.
  split; [reflexivity | split; [reflexivity | split]].
  - apply (proj1 (proj2 generateOTP_excludes_999999) 543210). lia.
  - apply (proj2 (proj2 generateOTP_excludes_999999)).
Defined.

(** ** The secret codec *)

Lemma hex_pair_decodes (x : byte) (rest : string) :
  from_hex (String (hex_digit (Byte.to_N x / 16))
              (String (hex_digit (Byte.to_N x mod 16)) rest))
  = x :: from_hex rest.
Proof. destruct x; reflexivity. Qed.

Lemma from_hex_to_hex (b : Buffer) : from_hex (to_hex b) = b.
Proof.
  induction b as [| x b IH]; [reflexivity |].
  cbn [to_hex]. rewrite hex_pair_decodes. now rewrite IH.
Qed.

Lemma hex_pair_no_colon (x : byte) (rest : string) :
  contains ":" (String (hex_digit (Byte.to_N x / 16))
                  (String (hex_digit (Byte.to_N x mod 16)) rest))
  = contains ":" rest.
Proof. destruct x; reflexivity. Qed.



Lemma to_hex_no_colon (b : Buffer) : contains ":" (to_hex b) = false.
Proof.
  induction b as [| x b IH]; [reflexivity |].
  cbn [to_hex]. now rewrite hex_pair_no_colon.
Qed.


Lemma split_no_sep (sep : ascii) (a : string) :
  contains sep a = false -> split sep a = [a].
Proof.
  induction a as [| c a IH]; [reflexivity |].
  cbn [contains split]. intros H. apply orb_false_iff in H as [Hc Ha].
  rewrite Hc, (IH Ha). reflexivity.
Qed.

Lemma append_nil_l (s : string) : "" ++ s = s.
Proof. reflexivity. Qed.

Lemma append_cons (c : ascii) (a s : string) : String c a ++ s = String c (a ++ s).
Proof. reflexivity. Qed.

Lemma split_app (sep : ascii) (a b : string) :
  contains sep a = false -> split sep (a ++ String sep b) = a :: split sep b.
Proof.
  induction a as [| c a IH]; intros H.
  - rewrite append_nil_l. cbn [split]. now rewrite Ascii.eqb_refl.
  - cbn [contains] in H. apply orb_false_iff in H as [Hc Ha].
    rewrite append_cons. cbn [split]. rewrite Hc, (IH Ha). reflexivity.
Qed.




Section CodecFacts.
Context `{Gcm : AesGcm}.

(** The envelope [decrypt] reads: the first three fields between colons. *)
Lemma decrypt_fields (ivHex tagHex encHex key : string) :
  contains ":" ivHex = false -> contains ":" tagHex = false ->
  contains ":" encHex = false ->
  decrypt (ivHex ++ ":" ++ tagHex ++ ":" ++ encHex) key
  = if negb (truthy (Some ivHex)) || negb (truthy (Some tagHex))
       || negb (truthy (Some encHex))
    then Throw (Error "Invalid encrypted text format")
    else if Nat.odd (js_length encHex) then Throw CryptoError
    else match gcm_open (from_hex key) (from_hex ivHex) (from_hex tagHex)
                 (from_hex encHex) with
         | Some decrypted => Ok (utf8_decode decrypted)
         | None => Throw CryptoError
         end.
Proof.
  intros Hi Ht He. unfold decrypt.
  change (":" ++ tagHex ++ ":" ++ encHex) with (String ":" (tagHex ++ String ":" encHex)).
  rewrite (split_app _ _ _ Hi), (split_app _ _ _ Ht), (split_no_sep _ _ He).
  reflexivity.
Qed.



(** An empty text gives an envelope with an empty third field, which
    [decrypt] refuses. *)
Lemma decrypt_encrypt_empty (iv : Buffer) (key env : string) :
  (forall k i pt ct tag, gcm_seal k i pt = Some (ct, tag) -> length ct = length pt) ->
  encrypt iv "" key = Ok env ->
  decrypt env key = Throw (Error "Invalid encrypted text format").
Proof.
  intros Hlen. unfold encrypt.
  destruct (gcm_seal _ _ _) as [[ct tag] |] eqn:E; [| discriminate].
  intros [= <-]. apply Hlen in E. destruct ct; [| discriminate E].
  rewrite decrypt_fields by (apply to_hex_no_colon || reflexivity).
  cbn [to_hex truthy String.eqb negb]. now rewrite !orb_true_r.
Qed.

End CodecFacts.

Lemma buffer_eqb_refl (b : Buffer) : buffer_eqb b b = true.
Proof.
  induction b as [| x b IH]; [reflexivity |].
  cbn [buffer_eqb]. rewrite IH, andb_true_r. now apply Byte.byte_dec_lb.
Qed.

Lemma toy_gcm_open_seal (key iv pt ct tag : Buffer) :
  @gcm_seal toy_gcm key iv pt = Some (ct, tag) ->
  @gcm_open toy_gcm key iv tag ct = Some pt.
Proof.
  cbn. destruct (Nat.eqb (length key) 32); [| discriminate].
  intros [= <- <-]. cbn. now rewrite buffer_eqb_refl.
Qed.

Lemma toy_gcm_seal_length (key iv pt ct tag : Buffer) :
  @gcm_seal toy_gcm key iv pt = Some (ct, tag) ->
  length ct = length pt /\ tag <> [].
Proof.
  cbn. destruct (Nat.eqb_spec (length key) 32) as [E |]; [| discriminate].
  intros [= <- <-]. split; [reflexivity |].
  destruct key; [discriminate E | discriminate].
Qed.









Section CodecRoundTrip.
Context `{Gcm : AesGcm}.

(** What the codec relies on from AES-GCM.  Opening what was sealed
    gives the text back; the ciphertext is as long as the text and the
    tag is not empty; what opens was sealed, the tag presented being the
    tag of the sealing or a shortened form of it; the text opened is
    that of the ciphertext, whichever tag let it through; and a tag
    validates only the key, the nonce and the ciphertext it was computed
    for, which is the authenticity AES-GCM is used for, taken without
    its forgery probability. *)
Hypothesis gcm_open_seal :
  forall key iv pt ct tag,
    gcm_seal key iv pt = Some (ct, tag) -> gcm_open key iv tag ct = Some pt.
Hypothesis gcm_seal_length :
  forall key iv pt ct tag,
    gcm_seal key iv pt = Some (ct, tag) -> length ct = length pt /\ tag <> [].
Hypothesis gcm_open_sealed :
  forall key iv tag ct pt,
    gcm_open key iv tag ct = Some pt ->
    exists full rest, gcm_seal key iv pt = Some (ct, full) /\ full = (tag ++ rest)%list.
Hypothesis gcm_open_text :
  forall key iv tag tag' ct pt pt',
    gcm_open key iv tag ct = Some pt -> gcm_open key iv tag' ct = Some pt' -> pt = pt'.
Hypothesis gcm_tag_binds :
  forall key iv pt ct tag key' iv' ct' pt',
    gcm_seal key iv pt = Some (ct, tag) -> gcm_open key' iv' tag ct' = Some pt' ->
    key' = key /\ iv' = iv /\ ct' = ct.


End CodecRoundTrip.



(** ** Which tables each service touches *)

Open Scope list_scope.

Tactic Notation "world_simpl" :=
  cbn [users accounts twoFactorAuths sessions emailOTPs loginAttempts auditLogs redis
       outbox nextId clock set_users set_accounts set_twoFactorAuths set_sessions
       set_emailOTPs set_loginAttempts set_auditLogs set_redis set_outbox set_nextId
       advance auditLog logLoginAttempt createSession fst snd].

Tactic Notation "world_simpl" "in" hyp(H) :=
  cbn [users accounts twoFactorAuths sessions emailOTPs loginAttempts auditLogs redis
       outbox nextId clock set_users set_accounts set_twoFactorAuths set_sessions
       set_emailOTPs set_loginAttempts set_auditLogs set_redis set_outbox set_nextId
       advance auditLog logLoginAttempt createSession fst snd] in H.

Ltac crack :=
  repeat match goal with
         | |- context [match ?x with _ => _ end] => destruct x eqn:?
         end.

Section Frames.
Context `{Ext : Externals}.
Variable cfg : Config.

Lemma generateAndSendOTP_frame rnd userId email w :
  let w' := fst (generateAndSendOTP cfg rnd userId email w) in
  users w' = users w /\ accounts w' = accounts w /\ sessions w' = sessions w
  /\ twoFactorAuths w' = twoFactorAuths w /\ clock w' = clock w.
Proof. unfold generateAndSendOTP. crack; cbn; auto. Qed.

Lemma verifyOTP_frame userId otp w :
  let w' := fst (verifyOTP cfg userId otp w) in
  users w' = users w /\ accounts w' = accounts w /\ sessions w' = sessions w
  /\ twoFactorAuths w' = twoFactorAuths w /\ clock w' = clock w.
Proof. unfold verifyOTP. crack; cbn; auto. Qed.

Lemma verifyRecoveryCode_frame userId code w :
  let w' := fst (verifyRecoveryCode userId code w) in
  users w' = users w /\ accounts w' = accounts w /\ sessions w' = sessions w
  /\ emailOTPs w' = emailOTPs w /\ redis w' = redis w /\ clock w' = clock w
  /\ loginAttempts w' = loginAttempts w /\ nextId w' = nextId w.
Proof. unfold verifyRecoveryCode. crack; cbn; auto 10. Qed.

Lemma verifySecondFactor_frame user totpAuth emailAuth token ip w :
  let w' := fst (verifySecondFactor cfg user totpAuth emailAuth token ip w) in
  users w' = users w /\ accounts w' = accounts w /\ sessions w' = sessions w
  /\ clock w' = clock w.
Proof.
  unfold verifySecondFactor.
  destruct totpAuth as [t |].
  - destruct (verifyTOTP cfg (user_id user) token w) as [[] | e]; cbn; auto.
    pose proof (verifyRecoveryCode_frame (user_id user) token w) as H. cbn in H.
    destruct (verifyRecoveryCode (user_id user) token w) as [w' []]; cbn in *; tauto.
  - destruct emailAuth as [t |]; cbn; auto.
    pose proof (verifyOTP_frame (user_id user) token w) as H. cbn in H.
    destruct (verifyOTP cfg (user_id user) token w) as [w' [[] | e]]; cbn in *; tauto.
Qed.

Lemma createSession_sessions userId tok w :
  sessions (createSession cfg userId tok w)
  = sessions w ++ [{| session_id := nextId w; session_userId := userId;
                      session_token := tok;
                      session_expiresAt := clock w + SEVEN_DAYS_MS |}].
Proof. reflexivity. Qed.

Lemma completeLogin_sessions user account dto ip w :
  sessions (fst (completeLogin cfg user account dto ip w))
  = sessions w ++ [{| session_id := nextId w; session_userId := user_id user;
                      session_token := refreshToken (generateTokens cfg user w);
                      session_expiresAt := clock w + SEVEN_DAYS_MS |}].
Proof. reflexivity. Qed.

Lemma login_sessions rnd dto ip w s :
  In s (sessions (fst (login cfg rnd dto ip w))) ->
  In s (sessions w) \/ session_expiresAt s = clock w + SEVEN_DAYS_MS.
Proof.
  unfold login.
  destruct (findUserByIdentifier _ w) as [user |]; [| cbn; auto].
  destruct (findAccount _ w) as [account |]; [| cbn; auto].
  destruct (negb _); [cbn; auto |].
  set (auths := List.filter _ _).
  set (totpAuth := List.find _ auths). set (emailAuth := List.find _ auths).
  destruct (_ && negb _).
  - destruct emailAuth as [e |]; [| cbn; auto].
    pose proof (generateAndSendOTP_frame rnd (user_id user) (user_email user) w) as H.
    cbn in H. destruct (generateAndSendOTP _ _ _ _ w) as [w1 [[] | e']]; cbn in *;
      destruct H as (_ & _ & -> & _); auto.
  - destruct (truthy _ && _).
    + pose proof (verifySecondFactor_frame user totpAuth emailAuth
                    (default "" (twoFactorToken dto)) ip w) as H.
      cbn in H.
      destruct (verifySecondFactor _ _ _ _ _ _ w) as [w1 [[] | e]]; cbv zeta iota beta.
      * cbn [fst snd] in H. destruct H as (_ & _ & Hs & Hc).
        rewrite completeLogin_sessions, Hs, Hc. intros Hin.
        apply in_app_or in Hin as [Hin | [<- | []]]; auto.
      * cbn [fst snd] in *. destruct H as (_ & _ & -> & _). auto.
    + cbv zeta iota beta. rewrite completeLogin_sessions. intros Hin.
      apply in_app_or in Hin as [Hin | [<- | []]]; auto.
Qed.

Lemma register_sessions rnd dto w s :
  In s (sessions (fst (register cfg rnd dto w))) ->
  In s (sessions w) \/ session_expiresAt s = clock w + SEVEN_DAYS_MS.
Proof.
  unfold register. destruct (List.find _ _) as [existing |].
  - destruct (String.eqb _ _); cbn; auto.
  - cbn [fst]. rewrite createSession_sessions. cbn [sessions set_accounts set_users clock nextId].
    intros Hin. apply in_app_or in Hin as [Hin | [<- | []]]; auto.
Qed.

Lemma refreshTokens_sessions token w s :
  In s (sessions (fst (refreshTokens cfg token w))) ->
  In s (sessions w) \/ session_expiresAt s = clock w + SEVEN_DAYS_MS.
Proof.
  unfold refreshTokens, refreshTokens_try.
  destruct (jwt_verify _ _ _) as [payload |]; [| cbn; auto].
  destruct (List.find _ (sessions w)) as [session |]; [| cbn; auto].
  destruct (List.find _ (users w)) as [user |]; [| cbn; auto].
  cbn [fst]. rewrite createSession_sessions. cbn [sessions set_sessions clock nextId].
  intros Hin. apply in_app_or in Hin as [Hin | [<- | []]]; [| auto].
  left. apply filter_In in Hin. tauto.
Qed.

(** The session ids stay below [nextId] through every service. *)
Lemma createSession_ids_fresh userId tok w :
  sessionIdsFresh w -> sessionIdsFresh (createSession cfg userId tok w).
Proof.
  intros H s Hin. unfold createSession in *. world_simpl in Hin. world_simpl.
  apply in_app_or in Hin as [Hin | [<- | []]]; [specialize (H s Hin) |]; cbn; lia.
Qed.

Lemma generateAndSendOTP_ids_fresh rnd userId email w :
  sessionIdsFresh w -> sessionIdsFresh (fst (generateAndSendOTP cfg rnd userId email w)).
Proof.
  intros H s. unfold generateAndSendOTP.
  destruct (_ && _); [apply H |]. cbn. intros Hin. specialize (H s Hin). lia.
Qed.

Lemma verifyOTP_nextId userId otp w :
  nextId (fst (verifyOTP cfg userId otp w)) = nextId w.
Proof. unfold verifyOTP. crack; reflexivity. Qed.

Lemma verifySecondFactor_nextId user totpAuth emailAuth token ip w :
  nextId (fst (verifySecondFactor cfg user totpAuth emailAuth token ip w)) = nextId w.
Proof.
  unfold verifySecondFactor.
  destruct totpAuth as [t |].
  - destruct (verifyTOTP cfg (user_id user) token w) as [[] | e]; cbn; auto.
    pose proof (verifyRecoveryCode_frame (user_id user) token w) as H. cbn in H.
    destruct (verifyRecoveryCode (user_id user) token w) as [w' []]; cbn in *; tauto.
  - destruct emailAuth as [t |]; cbn; auto.
    pose proof (verifyOTP_nextId (user_id user) token w) as H.
    destruct (verifyOTP cfg (user_id user) token w) as [w' [[] | e]]; cbn in *; exact H.
Qed.

Lemma login_ids_fresh rnd dto ip w :
  sessionIdsFresh w -> sessionIdsFresh (fst (login cfg rnd dto ip w)).
Proof.
  intros H. unfold login.
  destruct (findUserByIdentifier _ w) as [user |]; [| exact H].
  destruct (findAccount _ w) as [account |]; [| exact H].
  destruct (negb _); [exact H |].
  set (auths := List.filter _ _).
  set (totpAuth := List.find _ auths). set (emailAuth := List.find _ auths).
  destruct (_ && negb _).
  - destruct emailAuth as [e |]; [| exact H].
    pose proof (generateAndSendOTP_ids_fresh rnd (user_id user) (user_email user) w H) as H1.
    destruct (generateAndSendOTP _ _ _ _ w) as [w1 [[] | e']]; exact H1.
  - assert (Hdone : forall w1, sessions w1 = sessions w -> nextId w1 = nextId w ->
                               sessionIdsFresh (fst (completeLogin cfg user account dto ip w1))).
    { intros w1 Hs Hn. unfold completeLogin. cbn [fst].
      apply createSession_ids_fresh. intros s Hin. world_simpl in Hin. world_simpl.
      rewrite Hs in Hin. rewrite Hn. now apply H. }
    destruct (truthy _ && _).
    + pose proof (verifySecondFactor_frame user totpAuth emailAuth
                    (default "" (twoFactorToken dto)) ip w) as Hf.
      pose proof (verifySecondFactor_nextId user totpAuth emailAuth
                    (default "" (twoFactorToken dto)) ip w) as Hn.
      cbn in Hf. destruct Hf as (_ & _ & Hs & _).
      destruct (verifySecondFactor _ _ _ _ _ _ w) as [w1 [[] | e]]; cbn [fst] in *.
      * now apply Hdone.
      * intros s Hin. rewrite Hs in Hin. rewrite Hn. now apply H.
    + now apply Hdone.
Qed.

Lemma refreshTokens_ids_fresh token w :
  sessionIdsFresh w -> sessionIdsFresh (fst (refreshTokens cfg token w)).
Proof.
  intros H. unfold refreshTokens, refreshTokens_try.
  destruct (jwt_verify _ _ _) as [payload |]; [| exact H].
  destruct (List.find _ (sessions w)) as [session |]; [| exact H].
  destruct (List.find _ (users w)) as [user |]; [| exact H].
  cbn [fst]. apply createSession_ids_fresh.
  intros s Hin. world_simpl in Hin. world_simpl. apply filter_In in Hin as [Hin _].
  now apply H.
Qed.

Lemma register_ids_fresh rnd dto w :
  sessionIdsFresh w -> sessionIdsFresh (fst (register cfg rnd dto w)).
Proof.
  intros H. unfold register. destruct (List.find _ _) as [existing |].
  - destruct (String.eqb _ _); exact H.
  - cbn [fst]. apply createSession_ids_fresh. exact H.
Qed.

End Frames.

(** C10: a session created by [register], [login] or [refreshTokens]
    expires exactly seven days (604800000 ms) after the clock reading at
    its creation, and [createSession] gives the same result whatever
    configuration it runs under, [jwt.refreshExpiresIn] included. *)
Theorem session_expiry_is_seven_days `{Ext : Externals} (cfg : Config) :
  SEVEN_DAYS_MS = 604800000
  /\ (forall userId tok w,
        sessions (createSession cfg userId tok w)
        = sessions w ++ [{| session_id := nextId w; session_userId := userId;
                            session_token := tok;
                            session_expiresAt := clock w + SEVEN_DAYS_MS |}])
  /\ (forall cfg' userId tok w,
        createSession cfg' userId tok w = createSession cfg userId tok w)
  /\ (forall rnd dto w s,
        In s (sessions (fst (register cfg rnd dto w))) ->
        In s (sessions w) \/ session_expiresAt s = clock w + SEVEN_DAYS_MS)
  /\ (forall rnd dto ip w s,
        In s (sessions (fst (login cfg rnd dto ip w))) ->
        In s (sessions w) \/ session_expiresAt s = clock w + SEVEN_DAYS_MS)
  /\ (forall token w s,
        In s (sessions (fst (refreshTokens cfg token w))) ->
        In s (sessions w) \/ session_expiresAt s = clock w + SEVEN_DAYS_MS).
Proof.
  split; [reflexivity |]. split; [reflexivity |]. split; [reflexivity |].
  split; [apply register_sessions |]. split; [apply login_sessions |].
  apply refreshTokens_sessions.
Qed.

Lemma session_expiry_is_seven_days_witness :
  In {| session_id := 0; session_userId := "u1";
        session_token := "refresh-secret.u1.1000000";
        session_expiresAt := 605800000 |}
     (sessions (fst (@login toy_ext toy_cfg toy_rnd (good_login None) None (toy_world []))))
  /\ (In {| session_id := 0; session_userId := "u1";
            session_token := "refresh-secret.u1.1000000";
            session_expiresAt := 605800000 |} (sessions (toy_world []))
      \/ 605800000 = clock (toy_world []) + SEVEN_DAYS_MS).
Proof.
  assert (Hin : In {| session_id := 0; session_userId := "u1";
                      session_token := "refresh-secret.u1.1000000";
                      session_expiresAt := 605800000 |}
                   (sessions (fst (@login toy_ext toy_cfg toy_rnd (good_login None) None
                                     (toy_world [])))))
    by (vm_compute; left; reflexivity).
  split; [exact Hin |].
  exact (proj1 (proj2 (proj2 (proj2 (proj2 (@session_expiry_is_seven_days toy_ext toy_cfg)))))
           toy_rnd (good_login None) None (toy_world []) _ Hin).
Defined.

(** ** Credential check *)

Section Credentials.
Context `{Ext : Externals}.
Variable cfg : Config.

(** C8: a login whose identifier matches no user, or a user without
    account, and a login with an existing identifier and a wrong
    password end the same way: the same [UnauthorizedException] with the
    message "Invalid credentials", and the world changed by one failed
    [LoginAttempt] row and nothing else. *)
Theorem login_invalid_credentials_uniform
    (rnd1 rnd2 : Entropy) (dto1 dto2 : LoginDto) (ip1 ip2 : option string) (w1 w2 : World) :
  (findUserByIdentifier (identifier dto1) w1 = None
   \/ exists u, findUserByIdentifier (identifier dto1) w1 = Some u
                /\ findAccount (user_id u) w1 = None) ->
  (exists u a, findUserByIdentifier (identifier dto2) w2 = Some u
               /\ findAccount (user_id u) w2 = Some a
               /\ argon2_verify (passwordHash a) (password dto2) = false) ->
  login cfg rnd1 dto1 ip1 w1
  = (set_loginAttempts
       (loginAttempts w1 ++ [{| la_identifier := identifier dto1; la_ipAddress := ip1;
                                la_success := false |}]) w1,
     Throw (UnauthorizedException "Invalid credentials"))
  /\ login cfg rnd2 dto2 ip2 w2
     = (set_loginAttempts
          (loginAttempts w2 ++ [{| la_identifier := identifier dto2; la_ipAddress := ip2;
                                   la_success := false |}]) w2,
        Throw (UnauthorizedException "Invalid credentials"))
  /\ snd (login cfg rnd1 dto1 ip1 w1) = snd (login cfg rnd2 dto2 ip2 w2).
Proof.
  intros H1 (u2 & a2 & Hu2 & Ha2 & Hpw).
  assert (E1 : login cfg rnd1 dto1 ip1 w1
               = (logLoginAttempt (identifier dto1) ip1 false w1,
                  Throw (UnauthorizedException "Invalid credentials"))).
  { unfold login. destruct H1 as [-> | (u1 & -> & ->)]; reflexivity. }
  assert (E2 : login cfg rnd2 dto2 ip2 w2
               = (logLoginAttempt (identifier dto2) ip2 false w2,
                  Throw (UnauthorizedException "Invalid credentials"))).
  { unfold login. rewrite Hu2, Ha2, Hpw. reflexivity. }
  rewrite E1, E2. repeat split.
Qed.

End Credentials.

Lemma login_invalid_credentials_uniform_witness :
  snd (@login toy_ext toy_cfg toy_rnd
         {| identifier := "nobody@x.com"; password := "Secr3t!23"; twoFactorToken := None |}
         None (toy_world []))
  = snd (@login toy_ext toy_cfg toy_rnd bad_login (Some "10.0.0.7") (toy_world [])).
Proof.
  refine (proj2 (proj2 (@login_invalid_credentials_uniform toy_ext toy_cfg toy_rnd toy_rnd
            {| identifier := "nobody@x.com"; password := "Secr3t!23"; twoFactorToken := None |}
            bad_login None (Some "10.0.0.7") (toy_world []) (toy_world []) _ _))).
  - left. reflexivity.
  - exists alice, alice_account. repeat split.
Defined.

(** ** Second factor *)

Lemma find_map_same {A : Type} (p : A -> bool) (f : A -> A) (l : list A) :
  (forall x, p (f x) = p x) -> List.find p (map f l) = option_map f (List.find p l).
Proof.
  intros Hp. induction l as [| x l IH]; [reflexivity |].
  cbn [map List.find]. rewrite Hp. destruct (p x); [reflexivity | exact IH].
Qed.

Lemma find_all_false {A : Type} (p : A -> bool) (l : list A) :
  (forall x, In x l -> p x = false) -> List.find p l = None.
Proof.
  induction l as [| x l IH]; intros H; [reflexivity |].
  cbn [List.find]. rewrite (H x (or_introl eq_refl)). apply IH.
  intros y Hy. apply H. now right.
Qed.

Lemma TwoFactorType_eqb_eq (a b : TwoFactorType) : TwoFactorType_eqb a b = true <-> a = b.
Proof. destruct a, b; cbn; split; congruence. Qed.

(** The factor [login] picks among the user's rows is the row
    [findUnique] returns, when that row is enabled. *)
Lemma enabled_factor_found (uid : string) (ty : TwoFactorType) (l : list TwoFactorAuth)
    (r : TwoFactorAuth) :
  List.find (fun a => String.eqb (tfa_userId a) uid && TwoFactorType_eqb (tfa_type a) ty) l
  = Some r ->
  tfa_enabled r = true ->
  List.find (fun a => TwoFactorType_eqb (tfa_type a) ty && tfa_enabled a)
    (List.filter (fun a => String.eqb (tfa_userId a) uid) l) = Some r.
Proof.
  intros Hfind Hen. induction l as [| x l IH]; [discriminate Hfind |].
  cbn [List.find List.filter] in *.
  destruct (String.eqb (tfa_userId x) uid); cbn [andb] in *.
  - cbn [List.find]. destruct (TwoFactorType_eqb (tfa_type x) ty); cbn [andb].
    + injection Hfind as ->. now rewrite Hen.
    + now apply IH.
  - now apply IH.
Qed.

Lemma no_enabled_factor (uid : string) (ty : TwoFactorType) (l : list TwoFactorAuth) :
  (forall e, In e l -> tfa_userId e = uid -> tfa_type e = ty -> tfa_enabled e = false) ->
  List.find (fun a => TwoFactorType_eqb (tfa_type a) ty && tfa_enabled a)
    (List.filter (fun a => String.eqb (tfa_userId a) uid) l) = None.
Proof.
  intros H. apply find_all_false. intros x Hx. apply filter_In in Hx as [Hin Hu].
  apply String.eqb_eq in Hu.
  destruct (TwoFactorType_eqb (tfa_type x) ty) eqn:E; [| reflexivity].
  apply TwoFactorType_eqb_eq in E. cbn [andb]. now apply H.
Qed.

Section SecondFactor.
Context `{Ext : Externals}.
Variable cfg : Config.

Lemma verifyTOTP_enabled uid token w r secret :
  findTwoFactorAuth uid TOTP w = Some r -> tfa_enabled r = true ->
  decrypt (tfa_secret r) (twoFactor_encryptionKey cfg) = Ok secret ->
  verifyTOTP cfg uid token w = Ok (totp_verify secret token (clock w)).
Proof. intros Hr Hen Hdec. unfold verifyTOTP. now rewrite Hr, Hen, Hdec. Qed.

Lemma verifyRecoveryCode_none uid code w r :
  findTwoFactorAuth uid TOTP w = Some r ->
  (forall codes h, recoveryCodes r = Some codes -> In h codes ->
                   argon2_verify h code = false) ->
  verifyRecoveryCode uid code w = (w, false).
Proof.
  intros Hr Hno. unfold verifyRecoveryCode. rewrite Hr.
  destruct (negb (tfa_enabled r)); [reflexivity |].
  destruct (recoveryCodes r) as [codes |] eqn:Hc; [| reflexivity].
  rewrite find_all_false; [reflexivity |]. intros h Hh. now apply (Hno codes).
Qed.

Lemma verifyRecoveryCode_match uid code w r codes h :
  findTwoFactorAuth uid TOTP w = Some r -> tfa_enabled r = true ->
  recoveryCodes r = Some codes -> In h codes -> argon2_verify h code = true ->
  (forall h', In h' codes -> argon2_verify h' code = true -> h' = h) ->
  verifyRecoveryCode uid code w
  = (set_twoFactorAuths
       (map (fun a => if String.eqb (tfa_userId a) uid && TwoFactorType_eqb (tfa_type a) TOTP
                      then with_recoveryCodes
                             (List.filter (fun c => negb (String.eqb c h)) codes) a
                      else a) (twoFactorAuths w)) w, true).
Proof.
  intros Hr Hen Hc Hin Hv Huniq. unfold verifyRecoveryCode. rewrite Hr, Hen, Hc. cbn [negb].
  destruct (List.find _ codes) as [h0 |] eqn:Hf.
  - apply find_some in Hf as [Hin0 Hv0]. now rewrite (Huniq h0 Hin0 Hv0).
  - apply find_none with (x := h) in Hf; [congruence | exact Hin].
Qed.

(** With an enabled TOTP factor the e-mail factor plays no part in the
    check of a submitted token. *)
Lemma verifySecondFactor_ignores_email user r emailAuth token ip w :
  verifySecondFactor cfg user (Some r) emailAuth token ip w
  = verifySecondFactor cfg user (Some r) None token ip w.
Proof. reflexivity. Qed.

(** [login] past the credential check, for a user with an enabled TOTP
    factor and a token in the request. *)
Lemma login_totp_token rnd dto ip w u a r token :
  findUserByIdentifier (identifier dto) w = Some u ->
  findAccount (user_id u) w = Some a ->
  argon2_verify (passwordHash a) (password dto) = true ->
  findTwoFactorAuth (user_id u) TOTP w = Some r -> tfa_enabled r = true ->
  twoFactorToken dto = Some token -> token <> "" ->
  login cfg rnd dto ip w
  = match verifySecondFactor cfg u (Some r) None token ip w with
    | (w1, Throw e) => (w1, Throw e)
    | (w1, Ok _) => completeLogin cfg u a dto ip w1
    end.
Proof.
  intros Hu Ha Hpw Hr Hen Htok Hne. unfold login. rewrite Hu, Ha, Hpw. cbn [negb].
  rewrite (enabled_factor_found _ _ _ _ Hr Hen). rewrite Htok.
  assert (Ht : truthy (Some token) = true).
  { unfold truthy. now destruct (String.eqb_spec token ""). }
  change (default "" (Some token)) with token.
  rewrite Ht. cbn [present orb negb andb].
  rewrite verifySecondFactor_ignores_email.
  destruct (verifySecondFactor cfg u (Some r) None token ip w) as [w1 [[] | e]]; reflexivity.
Qed.

(** C3 (amended): with correct credentials, an enabled TOTP factor and
    no enabled e-mail factor, [login] without a token answers
    [{ requires2FA: true, method: "google" }] and leaves the world as it
    was (no token pair, no session); with a token that the time-step
    check accepts it returns the token pair and adds its session. *)
Theorem login_totp_challenge rnd dto ip w u a r :
  findUserByIdentifier (identifier dto) w = Some u ->
  findAccount (user_id u) w = Some a ->
  argon2_verify (passwordHash a) (password dto) = true ->
  findTwoFactorAuth (user_id u) TOTP w = Some r -> tfa_enabled r = true ->
  (forall e, In e (twoFactorAuths w) -> tfa_userId e = user_id u -> tfa_type e = EMAIL ->
             tfa_enabled e = false) ->
  (truthy (twoFactorToken dto) = false ->
   login cfg rnd dto ip w = (w, Ok (Requires2FA "google")))
  /\ (forall token secret,
        twoFactorToken dto = Some token -> token <> "" ->
        decrypt (tfa_secret r) (twoFactor_encryptionKey cfg) = Ok secret ->
        totp_verify secret token (clock w) = true ->
        exists w',
          login cfg rnd dto ip w = (w', Ok (LoggedIn u (generateTokens cfg u w)))
          /\ sessions w'
             = sessions w ++ [{| session_id := nextId w; session_userId := user_id u;
                                 session_token := refreshToken (generateTokens cfg u w);
                                 session_expiresAt := clock w + SEVEN_DAYS_MS |}]).
Proof.
  intros Hu Ha Hpw Hr Hen Hnoemail. split.
  - intros Hfalsy. unfold login. rewrite Hu, Ha, Hpw. cbn [negb].
    rewrite (enabled_factor_found _ _ _ _ Hr Hen).
    rewrite (no_enabled_factor _ _ _ Hnoemail), Hfalsy. reflexivity.
  - intros token secret Htok Hne Hdec Hcode.
    rewrite (login_totp_token rnd dto ip w u a r token) by assumption.
    unfold verifySecondFactor.
    rewrite (verifyTOTP_enabled _ _ _ _ _ Hr Hen Hdec), Hcode.
    eexists. split; reflexivity.
Qed.

End SecondFactor.

Lemma login_totp_challenge_witness :
  @login toy_ext toy_cfg toy_rnd (good_login None) None (toy_world [alice_totp []])
  = (toy_world [alice_totp []], Ok (Requires2FA "google"))
  /\ exists w',
       @login toy_ext toy_cfg toy_rnd (good_login (Some "JBSWY3DP33")) None
         (toy_world [alice_totp []])
       = (w', Ok (LoggedIn alice
                    (@generateTokens toy_ext toy_cfg alice (toy_world [alice_totp []]))))
       /\ length (sessions w') = 1%nat.
Proof.
  assert (Hno : forall e, In e (twoFactorAuths (toy_world [alice_totp []])) ->
                          tfa_userId e = user_id alice -> tfa_type e = EMAIL ->
                          tfa_enabled e = false).
  { intros e [<- | []] _ H. discriminate H. }
  split.
  - apply (proj1 (@login_totp_challenge toy_ext toy_cfg toy_rnd (good_login None) None
                    (toy_world [alice_totp []]) alice alice_account (alice_totp [])
                    eq_refl eq_refl eq_refl eq_refl eq_refl Hno)).
    reflexivity.
  - destruct (proj2 (@login_totp_challenge toy_ext toy_cfg toy_rnd
                       (good_login (Some "JBSWY3DP33")) None
                       (toy_world [alice_totp []]) alice alice_account (alice_totp [])
                       eq_refl eq_refl eq_refl eq_refl eq_refl Hno)
                    "JBSWY3DP33" "JBSWY3DP" eq_refl ltac:(discriminate) eq_refl eq_refl)
      as (w' & Hlogin & Hsess).
    exists w'. split; [exact Hlogin |]. rewrite Hsess. reflexivity.
Defined.

(** C3 as stated fails: the challenge names the method "google", not
    "totp". *)
Lemma login_totp_challenge_counterexample :
  @login toy_ext toy_cfg toy_rnd (good_login None) None (toy_world [alice_totp []])
  = (toy_world [alice_totp []], Ok (Requires2FA "google"))
  /\ snd (@login toy_ext toy_cfg toy_rnd (good_login None) None (toy_world [alice_totp []]))
     <> Ok (Requires2FA "totp").
Proof. split; [reflexivity | discriminate]. Qed.

Section FactorOrder.
Context `{Ext : Externals}.
Variable cfg : Config.

(** C2: when the TOTP factor is enabled, a token that is neither a
    valid TOTP code nor a recovery code is refused with "Invalid
    two-factor code" although an e-mail factor is enabled too:
    [verifyOTP] is not called, so the e-mail challenges and the Redis
    counters are as before. *)
Theorem login_totp_enabled_skips_email_otp rnd dto ip w u a r e secret token :
  findUserByIdentifier (identifier dto) w = Some u ->
  findAccount (user_id u) w = Some a ->
  argon2_verify (passwordHash a) (password dto) = true ->
  findTwoFactorAuth (user_id u) TOTP w = Some r -> tfa_enabled r = true ->
  findTwoFactorAuth (user_id u) EMAIL w = Some e -> tfa_enabled e = true ->
  twoFactorToken dto = Some token -> token <> "" ->
  decrypt (tfa_secret r) (twoFactor_encryptionKey cfg) = Ok secret ->
  totp_verify secret token (clock w) = false ->
  (forall codes h, recoveryCodes r = Some codes -> In h codes ->
                   argon2_verify h token = false) ->
  login cfg rnd dto ip w
  = (auditLog (user_id u) "2fa_verification_failed" (Some "google") false ip w,
     Throw (UnauthorizedException "Invalid two-factor code"))
  /\ emailOTPs (fst (login cfg rnd dto ip w)) = emailOTPs w
  /\ redis (fst (login cfg rnd dto ip w)) = redis w.
Proof.
  intros Hu Ha Hpw Hr Hen He Heen Htok Hne Hdec Hcode Hrec.
  assert (E : login cfg rnd dto ip w
              = (auditLog (user_id u) "2fa_verification_failed" (Some "google") false ip w,
                 Throw (UnauthorizedException "Invalid two-factor code"))).
  { rewrite (login_totp_token cfg rnd dto ip w u a r token) by assumption.
    unfold verifySecondFactor.
    rewrite (verifyTOTP_enabled cfg _ _ _ _ _ Hr Hen Hdec), Hcode.
    rewrite (verifyRecoveryCode_none _ _ _ _ Hr Hrec). reflexivity. }
  rewrite E. repeat split.
Qed.

(** A user without an enabled second factor and with the right password
    is logged in; no Redis key is read on the way. *)
Lemma login_without_factors rnd dto ip w u a :
  findUserByIdentifier (identifier dto) w = Some u ->
  findAccount (user_id u) w = Some a ->
  argon2_verify (passwordHash a) (password dto) = true ->
  (forall e, In e (twoFactorAuths w) -> tfa_userId e = user_id u -> tfa_enabled e = false) ->
  login cfg rnd dto ip w = completeLogin cfg u a dto ip w.
Proof.
  intros Hu Ha Hpw Hno. unfold login. rewrite Hu, Ha, Hpw. cbn [negb].
  rewrite !no_enabled_factor by (intros; now apply Hno).
  cbn [present orb andb]. rewrite andb_false_r. reflexivity.
Qed.

End FactorOrder.

Lemma login_totp_enabled_skips_email_otp_witness :
  snd (@verifyOTP toy_ext toy_cfg "u1" "123456" challenged_world) = Ok true
  /\ snd (@login toy_ext toy_cfg toy_rnd (good_login (Some "123456")) None challenged_world)
     = Throw (UnauthorizedException "Invalid two-factor code").
Proof.
  split; [reflexivity |].
  rewrite (proj1 (@login_totp_enabled_skips_email_otp toy_ext toy_cfg toy_rnd
                    (good_login (Some "123456")) None challenged_world
                    alice alice_account (alice_totp []) alice_email_factor
                    "JBSWY3DP" "123456"
                    eq_refl eq_refl eq_refl eq_refl eq_refl eq_refl eq_refl eq_refl
                    ltac:(discriminate) eq_refl eq_refl
                    ltac:(intros codes h [= <-] [])));
    reflexivity.
Defined.

(** C1: [login] neither records failures with the lockout tracker nor
    asks it.  After five [login] calls with a wrong password no lock is
    set and a sixth call with the right password is logged in; and with
    the lock set by five [recordFailedAttempt] calls, so that
    [checkLockout] throws until the 15 minutes have passed, [login] with
    the right password is logged in all the same. *)
Theorem login_ignores_lockout :
  checkLockout "a@x.com" (failedLogins 5 (toy_world [])) = Ok tt
  /\ length (loginAttempts (failedLogins 5 (toy_world []))) = 5%nat
  /\ snd (@login toy_ext toy_cfg toy_rnd (good_login None) None
            (failedLogins 5 (toy_world [])))
     = Ok (LoggedIn alice {| accessToken := "access-secret.u1.1000000";
                             refreshToken := "refresh-secret.u1.1000000" |})
  /\ checkLockout "a@x.com" (recordFailures 5 "a@x.com" (toy_world []))
     = Throw (Error "Account is temporarily locked. Try again in 15 minutes.")
  /\ checkLockout "a@x.com" (advance 900000 (recordFailures 5 "a@x.com" (toy_world [])))
     = Ok tt
  /\ snd (@login toy_ext toy_cfg toy_rnd (good_login None) None
            (recordFailures 5 "a@x.com" (toy_world [])))
     = Ok (LoggedIn alice {| accessToken := "access-secret.u1.1000000";
                             refreshToken := "refresh-secret.u1.1000000" |}).
Proof. repeat split; vm_compute; reflexivity. Qed.

Lemma find_some_exists {A : Type} (p : A -> bool) (l : list A) (x : A) :
  In x l -> p x = true -> exists y, List.find p l = Some y.
Proof.
  intros Hin Hp. destruct (List.find p l) as [y |] eqn:E; [now exists y |].
  apply find_none with (x := x) in E; [congruence | exact Hin].
Qed.

Section RecoveryCodes.
Context `{Ext : Externals}.
Variable cfg : Config.

(** A token that is neither a TOTP code nor a recovery code. *)
Lemma login_totp_token_rejected rnd dto ip w u a r secret token :
  findUserByIdentifier (identifier dto) w = Some u ->
  findAccount (user_id u) w = Some a ->
  argon2_verify (passwordHash a) (password dto) = true ->
  findTwoFactorAuth (user_id u) TOTP w = Some r -> tfa_enabled r = true ->
  twoFactorToken dto = Some token -> token <> "" ->
  decrypt (tfa_secret r) (twoFactor_encryptionKey cfg) = Ok secret ->
  totp_verify secret token (clock w) = false ->
  (forall codes h, recoveryCodes r = Some codes -> In h codes ->
                   argon2_verify h token = false) ->
  login cfg rnd dto ip w
  = (auditLog (user_id u) "2fa_verification_failed" (Some "google") false ip w,
     Throw (UnauthorizedException "Invalid two-factor code")).
Proof.
  intros Hu Ha Hpw Hr Hen Htok Hne Hdec Hcode Hrec.
  rewrite (login_totp_token cfg rnd dto ip w u a r token) by assumption.
  unfold verifySecondFactor.
  rewrite (verifyTOTP_enabled cfg _ _ _ _ _ Hr Hen Hdec), Hcode.
  rewrite (verifyRecoveryCode_none _ _ _ _ Hr Hrec). reflexivity.
Qed.

(** A recovery code, [h] being the first stored hash that answers to it:
    the login goes through and the world it leaves has the same user,
    the same password hash and the TOTP factor without [h]. *)
Lemma login_recovery_code rnd dto ip w u a r secret codes h code d :
  findUserByIdentifier (identifier dto) w = Some u ->
  findAccount (user_id u) w = Some a ->
  argon2_verify (passwordHash a) (password dto) = true ->
  findTwoFactorAuth (user_id u) TOTP w = Some r -> tfa_enabled r = true ->
  twoFactorToken dto = Some code -> code <> "" ->
  decrypt (tfa_secret r) (twoFactor_encryptionKey cfg) = Ok secret ->
  totp_verify secret code (clock w) = false ->
  recoveryCodes r = Some codes ->
  List.find (fun hashedCode => argon2_verify hashedCode code) codes = Some h ->
  exists w1 tokens a1,
    login cfg rnd dto ip w = (w1, Ok (LoggedIn u tokens))
    /\ findUserByIdentifier (identifier dto) (advance d w1) = Some u
    /\ findAccount (user_id u) (advance d w1) = Some a1
    /\ passwordHash a1 = passwordHash a
    /\ findTwoFactorAuth (user_id u) TOTP (advance d w1)
       = Some (with_recoveryCodes (List.filter (fun c => negb (String.eqb c h)) codes) r).
Proof.
  intros Hu Ha Hpw Hr Hen Htok Hne Hdec Hcode Hc Hfind.
  rewrite (login_totp_token cfg rnd dto ip w u a r code) by assumption.
  unfold verifySecondFactor.
  rewrite (verifyTOTP_enabled cfg _ _ _ _ _ Hr Hen Hdec), Hcode.
  unfold verifyRecoveryCode. rewrite Hr, Hen, Hc, Hfind. cbn [negb].
  set (upd := fun x : TwoFactorAuth =>
                if String.eqb (tfa_userId x) (user_id u) && TwoFactorType_eqb (tfa_type x) TOTP
                then with_recoveryCodes (List.filter (fun c => negb (String.eqb c h)) codes) x
                else x).
  unfold completeLogin. world_simpl.
  set (touch := fun x : Account =>
                  if String.eqb (account_id x) (account_id a)
                  then with_lastLoginAt (clock w) x else x).
  eexists _, _, (touch a). split; [reflexivity |]. world_simpl.
  split; [exact Hu |]. split; [| split].
  - unfold findAccount in *. world_simpl. fold touch.
    rewrite (find_map_same _ touch); [now rewrite Ha |].
    intros x. unfold touch.
    destruct (String.eqb (account_id x) (account_id a)); reflexivity.
  - unfold touch. destruct (String.eqb (account_id a) (account_id a)); reflexivity.
  - unfold findTwoFactorAuth in *. world_simpl.
    rewrite (find_map_same _ upd).
    + rewrite Hr. cbn [option_map]. unfold upd.
      apply find_some in Hr as [_ ->]. reflexivity.
    + intros x. unfold upd.
      destruct (String.eqb (tfa_userId x) (user_id u) && TwoFactorType_eqb (tfa_type x) TOTP)
        eqn:E; exact E.
Qed.

(** When one stored hash answers to the code, the code works once: for
    a user with an enabled TOTP factor and a stored
    recovery code that only one stored hash answers to and that is never
    a valid TOTP code, a first [login] with that code succeeds and
    leaves the stored set without that hash, and a second [login] with
    the same code, at any later time, fails with "Invalid two-factor
    code". *)
Theorem recovery_code_single_use rnd1 rnd2 dto ip1 ip2 w u a r secret codes h code d :
  findUserByIdentifier (identifier dto) w = Some u ->
  findAccount (user_id u) w = Some a ->
  argon2_verify (passwordHash a) (password dto) = true ->
  findTwoFactorAuth (user_id u) TOTP w = Some r -> tfa_enabled r = true ->
  twoFactorToken dto = Some code -> code <> "" ->
  decrypt (tfa_secret r) (twoFactor_encryptionKey cfg) = Ok secret ->
  (forall t, totp_verify secret code t = false) ->
  recoveryCodes r = Some codes -> In h codes -> argon2_verify h code = true ->
  (forall h', In h' codes -> argon2_verify h' code = true -> h' = h) ->
  exists w1 tokens r1,
    login cfg rnd1 dto ip1 w = (w1, Ok (LoggedIn u tokens))
    /\ findTwoFactorAuth (user_id u) TOTP w1 = Some r1
    /\ recoveryCodes r1 = Some (List.filter (fun c => negb (String.eqb c h)) codes)
    /\ ~ In h (List.filter (fun c => negb (String.eqb c h)) codes)
    /\ snd (login cfg rnd2 dto ip2 (advance d w1))
       = Throw (UnauthorizedException "Invalid two-factor code").
Proof.
  intros Hu Ha Hpw Hr Hen Htok Hne Hdec Hcode Hc Hin Hv Huniq.
  assert (Hfind : List.find (fun hashedCode => argon2_verify hashedCode code) codes = Some h).
  { destruct (find_some_exists (fun hashedCode => argon2_verify hashedCode code) codes h
                Hin Hv) as [h0 Hf].
    rewrite Hf.
    apply find_some in Hf as [Hin0 Hv0]. now rewrite (Huniq h0 Hin0 Hv0). }
  destruct (login_recovery_code rnd1 dto ip1 w u a r secret codes h code d
              Hu Ha Hpw Hr Hen Htok Hne Hdec (Hcode _) Hc Hfind)
    as (w1 & tokens & a1 & Hrun & Hu1 & Ha1 & Hpw1 & Hr1).
  exists w1, tokens, (with_recoveryCodes (List.filter (fun c => negb (String.eqb c h)) codes) r).
  split; [exact Hrun |]. split; [exact Hr1 |]. split; [reflexivity |]. split.
  { intros Hbad. apply filter_In in Hbad as [_ Hbad]. now rewrite String.eqb_refl in Hbad. }
  rewrite (login_totp_token_rejected rnd2 dto ip2 (advance d w1) u a1
             (with_recoveryCodes (List.filter (fun c => negb (String.eqb c h)) codes) r)
             secret code); [reflexivity | | | | | | | | | |];
    try assumption.
  - now rewrite Hpw1.
  - apply Hcode.
  - intros codes' h' [= <-] Hin'. apply filter_In in Hin' as [Hin' Hneq].
    destruct (argon2_verify h' code) eqn:Hv'; [| reflexivity].
    rewrite (Huniq h' Hin' Hv'), String.eqb_refl in Hneq. discriminate Hneq.
Qed.

(** C6: a recovery code is not always spent by its use.
    [verifyRecoveryCode] removes the stored entries equal to the first
    hash that answers to the code and no other; so for a user with an
    enabled TOTP factor among whose stored hashes two different ones
    answer to the same code (the code not being a valid TOTP code), a
    first [login] with that code succeeds and a second [login] with the
    same code, at any later time, succeeds again. *)
Theorem recovery_code_twin_hashes rnd1 rnd2 dto ip1 ip2 w u a r secret codes h1 h2 code d :
  findUserByIdentifier (identifier dto) w = Some u ->
  findAccount (user_id u) w = Some a ->
  argon2_verify (passwordHash a) (password dto) = true ->
  findTwoFactorAuth (user_id u) TOTP w = Some r -> tfa_enabled r = true ->
  twoFactorToken dto = Some code -> code <> "" ->
  decrypt (tfa_secret r) (twoFactor_encryptionKey cfg) = Ok secret ->
  (forall t, totp_verify secret code t = false) ->
  recoveryCodes r = Some codes ->
  List.find (fun hashedCode => argon2_verify hashedCode code) codes = Some h1 ->
  In h2 codes -> h2 <> h1 -> argon2_verify h2 code = true ->
  exists w1 w2 tokens1 tokens2,
    login cfg rnd1 dto ip1 w = (w1, Ok (LoggedIn u tokens1))
    /\ login cfg rnd2 dto ip2 (advance d w1) = (w2, Ok (LoggedIn u tokens2)).
Proof.
  intros Hu Ha Hpw Hr Hen Htok Hne Hdec Hcode Hc Hfind Hin2 Hne2 Hv2.
  destruct (login_recovery_code rnd1 dto ip1 w u a r secret codes h1 code d
              Hu Ha Hpw Hr Hen Htok Hne Hdec (Hcode _) Hc Hfind)
    as (w1 & tokens1 & a1 & Hrun & Hu1 & Ha1 & Hpw1 & Hr1).
  assert (Hin2' : In h2 (List.filter (fun c => negb (String.eqb c h1)) codes)).
  { apply filter_In. split; [exact Hin2 |]. apply negb_true_iff. now apply String.eqb_neq. }
  destruct (find_some_exists (fun hashedCode => argon2_verify hashedCode code) _ h2 Hin2' Hv2)
    as [h' Hfind'].
  rewrite <- Hpw1 in Hpw.
  destruct (login_recovery_code rnd2 dto ip2 (advance d w1) u a1 _ secret _ h' code 0
              Hu1 Ha1 Hpw Hr1 Hen Htok Hne Hdec (Hcode _) eq_refl Hfind')
    as (w2 & tokens2 & _ & Hrun2 & _).
  exists w1, w2, tokens1, tokens2. split; assumption.
Qed.

End RecoveryCodes.

Lemma recovery_code_twin_hashes_witness :
  exists w1 w2 tokens1 tokens2,
    @login toy_ext toy_cfg toy_rnd (good_login (Some "DEADBE00")) None twin_setup_world
    = (w1, Ok (LoggedIn alice tokens1))
    /\ @login toy_ext toy_cfg toy_rnd (good_login (Some "DEADBE00")) None (advance 60000 w1)
       = (w2, Ok (LoggedIn alice tokens2)).
Proof.
  apply (@recovery_code_twin_hashes toy_ext toy_cfg toy_rnd toy_rnd
           (good_login (Some "DEADBE00")) None None twin_setup_world
           alice alice_account
           (match findTwoFactorAuth "u1" TOTP twin_setup_world with
            | Some r => r
            | None => alice_totp []
            end)
           "JBSWY3DP"
           (map (fun i => toy_salt i ++ "$" ++ toUpperCase (to_hex (twin_draw i)))%string
              (seq 0 10))
           "s0$DEADBE00" "s3$DEADBE00" "DEADBE00" 60000);
    try (vm_compute; reflexivity).
  - discriminate.
  - vm_compute. tauto.
  - discriminate.
Defined.

Lemma recovery_code_single_use_witness :
  exists w1 tokens,
    @login toy_ext toy_cfg toy_rnd (good_login (Some "AB12CD34")) None
      (toy_world [alice_totp ["s1$AB12CD34"; "s2$ZZ99YY88"]])
    = (w1, Ok (LoggedIn alice tokens))
    /\ snd (@login toy_ext toy_cfg toy_rnd (good_login (Some "AB12CD34")) None
              (advance 60000 w1))
       = Throw (UnauthorizedException "Invalid two-factor code").
Proof.
  destruct (@recovery_code_single_use toy_ext toy_cfg toy_rnd toy_rnd
              (good_login (Some "AB12CD34")) None None
              (toy_world [alice_totp ["s1$AB12CD34"; "s2$ZZ99YY88"]])
              alice alice_account (alice_totp ["s1$AB12CD34"; "s2$ZZ99YY88"])
              "JBSWY3DP" ["s1$AB12CD34"; "s2$ZZ99YY88"] "s1$AB12CD34" "AB12CD34" 60000
              eq_refl eq_refl eq_refl eq_refl eq_refl eq_refl ltac:(discriminate) eq_refl
              ltac:(intros t; reflexivity) eq_refl ltac:(left; reflexivity) eq_refl
              ltac:(intros h' [<- | [<- | []]] Hv; [reflexivity | discriminate Hv]))
    as (w1 & tokens & r1 & Hfirst & _ & _ & _ & Hsecond).
  exists w1, tokens. split; assumption.
Defined.

(** When two stored hashes answer to the same code, the first [login]
    removes one of them and the second [login] with the same code
    succeeds again. *)
Lemma recovery_code_single_use_counterexample :
  exists w1 w2 tokens1 tokens2,
    @login toy_ext toy_cfg toy_rnd (good_login (Some "AB12CD34")) None twin_codes_world
    = (w1, Ok (LoggedIn alice tokens1))
    /\ @login toy_ext toy_cfg toy_rnd (good_login (Some "AB12CD34")) None (advance 60000 w1)
       = (w2, Ok (LoggedIn alice tokens2)).
Proof.
  eexists _, _, _, _. split; vm_compute; reflexivity.
Qed.

(** ** OtpService.verifyOTP *)

Lemma fold_left_newer_in (rest : list EmailOTP) :
  forall r, In (fold_left newer rest r) (r :: rest).
Proof.
  induction rest as [| x rest IH]; intros r; [now left |].
  cbn [fold_left]. destruct (IH (newer r x)) as [H | H].
  - rewrite <- H. unfold newer. destruct (_ <? _); [right; now left | now left].
  - right. now right.
Qed.

Lemma findLiveOTP_Some (uid : string) (w : World) (r : EmailOTP) :
  findLiveOTP uid w = Some r ->
  In r (emailOTPs w) /\ otp_userId r = uid /\ clock w < otp_expiresAt r.
Proof.
  unfold findLiveOTP.
  destruct (List.filter _ (emailOTPs w)) as [| x rest] eqn:E; [discriminate |].
  intros [= <-].
  pose proof (fold_left_newer_in rest x) as Hin. rewrite <- E in Hin.
  apply filter_In in Hin as [Hin Hp]. apply andb_true_iff in Hp as [Hu Ht].
  apply String.eqb_eq in Hu. apply Z.ltb_lt in Ht. auto.
Qed.

Lemma findLiveOTP_None (uid : string) (w : World) :
  findLiveOTP uid w = None
  <-> (forall r, In r (emailOTPs w) -> otp_userId r = uid -> otp_expiresAt r <= clock w).
Proof.
  unfold findLiveOTP. split.
  - destruct (List.filter _ (emailOTPs w)) as [| x rest] eqn:E; [| discriminate].
    intros _ r Hin Hu. destruct (Z.leb_spec (otp_expiresAt r) (clock w)) as [| Hlive]; [lia |].
    assert (Hf : In r (List.filter
                         (fun r => String.eqb (otp_userId r) uid && (clock w <? otp_expiresAt r))
                         (emailOTPs w))).
    { apply filter_In. split; [exact Hin |].
      apply andb_true_iff. split; [now apply String.eqb_eq | now apply Z.ltb_lt]. }
    rewrite E in Hf. destruct Hf.
  - intros H. destruct (List.filter _ (emailOTPs w)) as [| x rest] eqn:E; [reflexivity |].
    assert (Hx : In x (x :: rest)) by now left. rewrite <- E in Hx.
    apply filter_In in Hx as [Hin Hp]. apply andb_true_iff in Hp as [Hu Ht].
    apply String.eqb_eq in Hu. apply Z.ltb_lt in Ht. specialize (H x Hin Hu). lia.
Qed.

Section OtpVerification.
Context `{Ext : Externals}.
Variable cfg : Config.

(** The guard on the cached attempt counter. *)
Lemma attempts_guard (cached : option string) (cur : Z) :
  (cached = None /\ cur = 0) \/ cached = Some (toString (Num cur)) ->
  (if truthy cached then parseInt (default "" cached) else Num 0) = Num cur
  /\ (truthy cached && js_ge (parseInt (default "" cached)) (twoFactor_maxOTPAttempts cfg)
      = true -> twoFactor_maxOTPAttempts cfg <= cur)
  /\ (cached = Some (toString (Num cur)) ->
      truthy cached && js_ge (parseInt (default "" cached)) (twoFactor_maxOTPAttempts cfg)
      = (twoFactor_maxOTPAttempts cfg <=? cur)).
Proof.
  intros [[-> ->] | ->].
  - cbn. split; [reflexivity |]. split; [discriminate | discriminate].
  - rewrite toString_truthy. change (default "" (Some ?s)) with s.
    rewrite parseInt_toString. cbn [js_ge andb].
    split; [reflexivity |]. split; [apply Z.leb_le | reflexivity].
Qed.

(** C5: [verifyOTP] throws "Too many verification attempts..." and
    leaves the world as it is when the cached counter has reached
    [maxOTPAttempts]; below the maximum (or with no counter cached) it
    throws "OTP expired or not found" when no live challenge exists;
    with a live challenge it stores attempts + 1 in it and compares the
    hash: on mismatch it throws "Invalid OTP" with the cached counter set
    to one more, on match it deletes the challenge and both the attempt
    and the resend counter and returns true. *)
Theorem verifyOTP_spec (userId otp : string) (w : World) :
  (forall n,
     redis_get ("otp:attempts:" +:+ userId) w = Some (toString (Num n)) ->
     twoFactor_maxOTPAttempts cfg <= n ->
     verifyOTP cfg userId otp w
     = (w, Throw (UnauthorizedException
                    "Too many verification attempts. Please request a new OTP.")))
  /\ (forall cur,
        (redis_get ("otp:attempts:" +:+ userId) w = None /\ cur = 0)
        \/ (redis_get ("otp:attempts:" +:+ userId) w = Some (toString (Num cur))
            /\ cur < twoFactor_maxOTPAttempts cfg) ->
        ((forall r, In r (emailOTPs w) -> otp_userId r = userId ->
                    otp_expiresAt r <= clock w) ->
         verifyOTP cfg userId otp w
         = (w, Throw (BadRequestException "OTP expired or not found")))
        /\ (forall r,
              findLiveOTP userId w = Some r ->
              (argon2_verify (otpHash r) otp = false ->
               exists w',
                 verifyOTP cfg userId otp w = (w', Throw (UnauthorizedException "Invalid OTP"))
                 /\ In (with_attempts (otp_attempts r + 1) r) (emailOTPs w')
                 /\ redis w' !! ("otp:attempts:" +:+ userId)
                    = Some (toString (Num (cur + 1)),
                            clock w + twoFactor_lockoutMinutes cfg * 60 * 1000))
              /\ (argon2_verify (otpHash r) otp = true ->
                  exists w',
                    verifyOTP cfg userId otp w = (w', Ok true)
                    /\ (forall x, In x (emailOTPs w') -> otp_id x <> otp_id r)
                    /\ redis w' !! ("otp:attempts:" +:+ userId) = None
                    /\ redis w' !! ("otp:resend:" +:+ userId) = None))).
Proof.
  split.
  - intros n Hget Hmax. unfold verifyOTP.
    change ("otp:attempts:" ++ userId)%string with ("otp:attempts:" +:+ userId).
    destruct (attempts_guard _ n (or_intror Hget)) as (_ & _ & Hg).
    rewrite (Hg Hget). now apply Z.leb_le in Hmax as ->.
  - intros cur Hcur.
    assert (Hcached : (redis_get ("otp:attempts:" +:+ userId) w = None /\ cur = 0)
                      \/ redis_get ("otp:attempts:" +:+ userId) w = Some (toString (Num cur)))
      by tauto.
    destruct (attempts_guard _ cur Hcached) as (Hval & Hlim & Hg).
    assert (Hopen : truthy (redis_get ("otp:attempts:" +:+ userId) w)
                    && js_ge (parseInt (default "" (redis_get ("otp:attempts:" +:+ userId) w)))
                         (twoFactor_maxOTPAttempts cfg) = false).
    { destruct Hcur as [[Hn _] | [Hs Hlt]].
      - rewrite Hn. reflexivity.
      - rewrite (Hg Hs). apply Z.leb_gt. exact Hlt. }
    split.
    + intros Hnone. unfold verifyOTP.
      change ("otp:attempts:" ++ userId)%string with ("otp:attempts:" +:+ userId).
      rewrite Hopen. now apply findLiveOTP_None in Hnone as ->.
    + intros r Hlive. destruct (findLiveOTP_Some _ _ _ Hlive) as (Hin & _ & _). split.
      * intros Hbad. unfold verifyOTP.
        change ("otp:attempts:" ++ userId)%string with ("otp:attempts:" +:+ userId).
        rewrite Hopen, Hlive, Hbad, Hval. cbn [negb].
        eexists. split; [reflexivity |]. split.
        -- world_simpl. unfold redis_set. world_simpl.
           apply in_map_iff. exists r. now rewrite Nat.eqb_refl.
        -- unfold redis_set. world_simpl. rewrite lookup_insert_eq.
           cbn [js_succ]. repeat f_equal; lia.
      * intros Hgood. unfold verifyOTP.
        change ("otp:attempts:" ++ userId)%string with ("otp:attempts:" +:+ userId).
        change ("otp:resend:" ++ userId)%string with ("otp:resend:" +:+ userId).
        rewrite Hopen, Hlive, Hgood. cbn [negb].
        eexists. split; [reflexivity |]. unfold redis_del. world_simpl.
        split; [| split].
        -- intros x Hx. apply filter_In in Hx as [_ Hx].
           intros E. rewrite E, Nat.eqb_refl in Hx. discriminate Hx.
        -- destruct (decide ("otp:resend:" +:+ userId = "otp:attempts:" +:+ userId)) as [E |].
           ++ rewrite E. apply lookup_delete_eq.
           ++ rewrite lookup_delete_ne by assumption. apply lookup_delete_eq.
        -- apply lookup_delete_eq.
Qed.

End OtpVerification.

Lemma verifyOTP_spec_witness :
  (exists w',
     @verifyOTP toy_ext toy_cfg "u1" "000000" challenged_world
     = (w', Throw (UnauthorizedException "Invalid OTP"))
     /\ redis w' !! ("otp:attempts:" +:+ "u1") = Some ("1", 1900000))
  /\ (exists w',
        @verifyOTP toy_ext toy_cfg "u1" "123456" challenged_world = (w', Ok true)
        /\ redis w' !! ("otp:resend:" +:+ "u1") = None).
Proof.
  pose proof (@verifyOTP_spec toy_ext toy_cfg "u1" "000000" challenged_world) as [_ Hbad].
  pose proof (@verifyOTP_spec toy_ext toy_cfg "u1" "123456" challenged_world) as [_ Hgood].
  specialize (Hbad 0 (or_introl (conj eq_refl eq_refl))) as [_ Hbad].
  specialize (Hgood 0 (or_introl (conj eq_refl eq_refl))) as [_ Hgood].
  split.
  - destruct (proj1 (Hbad _ eq_refl) eq_refl) as (w' & Hrun & _ & Hredis).
    exists w'. split; [exact Hrun | exact Hredis].
  - destruct (proj2 (Hgood _ eq_refl) eq_refl) as (w' & Hrun & _ & _ & Hredis).
    exists w'. split; [exact Hrun | exact Hredis].
Defined.

(** ** AuthService.refreshTokens *)

Lemma filter_all_false {A : Type} (p : A -> bool) (l : list A) :
  (forall x, In x l -> p x = false) -> List.filter p l = [].
Proof.
  induction l as [| x l IH]; intros H; [reflexivity |].
  cbn [List.filter]. rewrite (H x (or_introl eq_refl)). apply IH.
  intros y Hy. apply H. now right.
Qed.

Section Refresh.
Context `{Ext : Externals}.
Variable cfg : Config.

Lemma refreshTokens_only_one_error token w e :
  snd (refreshTokens cfg token w) = Throw e ->
  e = UnauthorizedException "Invalid refresh token" /\ fst (refreshTokens cfg token w) = w.
Proof.
  unfold refreshTokens, refreshTokens_try.
  destruct (jwt_verify _ _ _) as [payload |]; [| cbn; intros [= <-]; auto].
  destruct (List.find _ (sessions w)) as [session |]; [| cbn; intros [= <-]; auto].
  destruct (List.find _ (users w)) as [user |]; [| cbn; intros [= <-]; auto].
  cbn. discriminate.
Qed.

Lemma refreshTokens_no_session token w :
  (forall x, In x (sessions w) -> session_token x <> token
                                  \/ session_expiresAt x <= clock w) ->
  refreshTokens cfg token w = (w, Throw (UnauthorizedException "Invalid refresh token")).
Proof.
  intros Hno. unfold refreshTokens, refreshTokens_try.
  destruct (jwt_verify _ _ _) as [payload |]; [| reflexivity].
  rewrite find_all_false; [reflexivity |].
  intros x Hx. destruct (Hno x Hx) as [Ht | Hexp].
  - destruct (String.eqb_spec (session_token x) token); [contradiction | reflexivity].
  - apply Z.ltb_ge in Hexp. rewrite Hexp. now rewrite andb_false_r.
Qed.

(** When the issuer hands out the presented token again, the row that
    replaces the deleted one holds it. *)
Lemma refreshTokens_same_token token w payload s user :
  jwt_verify token (jwt_refreshSecret cfg) (clock w) = Some payload ->
  List.find (fun x => String.eqb (session_token x) token
                      && String.eqb (session_userId x) (sub payload)
                      && (clock w <? session_expiresAt x)) (sessions w) = Some s ->
  List.find (fun u => String.eqb (user_id u) (sub payload)) (users w) = Some user ->
  refreshToken (generateTokens cfg user w) = token ->
  snd (refreshTokens cfg token w) = Ok (generateTokens cfg user w)
  /\ In {| session_id := nextId w; session_userId := user_id user;
           session_token := token; session_expiresAt := clock w + SEVEN_DAYS_MS |}
        (sessions (fst (refreshTokens cfg token w))).
Proof.
  intros Hjwt Hs Hu Hsame. unfold refreshTokens, refreshTokens_try.
  rewrite Hjwt, Hs, Hu. cbn [fst snd]. split; [reflexivity |].
  rewrite Hsame. world_simpl. apply in_or_app. right. now left.
Qed.

(** Rotation when the token issued is new and the store has one row per
    token: when the refresh token issued is held by no row of
    the store, a successful [refreshTokens] returns the new token pair,
    deletes the session row of the presented token, so that no row holds
    that token any more and presenting it again fails, and leaves
    exactly one row holding the new refresh token; [refreshTokens] fails
    with "Invalid refresh token", changing nothing, when the token does
    not verify or no live session row holds it, and it throws no other
    exception.  The store is taken with its keys: no two rows share a
    token, every row's id is below the next id ([sessionIdsFresh]). *)
Theorem refreshTokens_rotates (token : string) (w : World) :
  (forall payload s user d,
     jwt_verify token (jwt_refreshSecret cfg) (clock w) = Some payload ->
     In s (sessions w) -> session_token s = token ->
     session_userId s = sub payload -> clock w < session_expiresAt s ->
     List.find (fun u => String.eqb (user_id u) (sub payload)) (users w) = Some user ->
     (forall x y, In x (sessions w) -> In y (sessions w) ->
                  session_token x = session_token y -> session_id x = session_id y) ->
     sessionIdsFresh w ->
     (forall x, In x (sessions w) ->
                session_token x <> refreshToken (generateTokens cfg user w)) ->
     exists w',
       refreshTokens cfg token w = (w', Ok (generateTokens cfg user w))
       /\ (forall x, In x (sessions w') -> session_id x <> session_id s)
       /\ (forall x, In x (sessions w') -> session_token x <> token)
       /\ List.filter (fun x => String.eqb (session_token x)
                                  (refreshToken (generateTokens cfg user w))) (sessions w')
          = [{| session_id := nextId w; session_userId := user_id user;
                session_token := refreshToken (generateTokens cfg user w);
                session_expiresAt := clock w + SEVEN_DAYS_MS |}]
       /\ refreshTokens cfg token (advance d w')
          = (advance d w', Throw (UnauthorizedException "Invalid refresh token")))
  /\ (jwt_verify token (jwt_refreshSecret cfg) (clock w) = None ->
      refreshTokens cfg token w
      = (w, Throw (UnauthorizedException "Invalid refresh token")))
  /\ ((forall x, In x (sessions w) -> session_token x <> token
                                      \/ session_expiresAt x <= clock w) ->
      refreshTokens cfg token w
      = (w, Throw (UnauthorizedException "Invalid refresh token")))
  /\ (forall e, snd (refreshTokens cfg token w) = Throw e ->
                e = UnauthorizedException "Invalid refresh token"
                /\ fst (refreshTokens cfg token w) = w).
Proof.
  split; [| split; [| split]].
  - intros payload s user d Hjwt Hin Htok Huid Hlive Huser Huniq Hids Hfresh.
    assert (Hfound : exists s0,
               List.find (fun x => String.eqb (session_token x) token
                                   && String.eqb (session_userId x) (sub payload)
                                   && (clock w <? session_expiresAt x)) (sessions w) = Some s0
               /\ session_id s0 = session_id s).
    { destruct (List.find _ (sessions w)) as [s0 |] eqn:Hf.
      - exists s0. split; [reflexivity |].
        apply find_some in Hf as [Hin0 Hp].
        apply andb_true_iff in Hp as [Hp _]. apply andb_true_iff in Hp as [Hp _].
        apply String.eqb_eq in Hp. apply Huniq; congruence.
      - apply find_none with (x := s) in Hf; [| exact Hin].
        rewrite Htok, Huid, !String.eqb_refl in Hf.
        apply Z.ltb_lt in Hlive. rewrite Hlive in Hf. discriminate Hf. }
    destruct Hfound as (s0 & Hfind & Hid0).
    set (newtok := refreshToken (generateTokens cfg user w)) in *.
    assert (Hrun : refreshTokens cfg token w
                   = (createSession cfg (user_id user) newtok
                        (set_sessions
                           (List.filter (fun x => negb (Nat.eqb (session_id x) (session_id s0)))
                              (sessions w)) w),
                      Ok (generateTokens cfg user w))).
    { unfold refreshTokens, refreshTokens_try. rewrite Hjwt, Hfind, Huser. reflexivity. }
    eexists. split; [exact Hrun |]. world_simpl.
    assert (Hold : forall x,
               In x (List.filter (fun x => negb (Nat.eqb (session_id x) (session_id s0)))
                       (sessions w) ++
                     [{| session_id := nextId w; session_userId := user_id user;
                         session_token := newtok;
                         session_expiresAt := clock w + SEVEN_DAYS_MS |}]) ->
               session_id x <> session_id s /\ session_token x <> token).
    { intros x Hx. apply in_app_or in Hx as [Hx | [<- | []]].
      - apply filter_In in Hx as [Hx Hne].
        apply negb_true_iff, Nat.eqb_neq in Hne. split; [congruence |].
        intros E. apply Hne. rewrite Hid0. apply Huniq; congruence.
      - cbn [session_id session_token]. split.
        + specialize (Hids s Hin). lia.
        + intros E. apply (Hfresh s Hin). fold newtok. congruence. }
    split; [intros x Hx; apply (Hold x Hx) |].
    split; [intros x Hx; apply (Hold x Hx) |].
    split.
    + rewrite List.filter_app. rewrite filter_all_false.
      * cbn [List.filter session_token]. now rewrite String.eqb_refl.
      * intros x Hx. apply filter_In in Hx as [Hx _].
        apply String.eqb_neq. now apply Hfresh.
    + apply refreshTokens_no_session. world_simpl.
      intros x Hx. left. apply (Hold x Hx).
  - intros Hjwt. unfold refreshTokens, refreshTokens_try. now rewrite Hjwt.
  - apply refreshTokens_no_session.
  - apply refreshTokens_only_one_error.
Qed.

(** C4: [refreshTokens] does not always retire the token presented.
    When the token pair it issues holds the presented refresh token
    again, as within the time step that token was issued in, or when
    another live session row of the same user holds the presented
    token, as after two logins within one time step, the refresh
    succeeds, a live session row still holds the presented token
    afterwards, and presenting that token again succeeds. *)
Theorem refreshTokens_replay (token : string) (w : World) (payload : JwtPayload)
    (s : Session) (user : User) :
  jwt_verify token (jwt_refreshSecret cfg) (clock w) = Some payload ->
  List.find (fun x => String.eqb (session_token x) token
                      && String.eqb (session_userId x) (sub payload)
                      && (clock w <? session_expiresAt x)) (sessions w) = Some s ->
  List.find (fun u => String.eqb (user_id u) (sub payload)) (users w) = Some user ->
  refreshToken (generateTokens cfg user w) = token
  \/ (exists s', In s' (sessions w) /\ session_id s' <> session_id s
                  /\ session_token s' = token /\ session_userId s' = sub payload
                  /\ clock w < session_expiresAt s') ->
  exists w',
    refreshTokens cfg token w = (w', Ok (generateTokens cfg user w))
    /\ (exists x, In x (sessions w') /\ session_token x = token
                   /\ session_userId x = sub payload /\ clock w' < session_expiresAt x)
    /\ snd (refreshTokens cfg token w') = Ok (generateTokens cfg user w).
Proof.
  intros Hjwt Hs Hu Hcase.
  assert (Hrun : refreshTokens cfg token w
                 = (createSession cfg (user_id user) (refreshToken (generateTokens cfg user w))
                      (set_sessions
                         (List.filter (fun x => negb (Nat.eqb (session_id x) (session_id s)))
                            (sessions w)) w),
                    Ok (generateTokens cfg user w))).
  { unfold refreshTokens, refreshTokens_try. now rewrite Hjwt, Hs, Hu. }
  eexists. split; [exact Hrun |].
  assert (Hid : user_id user = sub payload).
  { apply find_some in Hu as [_ Hu]. now apply String.eqb_eq in Hu. }
  assert (Hrow : exists x,
             In x (sessions (createSession cfg (user_id user)
                               (refreshToken (generateTokens cfg user w))
                               (set_sessions
                                  (List.filter
                                     (fun x => negb (Nat.eqb (session_id x) (session_id s)))
                                     (sessions w)) w)))
             /\ session_token x = token /\ session_userId x = sub payload
             /\ clock w < session_expiresAt x).
  { destruct Hcase as [Hsame | (s' & Hin & Hne & Htok & Huid & Hlive)].
    - eexists. split; [world_simpl; apply in_or_app; right; left; reflexivity |].
      cbn [session_token session_userId session_expiresAt].
      split; [exact Hsame |]. split; [exact Hid |]. unfold SEVEN_DAYS_MS. lia.
    - exists s'. split; [| auto]. world_simpl. apply in_or_app. left.
      apply filter_In. split; [exact Hin |].
      apply negb_true_iff, Nat.eqb_neq. exact Hne. }
  split; [exact Hrow |].
  destruct Hrow as (x & Hin & Htok & Huid & Hlive).
  unfold refreshTokens, refreshTokens_try.
  change (clock (createSession cfg (user_id user) (refreshToken (generateTokens cfg user w))
                   (set_sessions
                      (List.filter (fun x => negb (Nat.eqb (session_id x) (session_id s)))
                         (sessions w)) w))) with (clock w).
  change (users (createSession cfg (user_id user) (refreshToken (generateTokens cfg user w))
                   (set_sessions
                      (List.filter (fun x => negb (Nat.eqb (session_id x) (session_id s)))
                         (sessions w)) w))) with (users w).
  rewrite Hjwt.
  destruct (find_some_exists
              (fun x => String.eqb (session_token x) token
                        && String.eqb (session_userId x) (sub payload)
                        && (clock w <? session_expiresAt x)) _ x Hin) as [s1 ->].
  - rewrite Htok, Huid, !String.eqb_refl. now apply Z.ltb_lt.
  - rewrite Hu. reflexivity.
Qed.

End Refresh.

Lemma refreshTokens_replay_witness :
  exists w',
    @refreshTokens toy_ext toy_cfg "refresh-secret.u1.1000000" double_login_world
    = (w', Ok {| accessToken := "access-secret.u1.1001000";
                 refreshToken := "refresh-secret.u1.1001000" |})
    /\ snd (@refreshTokens toy_ext toy_cfg "refresh-secret.u1.1000000" w')
       = Ok {| accessToken := "access-secret.u1.1001000";
               refreshToken := "refresh-secret.u1.1001000" |}.
Proof.
  destruct (@refreshTokens_replay toy_ext toy_cfg "refresh-secret.u1.1000000"
              double_login_world
              {| sub := "u1"; jp_email := ""; jp_username := ""; jp_role := USER |}
              {| session_id := 0; session_userId := "u1";
                 session_token := "refresh-secret.u1.1000000";
                 session_expiresAt := 605800000 |}
              alice eq_refl eq_refl eq_refl
              ltac:(right;
                    exists {| session_id := 1; session_userId := "u1";
                              session_token := "refresh-secret.u1.1000000";
                              session_expiresAt := 605800000 |};
                    split; [right; left; reflexivity |];
                    split; [discriminate |];
                    split; [reflexivity |]; split; [reflexivity |];
                    vm_compute; reflexivity))
    as (w' & Hrun & _ & Hreplay).
  exists w'. split; [exact Hrun | exact Hreplay].
Defined.

Lemma refreshTokens_rotates_witness :
  exists w',
    @refreshTokens toy_ext toy_cfg "refresh-secret.u1.1000000" logged_in_world
    = (w', Ok {| accessToken := "access-secret.u1.1001000";
                 refreshToken := "refresh-secret.u1.1001000" |})
    /\ @refreshTokens toy_ext toy_cfg "refresh-secret.u1.1000000" (advance 5 w')
       = (advance 5 w', Throw (UnauthorizedException "Invalid refresh token")).
Proof.
  destruct (proj1 (@refreshTokens_rotates toy_ext toy_cfg "refresh-secret.u1.1000000"
                     logged_in_world)
              {| sub := "u1"; jp_email := ""; jp_username := ""; jp_role := USER |}
              {| session_id := 0; session_userId := "u1";
                 session_token := "refresh-secret.u1.1000000";
                 session_expiresAt := 605800000 |}
              alice 5 eq_refl ltac:(left; reflexivity) eq_refl eq_refl eq_refl eq_refl
              ltac:(intros x y [<- | []] [<- | []] _; reflexivity)
              ltac:(intros x [<- | []]; vm_compute; lia)
              ltac:(intros x [<- | []]; vm_compute; discriminate))
    as (w' & Hrun & _ & _ & _ & Hreplay).
  exists w'. split; [exact Hrun | exact Hreplay].
Defined.

(** A refresh at the instant the presented token was issued at returns
    that token again, the row created for it replaces the deleted one,
    and the presented token is accepted a second time. *)
Lemma refreshTokens_rotates_counterexample :
  exists w1 w2 tokens,
    @refreshTokens toy_ext toy_cfg "refresh-secret.u1.1000000" fresh_login_world
    = (w1, Ok tokens)
    /\ refreshToken tokens = "refresh-secret.u1.1000000"
    /\ map session_token (sessions w1) = ["refresh-secret.u1.1000000"]
    /\ @refreshTokens toy_ext toy_cfg "refresh-secret.u1.1000000" w1 = (w2, Ok tokens).
Proof.
  eexists _, _, _. split; [vm_compute; reflexivity |].
  split; [reflexivity |]. split; vm_compute; reflexivity.
Qed.

(** * Further properties of the services *)

(** ** Keys and hexadecimal text *)

Lemma append_inj_l (p a b : string) : p +:+ a = p +:+ b -> a = b.
Proof.
  induction p as [| c p IH]; [now rewrite !append_nil_l |].
  rewrite !append_cons. intros [= H]. now apply IH.
Qed.

Lemma key_user_locked (a b : string) : "lockout:user:" +:+ a <> "lockout:locked:" +:+ b.
Proof. intros H. cbv in H. discriminate H. Qed.

Lemma key_ip_locked (a b : string) : "lockout:ip:" +:+ a <> "lockout:locked:" +:+ b.
Proof. intros H. cbv in H. discriminate H. Qed.

Lemma key_ip_user (a b : string) : "lockout:ip:" +:+ a <> "lockout:user:" +:+ b.
Proof. intros H. cbv in H. discriminate H. Qed.

Lemma to_hex_length (b : Buffer) : String.length (to_hex b) = (2 * length b)%nat.
Proof. induction b as [| x b IH]; [reflexivity |]. cbn [to_hex String.length length]. lia. Qed.

Lemma upper_hex_pair (x : byte) (rest : string) :
  toUpperCase (String (hex_digit (Byte.to_N x / 16))
                 (String (hex_digit (Byte.to_N x mod 16)) rest))
  = String (upper_ascii (hex_digit (Byte.to_N x / 16)))
      (String (upper_ascii (hex_digit (Byte.to_N x mod 16))) (toUpperCase rest)).
Proof. reflexivity. Qed.

Lemma upper_hex_pair_decodes (x : byte) (rest : string) :
  from_hex (String (upper_ascii (hex_digit (Byte.to_N x / 16)))
              (String (upper_ascii (hex_digit (Byte.to_N x mod 16))) rest))
  = x :: from_hex rest
  /\ is_upper_hex (upper_ascii (hex_digit (Byte.to_N x / 16))) = true
  /\ is_upper_hex (upper_ascii (hex_digit (Byte.to_N x mod 16))) = true.
Proof. destruct x; repeat split. Qed.

Lemma from_hex_upper (b : Buffer) : from_hex (toUpperCase (to_hex b)) = b.
Proof.
  induction b as [| x b IH]; [reflexivity |].
  cbn [to_hex]. rewrite upper_hex_pair.
  rewrite (proj1 (upper_hex_pair_decodes x _)). now rewrite IH.
Qed.

Lemma upper_hex_chars (b : Buffer) : all_chars is_upper_hex (toUpperCase (to_hex b)) = true.
Proof.
  induction b as [| x b IH]; [reflexivity |].
  cbn [to_hex]. rewrite upper_hex_pair. cbn [all_chars].
  destruct (upper_hex_pair_decodes x "") as (_ & -> & ->). exact IH.
Qed.

Lemma toUpperCase_length (s : string) : String.length (toUpperCase s) = String.length s.
Proof. induction s as [| c s IH]; [reflexivity |]. cbn. now rewrite IH. Qed.

(** X1: the key [generateEncryptionKey] returns is 64 characters long,
    and [encrypt] under it seals with exactly the 32 bytes drawn. *)
Theorem generateEncryptionKey_is_key `{Gcm : AesGcm} (bytes iv : Buffer) (text : string) :
  length bytes = 32%nat ->
  String.length (generateEncryptionKey bytes) = 64%nat
  /\ from_hex (generateEncryptionKey bytes) = bytes
  /\ encrypt iv text (generateEncryptionKey bytes)
     = match gcm_seal bytes iv (utf8_encode text) with
       | None => Throw CryptoError
       | Some (ciphertext, authTag) =>
           Ok (to_hex iv +:+ ":" +:+ to_hex authTag +:+ ":" +:+ to_hex ciphertext)
       end.
Proof.
  intros Hlen. unfold generateEncryptionKey. split; [| split].
  - rewrite to_hex_length, Hlen. reflexivity.
  - apply from_hex_to_hex.
  - unfold encrypt. rewrite from_hex_to_hex. reflexivity.
Qed.

Lemma generateEncryptionKey_is_key_witness :
  from_hex (generateEncryptionKey (from_hex toy_key)) = from_hex toy_key.
Proof.
  exact (proj1 (proj2 (@generateEncryptionKey_is_key toy_gcm (from_hex toy_key) toy_iv ""
                         eq_refl))).
Defined.

(** X2: [decrypt] refuses, with "Invalid encrypted text format" and
    whatever the key, every text that has fewer than three fields
    between colons or an empty one among the first three. *)
Theorem decrypt_rejects_malformed `{Gcm : AesGcm} (env key : string) :
  (length (split ":" env) < 3)%nat
  \/ nth_error (split ":" env) 0 = Some ""
  \/ nth_error (split ":" env) 1 = Some ""
  \/ nth_error (split ":" env) 2 = Some "" ->
  decrypt env key = Throw (Error "Invalid encrypted text format").
Proof.
  intros H. unfold decrypt.
  destruct (split ":" env) as [| f0 [| f1 [| f2 rest]]]; cbn [nth_error truthy negb orb];
    try reflexivity.
  - now rewrite orb_true_r.
  - now rewrite orb_true_r.
  - cbn [length nth_error] in H.
    destruct H as [H | [[= ->] | [[= ->] | [= ->]]]]; [lia | | |]; cbn;
      rewrite ?orb_true_r; reflexivity.
Qed.

Lemma decrypt_rejects_malformed_witness :
  @decrypt toy_gcm "email" toy_key = Throw (Error "Invalid encrypted text format").
Proof.
  apply (@decrypt_rejects_malformed toy_gcm "email" toy_key). left. cbn. lia.
Defined.

(** X3: the codes of [generateRecoveryCodes] are [count] strings of
    eight characters out of 0-9 and A-F, and two of them are equal only
    when the random source returned the same four bytes twice. *)
Theorem generateRecoveryCodes_format (draw : nat -> Buffer) (count : nat) :
  (forall i, length (draw i) = 4%nat) ->
  length (generateRecoveryCodes draw count) = count
  /\ (forall code, In code (generateRecoveryCodes draw count) ->
                   String.length code = 8%nat /\ all_chars is_upper_hex code = true)
  /\ (forall i j, (i < count)%nat -> (j < count)%nat ->
                  nth_error (generateRecoveryCodes draw count) i
                  = nth_error (generateRecoveryCodes draw count) j ->
                  draw i = draw j).
Proof.
  intros Hdraw. unfold generateRecoveryCodes. split; [| split].
  - now rewrite length_map, length_seq.
  - intros code Hin. apply in_map_iff in Hin as (i & <- & _). split.
    + rewrite toUpperCase_length, to_hex_length, Hdraw. reflexivity.
    + apply upper_hex_chars.
  - intros i j Hi Hj. rewrite !nth_error_map, !nth_error_seq.
    destruct (Nat.ltb_spec i count) as [_ |]; [| lia].
    destruct (Nat.ltb_spec j count) as [_ |]; [| lia].
    cbn. intros [= Heq]. apply (f_equal from_hex) in Heq. now rewrite !from_hex_upper in Heq.
Qed.

Lemma generateRecoveryCodes_format_witness :
  length (generateRecoveryCodes (fun _ => [xde; xad; xbe; xef]) 10) = 10%nat.
Proof.
  exact (proj1 (generateRecoveryCodes_format (fun _ => [xde; xad; xbe; xef]) 10
                  (fun _ => eq_refl))).
Defined.

(** ** RolesGuard *)

Lemma UserRole_eqb_eq (a b : UserRole) : UserRole_eqb a b = true <-> a = b.
Proof. destruct a, b; cbn; split; congruence. Qed.

(** X4: [canActivate] lets an OWNER through whatever roles are required,
    turns a request without user away as soon as roles are required,
    even none of them, and never withdraws access when roles are added
    to the required ones. *)
Theorem canActivate_roles (roles roles' : list UserRole) (user : option User) :
  (forall u, user_role u = OWNER -> canActivate (Some roles) (Some u) = true)
  /\ canActivate (Some roles) None = false
  /\ (forall u, user_role u <> OWNER -> canActivate (Some []) (Some u) = false)
  /\ (forall u, user_role u <> OWNER ->
                (canActivate (Some roles) (Some u) = true <-> In (user_role u) roles))
  /\ ((forall r, In r roles -> In r roles') ->
      canActivate (Some roles) user = true -> canActivate (Some roles') user = true).
Proof.
  assert (Hin : forall u rs, user_role u <> OWNER ->
                  (canActivate (Some rs) (Some u) = true <-> In (user_role u) rs)).
  { intros u rs Hu. unfold canActivate.
    destruct (UserRole_eqb (user_role u) OWNER) eqn:E;
      [apply UserRole_eqb_eq in E; contradiction |].
    rewrite existsb_exists. split.
    - intros (r & Hr & Heq). apply UserRole_eqb_eq in Heq. now rewrite Heq.
    - intros H. exists (user_role u). split; [exact H | now apply UserRole_eqb_eq]. }
  split; [| split; [| split; [| split]]].
  - intros u Hu. unfold canActivate. now rewrite Hu.
  - reflexivity.
  - intros u Hu. destruct (canActivate (Some []) (Some u)) eqn:E; [| reflexivity].
    apply (Hin u [] Hu) in E. destruct E.
  - intros u Hu. apply Hin, Hu.
  - intros Hsub. destruct user as [u |]; [| discriminate].
    destruct (UserRole_eqb (user_role u) OWNER) eqn:E.
    + intros _. unfold canActivate. now rewrite E.
    + assert (Hu : user_role u <> OWNER).
      { intros Ho. apply UserRole_eqb_eq in Ho. congruence. }
      intros Hok. apply (Hin u roles' Hu), Hsub, (Hin u roles Hu), Hok.
Qed.

Lemma canActivate_roles_witness :
  canActivate (Some [ADMIN; USER]) (Some alice) = true.
Proof.
  apply (proj2 (proj2 (proj2 (proj2 (canActivate_roles [USER] [ADMIN; USER] (Some alice)))))).
  - intros r [<- | []]. right. now left.
  - reflexivity.
Defined.

(** ** The Redis model *)

Lemma redis_get_advance_None (key : string) (gap : Z) (w : World) :
  0 <= gap -> redis_get key w = None -> redis_get key (advance gap w) = None.
Proof.
  unfold redis_get. world_simpl. intros Hgap.
  destruct (redis w !! key) as [[v expiry] |]; [| reflexivity].
  destruct (Z.ltb_spec (clock w) expiry); [discriminate |].
  intros _. destruct (Z.ltb_spec (clock w + gap) expiry); [lia | reflexivity].
Qed.

Lemma redis_get_live (key v : string) (expiry : Z) (w : World) :
  redis w !! key = Some (v, expiry) -> clock w < expiry -> redis_get key w = Some v.
Proof.
  intros H Hlive. unfold redis_get. rewrite H.
  now destruct (Z.ltb_spec (clock w) expiry); [| lia].
Qed.

Lemma redis_get_set_ne (key key' v : string) (ttl : Z) (w : World) :
  key <> key' -> redis_get key' (redis_set key v ttl w) = redis_get key' w.
Proof.
  intros Hne. unfold redis_get, redis_set. world_simpl. now rewrite lookup_insert_ne.
Qed.

Lemma redis_get_del_eq (key : string) (w : World) : redis_get key (redis_del key w) = None.
Proof. unfold redis_get, redis_del. world_simpl. now rewrite lookup_delete_eq. Qed.

Lemma redis_get_del_ne (key key' : string) (w : World) :
  key <> key' -> redis_get key' (redis_del key w) = redis_get key' w.
Proof.
  intros Hne. unfold redis_get, redis_del. world_simpl. now rewrite lookup_delete_ne.
Qed.

Lemma ceil_div60_bounds (m d : Z) :
  0 <= d < m * 60 * 1000 ->
  0 <= ceil_div60 ((m * 60 * 1000 - d) / 1000) <= m.
Proof.
  intros Hd. unfold ceil_div60.
  assert (Hx : 0 <= (m * 60 * 1000 - d) / 1000 <= m * 60)
    by (split; [apply Z.div_pos; lia | apply Z.div_le_upper_bound; lia]).
  generalize dependent ((m * 60 * 1000 - d) / 1000). intros x Hx.
  split.
  - enough (- x / 60 <= 0) by lia. apply Z.div_le_upper_bound; lia.
  - enough (- m <= - x / 60) by lia. apply Z.div_le_lower_bound; lia.
Qed.

Lemma ceil_div60_minutes (m : Z) : ceil_div60 (m * 60 * 1000 / 1000) = m.
Proof.
  unfold ceil_div60. replace (m * 60 * 1000) with (m * 60 * 1000 + 0) by lia.
  rewrite Z.div_add_l by lia. cbn [Z.div]. rewrite Z.add_0_r.
  replace (- (m * 60)) with (- m * 60) by lia. rewrite Z.div_mul by lia. lia.
Qed.

(** ** AccountLockoutService *)

Section LockoutFacts.
Variable cfg : Config.

Lemma recordFailedAttempt_step (id : string) (n gap : Z) (w : World) :
  0 < lockout_lockoutMinutes cfg -> 0 <= n ->
  0 <= gap < lockout_lockoutMinutes cfg * 60 * 1000 ->
  failuresRecorded cfg id n w ->
  failuresRecorded cfg id (n + 1) (recordFailedAttempt cfg id None (advance gap w)).
Proof.
  intros HL Hn Hgap Hinv. unfold failuresRecorded in *.
  destruct (Z.eqb_spec (n + 1) 0); [lia |].
  assert (Hcount : (if truthy (redis_get ("lockout:user:" +:+ id) (advance gap w))
                    then js_succ (parseInt (default ""
                                    (redis_get ("lockout:user:" +:+ id) (advance gap w))))
                    else Num 1) = Num (n + 1)).
  { destruct (Z.eqb_spec n 0) as [-> | Hpos].
    - destruct Hinv as [Hu _]. now rewrite (redis_get_advance_None _ _ _ (proj1 Hgap) Hu).
    - destruct Hinv as [Hu _].
      rewrite (redis_get_live _ (toString (Num n)) _ (advance gap w) Hu)
        by (world_simpl; lia).
      rewrite toString_truthy. change (default "" (Some ?s)) with s.
      now rewrite parseInt_toString. }
  assert (Hlock0 : n < lockout_maxAttempts cfg ->
                   redis_get ("lockout:locked:" +:+ id) (advance gap w) = None).
  { intros Hlt. apply redis_get_advance_None; [lia |].
    destruct (Z.eqb_spec n 0); [apply Hinv | apply Hinv, Hlt]. }
  unfold recordFailedAttempt.
  change ("lockout:user:" ++ id)%string with ("lockout:user:" +:+ id).
  rewrite Hcount. cbn [truthy js_ge lockAccount andb].
  change ("lockout:locked:" ++ id)%string with ("lockout:locked:" +:+ id).
  destruct (Z.leb_spec (lockout_maxAttempts cfg) (n + 1)) as [Hmax | Hmax].
  - unfold redis_set. world_simpl. split; [| split].
    + rewrite lookup_insert_ne by (intros E; symmetry in E; now apply key_user_locked in E).
      rewrite lookup_insert_eq. repeat f_equal; lia.
    + intros _. rewrite lookup_insert_eq. repeat f_equal; lia.
    + lia.
  - split; [| split].
    + unfold redis_set. world_simpl. rewrite lookup_insert_eq. repeat f_equal; lia.
    + lia.
    + intros _. rewrite redis_get_set_ne by apply key_user_locked. apply Hlock0. lia.
Qed.

Lemma failuresAfter_recorded (id : string) (gaps : list Z) :
  0 < lockout_lockoutMinutes cfg ->
  Forall (fun gap => 0 <= gap < lockout_lockoutMinutes cfg * 60 * 1000) gaps ->
  forall n w, 0 <= n -> failuresRecorded cfg id n w ->
              failuresRecorded cfg id (n + Z.of_nat (length gaps)) (failuresAfter cfg gaps id w).
Proof.
  intros HL Hgaps. induction Hgaps as [| gap gaps Hgap _ IH]; intros n w Hn Hinv.
  - cbn. now rewrite Z.add_0_r.
  - cbn [failuresAfter length].
    replace (n + Z.of_nat (S (length gaps))) with (n + 1 + Z.of_nat (length gaps)) by lia.
    apply IH; [lia |]. now apply recordFailedAttempt_step.
Qed.

(** X5: failed attempts for one identifier, each recorded less than the
    lockout time after the one before, are counted one by one however
    long the series lasts; [checkLockout] lets the identifier pass while
    the count is below [maxAttempts] and throws, announcing the full
    lockout time, from the moment the count has reached it. *)
Theorem failuresAfter_locks (id : string) (gaps : list Z) (w : World) :
  0 < lockout_lockoutMinutes cfg ->
  Forall (fun gap => 0 <= gap < lockout_lockoutMinutes cfg * 60 * 1000) gaps ->
  gaps <> [] ->
  redis_get ("lockout:user:" +:+ id) w = None ->
  redis_get ("lockout:locked:" +:+ id) w = None ->
  redis_get ("lockout:user:" +:+ id) (failuresAfter cfg gaps id w)
  = Some (toString (Num (Z.of_nat (length gaps))))
  /\ (Z.of_nat (length gaps) < lockout_maxAttempts cfg ->
      checkLockout id (failuresAfter cfg gaps id w) = Ok tt)
  /\ (lockout_maxAttempts cfg <= Z.of_nat (length gaps) ->
      checkLockout id (failuresAfter cfg gaps id w)
      = Throw (Error ("Account is temporarily locked. Try again in "
                        +:+ toString (Num (lockout_lockoutMinutes cfg)) +:+ " minutes."))).
Proof.
  intros HL Hgaps Hne Hu Hl.
  pose proof (failuresAfter_recorded id gaps HL Hgaps 0 w (Z.le_refl 0) (conj Hu Hl)) as Hinv.
  rewrite Z.add_0_l in Hinv. unfold failuresRecorded in Hinv.
  destruct (Z.eqb_spec (Z.of_nat (length gaps)) 0) as [E | _];
    [destruct gaps; [congruence | cbn in E; lia] |].
  destruct Hinv as (Hcount & Hlocked & Hfree).
  set (w' := failuresAfter cfg gaps id w) in *.
  split; [| split].
  - apply (redis_get_live _ _ _ _ Hcount). lia.
  - intros Hlt. unfold checkLockout.
    change ("lockout:locked:" ++ id)%string with ("lockout:locked:" +:+ id).
    now rewrite (Hfree Hlt).
  - intros Hmax. unfold checkLockout.
    change ("lockout:locked:" ++ id)%string with ("lockout:locked:" +:+ id).
    rewrite (redis_get_live _ _ _ _ (Hlocked Hmax)) by lia. cbn [truthy String.eqb negb].
    unfold redis_ttl. rewrite (Hlocked Hmax).
    destruct (Z.ltb_spec (clock w') (clock w' + lockout_lockoutMinutes cfg * 60 * 1000));
      [| lia].
    replace (clock w' + lockout_lockoutMinutes cfg * 60 * 1000 - clock w')
      with (lockout_lockoutMinutes cfg * 60 * 1000) by lia.
    now rewrite ceil_div60_minutes.
Qed.

End LockoutFacts.

Lemma failuresAfter_locks_witness :
  checkLockout "a@x.com" (failuresAfter toy_cfg [0; 600000; 600000; 600000; 600000] "a@x.com"
                            (toy_world []))
  = Throw (Error "Account is temporarily locked. Try again in 15 minutes.").
Proof.
  apply (proj2 (proj2 (failuresAfter_locks toy_cfg "a@x.com" [0; 600000; 600000; 600000; 600000]
                         (toy_world []) ltac:(cbn; lia)
                         ltac:(repeat constructor; cbn; lia) ltac:(discriminate)
                         eq_refl eq_refl))).
  cbn. lia.
Defined.

Lemma checkLockout_frame (id : string) (w w' : World) :
  redis w' !! ("lockout:locked:" +:+ id) = redis w !! ("lockout:locked:" +:+ id) ->
  clock w' = clock w ->
  checkLockout id w' = checkLockout id w.
Proof.
  intros Hr Hc. unfold checkLockout, redis_get, redis_ttl.
  change ("lockout:locked:" ++ id)%string with ("lockout:locked:" +:+ id).
  now rewrite Hr, Hc.
Qed.

Lemma lockAccount_entry (id : string) (m : Z) (email name : option string) (w : World) :
  redis (lockAccount id m email name w) !! ("lockout:locked:" +:+ id)
  = Some ("locked", clock w + m * 60 * 1000)
  /\ clock (lockAccount id m email name w) = clock w.
Proof.
  unfold lockAccount. destruct (truthy email && truthy name);
    unfold redis_set; world_simpl; rewrite lookup_insert_eq; auto.
Qed.

(** X6: a lock set by [lockAccount] for [m] minutes makes [checkLockout]
    throw until those minutes have passed, with a number of minutes in
    its message that is never above [m], and lets the identifier pass
    from then on; the notice is mailed exactly when both an address and
    a name were given. *)
Theorem lockAccount_lifetime (id : string) (m d : Z) (email name : option string)
    (w : World) :
  0 < m ->
  (0 <= d < m * 60 * 1000 ->
   exists minutes,
     checkLockout id (advance d (lockAccount id m email name w))
     = Throw (Error ("Account is temporarily locked. Try again in "
                       +:+ toString (Num minutes) +:+ " minutes."))
     /\ 0 <= minutes <= m)
  /\ (m * 60 * 1000 <= d ->
      checkLockout id (advance d (lockAccount id m email name w)) = Ok tt)
  /\ length (outbox (lockAccount id m email name w))
     = if truthy email && truthy name then S (length (outbox w)) else length (outbox w).
Proof.
  intros Hm. destruct (lockAccount_entry id m email name w) as [Hentry Hclock].
  split; [| split].
  - intros Hd. exists (ceil_div60 ((m * 60 * 1000 - d) / 1000)).
    unfold checkLockout, redis_get, redis_ttl.
    change ("lockout:locked:" ++ id)%string with ("lockout:locked:" +:+ id).
    world_simpl. rewrite Hentry, Hclock.
    destruct (Z.ltb_spec (clock w + d) (clock w + m * 60 * 1000)); [| lia].
    cbn [truthy String.eqb negb].
    replace (clock w + m * 60 * 1000 - (clock w + d)) with (m * 60 * 1000 - d) by lia.
    split; [reflexivity |]. now apply ceil_div60_bounds.
  - intros Hd. unfold checkLockout, redis_get.
    change ("lockout:locked:" ++ id)%string with ("lockout:locked:" +:+ id).
    world_simpl. rewrite Hentry, Hclock.
    now destruct (Z.ltb_spec (clock w + d) (clock w + m * 60 * 1000)); [lia |].
  - unfold lockAccount. destruct (truthy email && truthy name); world_simpl;
      [rewrite length_app; cbn; lia | reflexivity].
Qed.

Lemma lockAccount_lifetime_witness :
  checkLockout "a@x.com" (advance 900000 (lockAccount "a@x.com" 15 None None (toy_world [])))
  = Ok tt.
Proof.
  apply (proj1 (proj2 (lockAccount_lifetime "a@x.com" 15 900000 None None (toy_world [])
                         ltac:(lia)))).
  lia.
Defined.

(** X7: [unlockAccount] lifts the lock and forgets the failures counted
    for the identifier, whereas [resetAttempts], which forgets the
    counted failures too, leaves a lock in place; neither touches the
    lock of another identifier. *)
Theorem unlock_and_reset (id other : string) (ip : option string) (w : World) :
  checkLockout id (unlockAccount id w) = Ok tt
  /\ getLockoutInfo id (unlockAccount id w)
     = {| isLocked := false; remainingMinutes := None; info_attempts := Some (Num 0) |}
  /\ checkLockout id (resetAttempts id ip w) = checkLockout id w
  /\ redis_get ("lockout:user:" +:+ id) (resetAttempts id ip w) = None
  /\ (other <> id ->
      checkLockout other (unlockAccount id w) = checkLockout other w
      /\ checkLockout other (resetAttempts id ip w) = checkLockout other w).
Proof.
  assert (Hreset : forall x, redis (resetAttempts id ip w) !! ("lockout:locked:" +:+ x)
                             = redis w !! ("lockout:locked:" +:+ x)
                             /\ clock (resetAttempts id ip w) = clock w).
  { intros x. unfold resetAttempts, redis_del. destruct (truthy ip); world_simpl;
      rewrite ?lookup_delete_ne by (apply key_ip_locked || apply key_user_locked); auto. }
  assert (Hunlock : redis_get ("lockout:locked:" +:+ id) (unlockAccount id w) = None).
  { unfold unlockAccount. rewrite redis_get_del_ne by apply key_user_locked.
    apply redis_get_del_eq. }
  split; [| split; [| split; [| split]]].
  - unfold checkLockout.
    change ("lockout:locked:" ++ id)%string with ("lockout:locked:" +:+ id).
    now rewrite Hunlock.
  - unfold getLockoutInfo.
    change ("lockout:locked:" ++ id)%string with ("lockout:locked:" +:+ id).
    change ("lockout:user:" ++ id)%string with ("lockout:user:" +:+ id).
    rewrite Hunlock. cbn [truthy]. unfold unlockAccount.
    change ("lockout:user:" ++ id)%string with ("lockout:user:" +:+ id).
    now rewrite redis_get_del_eq.
  - apply checkLockout_frame; [apply (proj1 (Hreset id)) | apply (proj2 (Hreset id))].
  - unfold resetAttempts. destruct (truthy ip).
    + rewrite redis_get_del_ne by apply key_ip_user. apply redis_get_del_eq.
    + apply redis_get_del_eq.
  - intros Hne. split.
    + apply checkLockout_frame; [| reflexivity].
      unfold unlockAccount, redis_del. world_simpl.
      rewrite lookup_delete_ne by apply key_user_locked.
      apply lookup_delete_ne. intros E. apply append_inj_l in E. congruence.
    + apply checkLockout_frame; [apply (proj1 (Hreset other)) | apply (proj2 (Hreset other))].
Qed.

(** X8: a failure recorded for one identifier, with or without origin
    address, changes nothing for [checkLockout] of another identifier:
    the counter kept per address takes part in no lock. *)
Theorem recordFailedAttempt_other_identifier (cfg : Config) (id other : string)
    (ip : option string) (w : World) :
  other <> id ->
  checkLockout other (recordFailedAttempt cfg id ip w) = checkLockout other w.
Proof.
  intros Hne. apply checkLockout_frame.
  - unfold recordFailedAttempt, lockAccount, redis_set.
    destruct (truthy ip); destruct (js_ge _ _); cbn [truthy andb]; world_simpl;
      rewrite ?lookup_insert_ne; auto;
      try (intros E; apply append_inj_l in E; congruence);
      try apply key_ip_locked; try apply key_user_locked.
  - unfold recordFailedAttempt, lockAccount, redis_set.
    destruct (truthy ip); destruct (js_ge _ _); reflexivity.
Qed.

Lemma recordFailedAttempt_other_identifier_witness :
  checkLockout "b@x.com"
    (recordFailedAttempt toy_cfg "a@x.com" (Some "10.0.0.7") (toy_world []))
  = checkLockout "b@x.com" (toy_world []).
Proof.
  apply (recordFailedAttempt_other_identifier toy_cfg "a@x.com" "b@x.com" (Some "10.0.0.7")
           (toy_world [])).
  discriminate.
Defined.

(** ** OtpService *)

Lemma key_resend_attempts (a b : string) : "otp:resend:" +:+ a <> "otp:attempts:" +:+ b.
Proof. intros H. cbv in H. discriminate H. Qed.

Lemma filter_user_none (u : string) (p : EmailOTP -> bool) (l : list EmailOTP) :
  List.filter (fun r => String.eqb (otp_userId r) u && p r)
    (List.filter (fun r => negb (String.eqb (otp_userId r) u)) l) = [].
Proof.
  induction l as [| x l IH]; [reflexivity |].
  cbn [List.filter]. destruct (String.eqb (otp_userId x) u) eqn:E; cbn [negb]; [exact IH |].
  cbn [List.filter]. now rewrite E.
Qed.

Section OtpFacts.
Context `{Ext : Externals}.
Variable cfg : Config.

(** The row [generateAndSendOTP] stores. *)
Lemma generateAndSendOTP_Ok_inv rnd userId email w w1 :
  generateAndSendOTP cfg rnd userId email w = (w1, Ok tt) ->
  emailOTPs w1
  = List.filter (fun r => negb (String.eqb (otp_userId r) userId)) (emailOTPs w)
    ++ [{| otp_id := nextId w; otp_userId := userId;
           otpHash := argon2_hash (generateOTP (rand_raw rnd)) (rand_salt rnd);
           otp_attempts := 0;
           otp_expiresAt := clock w + twoFactor_otpExpiryMinutes cfg * 60 * 1000;
           otp_createdAt := clock w |}]
  /\ clock w1 = clock w
  /\ (forall x, redis_get ("otp:attempts:" +:+ x) w1 = redis_get ("otp:attempts:" +:+ x) w)
  /\ outbox w1
     = outbox w ++ [{| mail_to := email; mail_subject := "Your Verification Code";
                       mail_template := "otp-code";
                       mail_context :=
                         [("otp", generateOTP (rand_raw rnd));
                          ("expiryMinutes",
                           toString (Num (twoFactor_otpExpiryMinutes cfg)))] |}].
Proof.
  unfold generateAndSendOTP.
  destruct (truthy _ && js_ge _ _); [discriminate |].
  intros [= <-]. unfold sendOTPEmail.
  split; [| split; [| split]]; try reflexivity.
  intros x. change ("otp:resend:" ++ userId)%string with ("otp:resend:" +:+ userId).
  rewrite redis_get_set_ne by apply key_resend_attempts.
  reflexivity.
Qed.

(** X9: when the hashing library verifies the hash it made of the code
    [generateAndSendOTP] issued, and no failed attempts are cached,
    [verifyOTP] accepts that code at any moment before its expiry,
    whatever challenges the user had before, and after that acceptance
    no code at all is accepted: the challenge is gone.  From the expiry
    on the code is refused as expired. *)
Theorem otp_issue_then_verify rnd (userId email : string) (w w1 : World) (d : Z) :
  argon2_verify (argon2_hash (generateOTP (rand_raw rnd)) (rand_salt rnd))
    (generateOTP (rand_raw rnd)) = true ->
  generateAndSendOTP cfg rnd userId email w = (w1, Ok tt) ->
  redis_get ("otp:attempts:" +:+ userId) w = None ->
  0 <= d ->
  (d < twoFactor_otpExpiryMinutes cfg * 60 * 1000 ->
   exists w2,
     verifyOTP cfg userId (generateOTP (rand_raw rnd)) (advance d w1) = (w2, Ok true)
     /\ forall code,
          verifyOTP cfg userId code w2
          = (w2, Throw (BadRequestException "OTP expired or not found")))
  /\ (twoFactor_otpExpiryMinutes cfg * 60 * 1000 <= d ->
      verifyOTP cfg userId (generateOTP (rand_raw rnd)) (advance d w1)
      = (advance d w1, Throw (BadRequestException "OTP expired or not found"))).
Proof.
  intros Hargon Hissue Hattempts Hd.
  destruct (generateAndSendOTP_Ok_inv _ _ _ _ _ Hissue) as (Hrows & Hclock & Hredis & _).
  assert (Hnone : redis_get ("otp:attempts:" +:+ userId) (advance d w1) = None)
    by (apply redis_get_advance_None; [exact Hd | now rewrite Hredis]).
  split.
  - intros Hlive.
    set (row := {| otp_id := nextId w; otp_userId := userId;
                   otpHash := argon2_hash (generateOTP (rand_raw rnd)) (rand_salt rnd);
                   otp_attempts := 0;
                   otp_expiresAt := clock w + twoFactor_otpExpiryMinutes cfg * 60 * 1000;
                   otp_createdAt := clock w |}) in *.
    assert (Hfind : findLiveOTP userId (advance d w1) = Some row).
    { unfold findLiveOTP. world_simpl. rewrite Hrows, Hclock, List.filter_app, filter_user_none.
      cbn [List.filter app row otp_userId otp_expiresAt]. rewrite String.eqb_refl.
      destruct (Z.ltb_spec (clock w + d) (clock w + twoFactor_otpExpiryMinutes cfg * 60 * 1000));
        [reflexivity | lia]. }
    unfold verifyOTP at 1.
    change ("otp:attempts:" ++ userId)%string with ("otp:attempts:" +:+ userId).
    rewrite Hnone, Hfind. cbn [truthy andb].
    replace (argon2_verify (otpHash row) (generateOTP (rand_raw rnd))) with true
      by (symmetry; exact Hargon).
    cbn [negb]. eexists. split; [reflexivity |].
    intros code. unfold verifyOTP.
    change ("otp:attempts:" ++ userId)%string with ("otp:attempts:" +:+ userId).
    change ("otp:resend:" ++ userId)%string with ("otp:resend:" +:+ userId).
    rewrite redis_get_del_ne by apply key_resend_attempts.
    rewrite redis_get_del_eq. cbn [truthy andb].
    match goal with
    | |- context [findLiveOTP userId ?w'] =>
        assert (Hgone : findLiveOTP userId w' = None)
    end.
    { apply findLiveOTP_None. unfold redis_del. world_simpl. rewrite Hrows.
      intros r Hin Hu. exfalso.
      apply filter_In in Hin as [Hin Hid]. apply in_map_iff in Hin as (r0 & Hr & Hin0).
      apply in_app_iff in Hin0 as [Hold | [<- | []]].
      - apply filter_In in Hold as [_ Hother].
        assert (otp_userId r = otp_userId r0)
          by (subst r; now destruct (Nat.eqb (otp_id r0) (otp_id row))).
        rewrite <- H, Hu, String.eqb_refl in Hother. discriminate.
      - subst r. rewrite Nat.eqb_refl in Hid. cbn in Hid. rewrite Nat.eqb_refl in Hid.
        discriminate. }
    now rewrite Hgone.
  - intros Hdead. unfold verifyOTP.
    change ("otp:attempts:" ++ userId)%string with ("otp:attempts:" +:+ userId).
    rewrite Hnone. cbn [truthy andb].
    assert (Hgone : findLiveOTP userId (advance d w1) = None).
    { apply findLiveOTP_None. world_simpl. rewrite Hrows, Hclock.
      intros r Hin Hu. apply in_app_iff in Hin as [Hold | [<- | []]].
      - apply filter_In in Hold as [_ Hother].
        rewrite Hu, String.eqb_refl in Hother. discriminate.
      - cbn [otp_expiresAt]. lia. }
    now rewrite Hgone.
Qed.


(** X10: asking for a new code does not lift the attempt lock: while the
    cached count of failed attempts is at [maxOTPAttempts] or above,
    [verifyOTP] refuses even the code just issued, and keeps the
    challenge. *)
Theorem otp_attempt_lock_survives_new_code rnd (userId email : string) (w w1 : World)
    (n : Z) :
  redis_get ("otp:attempts:" +:+ userId) w = Some (toString (Num n)) ->
  twoFactor_maxOTPAttempts cfg <= n ->
  generateAndSendOTP cfg rnd userId email w = (w1, Ok tt) ->
  verifyOTP cfg userId (generateOTP (rand_raw rnd)) w1
  = (w1, Throw (UnauthorizedException
                  "Too many verification attempts. Please request a new OTP.")).
Proof.
  intros Hget Hmax Hissue.
  destruct (generateAndSendOTP_Ok_inv _ _ _ _ _ Hissue) as (_ & _ & Hredis & _).
  rewrite <- Hredis in Hget. unfold verifyOTP.
  change ("otp:attempts:" ++ userId)%string with ("otp:attempts:" +:+ userId).
  destruct (attempts_guard cfg _ n (or_intror Hget)) as (_ & _ & Hg).
  rewrite (Hg Hget). now apply Z.leb_le in Hmax as ->.
Qed.




Lemma filter_live_clean (u : string) (now : Z) (l : list EmailOTP) :
  List.filter (fun r => String.eqb (otp_userId r) u && (now <? otp_expiresAt r))
    (List.filter (fun r => negb (otp_expiresAt r <? now)) l)
  = List.filter (fun r => String.eqb (otp_userId r) u && (now <? otp_expiresAt r)) l.
Proof.
  induction l as [| x l IH]; [reflexivity |].
  cbn [List.filter]. destruct (Z.ltb_spec (otp_expiresAt x) now) as [Hold | Hnew]; cbn [negb].
  - destruct (Z.ltb_spec now (otp_expiresAt x)); [lia |].
    now rewrite andb_false_r.
  - cbn [List.filter]. now rewrite IH.
Qed.

(** X12: [cleanExpiredOTPs] removes exactly the rows whose expiry lies
    before now: a row is there afterwards if and only if it was there
    and its expiry is now or later.  These are challenges [verifyOTP]
    would not consider any more: the live challenge of every user and
    the answer of [verifyOTP] to every code are the same before and
    after. *)
Theorem cleanExpiredOTPs_keeps_live (userId code : string) (w : World) :
  findLiveOTP userId (cleanExpiredOTPs w) = findLiveOTP userId w
  /\ snd (verifyOTP cfg userId code (cleanExpiredOTPs w)) = snd (verifyOTP cfg userId code w)
  /\ (forall r, In r (emailOTPs (cleanExpiredOTPs w))
                <-> In r (emailOTPs w) /\ clock w <= otp_expiresAt r).
Proof.
  assert (Hlive : findLiveOTP userId (cleanExpiredOTPs w) = findLiveOTP userId w).
  { unfold findLiveOTP, cleanExpiredOTPs. world_simpl. now rewrite filter_live_clean. }
  split; [exact Hlive |]. split.
  - unfold verifyOTP. rewrite Hlive.
    change (redis_get ("otp:attempts:" ++ userId) (cleanExpiredOTPs w))
      with (redis_get ("otp:attempts:" ++ userId) w).
    destruct (truthy _ && js_ge _ _); [reflexivity |].
    destruct (findLiveOTP userId w) as [r |]; [| reflexivity].
    now destruct (argon2_verify (otpHash r) code).
  - intros r. unfold cleanExpiredOTPs. world_simpl. rewrite filter_In.
    destruct (Z.ltb_spec (otp_expiresAt r) (clock w)); cbn [negb];
      split; intros [Hin Hp]; (split; [exact Hin |]); try lia; try reflexivity;
      discriminate Hp.
Qed.

End OtpFacts.

Lemma otp_issue_then_verify_witness :
  exists w2,
    @verifyOTP toy_ext toy_cfg "u1" (generateOTP (rand_raw toy_rnd))
      (advance 1000 (fst (@generateAndSendOTP toy_ext toy_cfg toy_rnd "u1" "a@x.com"
                            (toy_world []))))
    = (w2, Ok true).
Proof.
  destruct (proj1 (@otp_issue_then_verify toy_ext toy_cfg toy_rnd "u1" "a@x.com"
             (toy_world [])
             (fst (@generateAndSendOTP toy_ext toy_cfg toy_rnd "u1" "a@x.com" (toy_world [])))
             1000
             ltac:(vm_compute; reflexivity)
             ltac:(reflexivity) ltac:(reflexivity) ltac:(lia))
             ltac:(vm_compute; reflexivity)) as (w2 & H & _).
  exists w2. exact H.
Defined.

Lemma otp_attempt_lock_survives_new_code_witness :
  let w := redis_set "otp:attempts:u1" "5" 900 (toy_world []) in
  let w1 := fst (@generateAndSendOTP toy_ext toy_cfg toy_rnd "u1" "a@x.com" w) in
  @verifyOTP toy_ext toy_cfg "u1" (generateOTP (rand_raw toy_rnd)) w1
  = (w1, Throw (UnauthorizedException
                  "Too many verification attempts. Please request a new OTP.")).
Proof.
  apply (@otp_attempt_lock_survives_new_code toy_ext toy_cfg toy_rnd "u1" "a@x.com"
           (redis_set "otp:attempts:u1" "5" 900 (toy_world [])) _ 5);
    [reflexivity | vm_compute; discriminate | reflexivity].
Defined.


(** ** TwoFactorService *)

Lemma find_app_split {A : Type} (p : A -> bool) (l l' : list A) :
  List.find p (l ++ l')
  = match List.find p l with Some x => Some x | None => List.find p l' end.
Proof.
  induction l as [| x l IH]; [reflexivity |].
  cbn [app List.find]. destruct (p x); [reflexivity | exact IH].
Qed.

Lemma find_filter {A : Type} (p q : A -> bool) (l : list A) :
  List.find q (List.filter p l) = List.find (fun a => p a && q a) l.
Proof.
  induction l as [| x l IH]; [reflexivity |].
  cbn [List.filter List.find]. destruct (p x); cbn [andb List.find]; [| exact IH].
  destruct (q x); [reflexivity | exact IH].
Qed.

Lemma isFactor_eq (uid : string) (ty : TwoFactorType) (a : TwoFactorAuth) :
  isFactor uid ty a = true <-> tfa_userId a = uid /\ tfa_type a = ty.
Proof.
  unfold isFactor. rewrite andb_true_iff, String.eqb_eq, TwoFactorType_eqb_eq. reflexivity.
Qed.

Lemma findTwoFactorAuth_map (uid : string) (ty : TwoFactorType)
    (f : TwoFactorAuth -> TwoFactorAuth) (w : World) :
  (forall a, tfa_userId (f a) = tfa_userId a /\ tfa_type (f a) = tfa_type a) ->
  findTwoFactorAuth uid ty (set_twoFactorAuths (map f (twoFactorAuths w)) w)
  = option_map f (findTwoFactorAuth uid ty w).
Proof.
  intros Hf. unfold findTwoFactorAuth. world_simpl. apply find_map_same.
  intros a. destruct (Hf a) as [-> ->]. reflexivity.
Qed.

Lemma findTwoFactorAuth_Some (uid : string) (ty : TwoFactorType) (w : World)
    (a : TwoFactorAuth) :
  findTwoFactorAuth uid ty w = Some a ->
  In a (twoFactorAuths w) /\ isFactor uid ty a = true.
Proof. intros H. now apply find_some in H. Qed.

Lemma upsertTwoFactorAuth_find (uid : string) (ty : TwoFactorType) (create : TwoFactorAuth)
    (update : TwoFactorAuth -> TwoFactorAuth) (w : World) :
  (forall a, tfa_userId (update a) = tfa_userId a /\ tfa_type (update a) = tfa_type a) ->
  isFactor uid ty create = true ->
  findTwoFactorAuth uid ty (upsertTwoFactorAuth uid ty create update w)
  = Some (match findTwoFactorAuth uid ty w with
          | Some a => update a
          | None => create
          end).
Proof.
  intros Hupd Hcreate. unfold upsertTwoFactorAuth.
  destruct (findTwoFactorAuth uid ty w) as [a |] eqn:Hfind.
  - rewrite findTwoFactorAuth_map.
    + rewrite Hfind. cbn [option_map].
      now rewrite (proj2 (findTwoFactorAuth_Some _ _ _ _ Hfind)).
    + intros x. destruct (isFactor uid ty x); [apply Hupd | auto].
  - unfold findTwoFactorAuth in *. world_simpl. rewrite find_app_split, Hfind.
    cbn [List.find]. unfold isFactor in Hcreate. now rewrite Hcreate.
Qed.

Lemma upsertTwoFactorAuth_other (uid uid' : string) (ty ty' : TwoFactorType)
    (create : TwoFactorAuth) (update : TwoFactorAuth -> TwoFactorAuth) (w : World) :
  (forall a, tfa_userId (update a) = tfa_userId a /\ tfa_type (update a) = tfa_type a) ->
  isFactor uid ty create = true ->
  uid' <> uid \/ ty' <> ty ->
  findTwoFactorAuth uid' ty' (upsertTwoFactorAuth uid ty create update w)
  = findTwoFactorAuth uid' ty' w.
Proof.
  intros Hupd Hcreate Hne.
  assert (Hsep : forall a, isFactor uid' ty' a = true -> isFactor uid ty a = false).
  { intros a Ha. apply isFactor_eq in Ha as [Hu Ht].
    destruct (isFactor uid ty a) eqn:E; [| reflexivity].
    apply isFactor_eq in E as [Hu' Ht']. destruct Hne; congruence. }
  unfold upsertTwoFactorAuth.
  destruct (findTwoFactorAuth uid ty w) as [a |] eqn:Hfind.
  - rewrite findTwoFactorAuth_map
      by (intros x; destruct (isFactor uid ty x); [apply Hupd | auto]).
    destruct (findTwoFactorAuth uid' ty' w) as [b |] eqn:Hb; [| reflexivity].
    cbn [option_map]. now rewrite (Hsep b (proj2 (findTwoFactorAuth_Some _ _ _ _ Hb))).
  - clear Hfind. unfold findTwoFactorAuth. world_simpl. rewrite find_app_split.
    destruct (List.find _ (twoFactorAuths w)); [reflexivity |].
    cbn [List.find]. fold (isFactor uid' ty' create).
    destruct (isFactor uid' ty' create) eqn:E; [| reflexivity].
    now rewrite (Hsep _ E) in Hcreate.
Qed.

Lemma nth_error_combine_seq {A : Type} (l : list A) (i s : nat) (c : A) :
  nth_error l i = Some c -> In ((s + i)%nat, c) (combine (seq s (length l)) l).
Proof.
  revert i s. induction l as [| x l IH]; intros [| i] s H; try discriminate.
  - injection H as ->. left. f_equal. lia.
  - right. cbn [length seq combine]. replace (s + S i)%nat with (S s + i)%nat by lia.
    now apply IH.
Qed.

Lemma get2FAStatus_find (uid : string) (w : World) :
  get2FAStatus uid w
  = {| status_totp_enabled :=
         match findTwoFactorAuth uid TOTP w with Some a => tfa_enabled a | None => false end;
       status_email_enabled :=
         match findTwoFactorAuth uid EMAIL w with Some a => tfa_enabled a | None => false end |}.
Proof. unfold get2FAStatus. now rewrite !find_filter. Qed.

Section TwoFactorFacts.
Context `{Ext : Externals}.
Variable cfg : Config.
Variable speakeasy_generateSecret : string -> Buffer -> string * string.
Variable qrcode_toDataURL : string -> string.

Lemma generateTOTPSecret_Ok_inv raw iv userId email w w1 setup :
  generateTOTPSecret cfg speakeasy_generateSecret qrcode_toDataURL raw iv userId email w
  = (w1, Ok setup) ->
  exists env,
    encrypt iv (setup_secret setup) (twoFactor_encryptionKey cfg) = Ok env
    /\ w1 = upsertTwoFactorAuth userId TOTP
              {| tfa_userId := userId; tfa_type := TOTP; tfa_secret := env;
                 tfa_enabled := false; recoveryCodes := None |}
              (with_secret_disabled env) w
    /\ findTwoFactorAuth userId TOTP w1
       = Some (match findTwoFactorAuth userId TOTP w with
               | Some a => with_secret_disabled env a
               | None => {| tfa_userId := userId; tfa_type := TOTP; tfa_secret := env;
                            tfa_enabled := false; recoveryCodes := None |}
               end).
Proof.
  unfold generateTOTPSecret.
  destruct (encrypt iv _ (twoFactor_encryptionKey cfg)) as [env | e] eqn:Henc; [| discriminate].
  intros [= <- <-]. exists env. cbn [setup_secret]. split; [exact Henc |].
  split; [reflexivity |]. apply upsertTwoFactorAuth_find.
  - intros a. split; reflexivity.
  - unfold isFactor. cbn. now rewrite String.eqb_refl.
Qed.

Lemma upsert_world (uid : string) (ty : TwoFactorType) (create : TwoFactorAuth)
    (update : TwoFactorAuth -> TwoFactorAuth) (w : World) :
  let w' := upsertTwoFactorAuth uid ty create update w in
  users w' = users w /\ accounts w' = accounts w /\ clock w' = clock w.
Proof. unfold upsertTwoFactorAuth. now destruct (findTwoFactorAuth uid ty w). Qed.

(** X13: [generateTOTPSecret] switches the user's TOTP factor off, also
    when it was confirmed and enabled before: from then on [verifyTOTP]
    answers false to every token and [verifyRecoveryCode] refuses every
    code, and [login] with the right password asks for no second factor
    unless an e-mail factor is enabled. *)
Theorem generateTOTPSecret_switches_totp_off raw iv (userId email : string)
    (w w1 : World) (setup : TotpSetup) :
  generateTOTPSecret cfg speakeasy_generateSecret qrcode_toDataURL raw iv userId email w
  = (w1, Ok setup) ->
  (forall token, verifyTOTP cfg userId token w1 = Ok false)
  /\ (forall code, verifyRecoveryCode userId code w1 = (w1, false))
  /\ (forall rnd dto ip u a,
        findUserByIdentifier (identifier dto) w1 = Some u -> user_id u = userId ->
        findAccount userId w1 = Some a ->
        argon2_verify (passwordHash a) (password dto) = true ->
        (forall e, In e (twoFactorAuths w) -> tfa_userId e = userId ->
                   tfa_type e = EMAIL -> tfa_enabled e = false) ->
        login cfg rnd dto ip w1 = completeLogin cfg u a dto ip w1).
Proof.
  intros Hgen. destruct (generateTOTPSecret_Ok_inv _ _ _ _ _ _ _ Hgen) as (env & _ & Hw1 & Hfind).
  assert (Hoff : exists a, findTwoFactorAuth userId TOTP w1 = Some a /\ tfa_enabled a = false).
  { rewrite Hfind. destruct (findTwoFactorAuth userId TOTP w); eexists; split; reflexivity. }
  destruct Hoff as (a0 & Ha0 & Hdis).
  split; [| split].
  - intros token. unfold verifyTOTP. now rewrite Ha0, Hdis.
  - intros code. unfold verifyRecoveryCode. now rewrite Ha0, Hdis.
  - intros rnd dto ip u a Hu Hid Ha Hpw Hemail.
    apply login_without_factors; try assumption; [now rewrite Hid |].
    intros e Hin He. rewrite Hid in He.
    destruct (tfa_type e) eqn:Hty.
    + subst w1. unfold upsertTwoFactorAuth in Hin.
      destruct (findTwoFactorAuth userId TOTP w) as [old |] eqn:Hold; world_simpl in Hin.
      * apply in_map_iff in Hin as (e0 & He0 & _).
        destruct (isFactor userId TOTP e0) eqn:E; [now subst e |].
        subst e0. rewrite (proj2 (isFactor_eq userId TOTP e) (conj He Hty)) in E.
        discriminate.
      * apply in_app_iff in Hin as [Hin | [<- | []]]; [| reflexivity].
        apply find_none with (x := e) in Hold; [| exact Hin].
        fold (isFactor userId TOTP e) in Hold.
        rewrite (proj2 (isFactor_eq userId TOTP e) (conj He Hty)) in Hold. discriminate.
    + subst w1. unfold upsertTwoFactorAuth in Hin.
      destruct (findTwoFactorAuth userId TOTP w) as [old |] eqn:Hold; world_simpl in Hin.
      * apply in_map_iff in Hin as (e0 & He0 & Hin0).
        destruct (isFactor userId TOTP e0) eqn:E; [now subst e |].
        subst e0. now apply Hemail.
      * apply in_app_iff in Hin as [Hin | [<- | []]]; [now apply Hemail | reflexivity].
Qed.

(** What [verifyTOTPSetup] does for a stored secret that decrypts and a
    token the TOTP library accepts for it. *)
Lemma verifyTOTPSetup_confirms draw salt userId token w a secret :
  findTwoFactorAuth userId TOTP w = Some a ->
  decrypt (tfa_secret a) (twoFactor_encryptionKey cfg) = Ok secret ->
  totp_verify secret token (clock w) = true ->
  exists w2,
    verifyTOTPSetup cfg draw salt userId token w = (w2, Ok (generateRecoveryCodes draw 10))
    /\ clock w2 = clock w
    /\ findTwoFactorAuth userId TOTP w2
       = Some (with_enabled_codes
                 (map (fun ic => argon2_hash (snd ic) (salt (fst ic)))
                    (combine (seq 0 (length (generateRecoveryCodes draw 10)))
                       (generateRecoveryCodes draw 10))) a).
Proof.
  intros Hfind Hdec Hvalid. unfold verifyTOTPSetup. rewrite Hfind, Hdec, Hvalid. cbn [negb].
  eexists. split; [reflexivity |]. split; [reflexivity |].
  rewrite findTwoFactorAuth_map.
  - rewrite Hfind. cbn [option_map].
    now rewrite (proj2 (findTwoFactorAuth_Some _ _ _ _ Hfind)).
  - intros x. now destruct (isFactor userId TOTP x).
Qed.

(** X14: the TOTP setup round trip.  When the envelope [encrypt] made of
    the new secret decrypts to it, [verifyTOTPSetup] with a token the
    TOTP library accepts for the secret returns ten recovery codes and
    enables the factor: afterwards [verifyTOTP] answers as the library
    does for that secret, and each returned code whose hash the hashing
    library verifies is accepted by [verifyRecoveryCode]; with a token
    the library rejects, [verifyTOTPSetup] throws and changes nothing. *)
Theorem totp_setup_round_trip raw iv draw salt (userId email token : string)
    (w w1 : World) (setup : TotpSetup) :
  generateTOTPSecret cfg speakeasy_generateSecret qrcode_toDataURL raw iv userId email w
  = (w1, Ok setup) ->
  (forall env, encrypt iv (setup_secret setup) (twoFactor_encryptionKey cfg) = Ok env ->
               decrypt env (twoFactor_encryptionKey cfg) = Ok (setup_secret setup)) ->
  totp_verify (setup_secret setup) token (clock w1) = true ->
  (exists w2,
     verifyTOTPSetup cfg draw salt userId token w1 = (w2, Ok (generateRecoveryCodes draw 10))
     /\ length (generateRecoveryCodes draw 10) = 10%nat
     /\ (forall t, verifyTOTP cfg userId t w2
                   = Ok (totp_verify (setup_secret setup) t (clock w2)))
     /\ (forall i c,
           nth_error (generateRecoveryCodes draw 10) i = Some c ->
           argon2_verify (argon2_hash c (salt i)) c = true ->
           snd (verifyRecoveryCode userId c w2) = true))
  /\ (forall bad,
        totp_verify (setup_secret setup) bad (clock w1) = false ->
        verifyTOTPSetup cfg draw salt userId bad w1
        = (w1, Throw (UnauthorizedException "Invalid verification code"))).
Proof.
  intros Hgen Hcodec Hvalid.
  destruct (generateTOTPSecret_Ok_inv _ _ _ _ _ _ _ Hgen) as (env & Henc & _ & Hfind).
  specialize (Hcodec env Henc).
  set (a := match findTwoFactorAuth userId TOTP w with
            | Some a => with_secret_disabled env a
            | None => {| tfa_userId := userId; tfa_type := TOTP; tfa_secret := env;
                         tfa_enabled := false; recoveryCodes := None |}
            end) in *.
  assert (Hsecret : tfa_secret a = env)
    by (unfold a; now destruct (findTwoFactorAuth userId TOTP w)).
  rewrite <- Hsecret in Hcodec.
  split.
  - destruct (verifyTOTPSetup_confirms draw salt userId token w1 a _ Hfind Hcodec Hvalid)
      as (w2 & Hrun & Hclock & Hfind2).
    exists w2. split; [exact Hrun |]. split; [unfold generateRecoveryCodes;
                                              now rewrite length_map, length_seq |].
    split.
    + intros t. exact (verifyTOTP_enabled cfg userId t w2 _ _ Hfind2 eq_refl Hcodec).
    + intros i c Hnth Hhash. unfold verifyRecoveryCode. rewrite Hfind2.
      cbn [tfa_enabled recoveryCodes with_enabled_codes negb].
      destruct (find_some_exists (fun hashedCode => argon2_verify hashedCode c)
                  (map (fun ic => argon2_hash (snd ic) (salt (fst ic)))
                     (combine (seq 0 (length (generateRecoveryCodes draw 10)))
                        (generateRecoveryCodes draw 10)))
                  (argon2_hash c (salt i))) as [h ->]; [| exact Hhash | reflexivity].
      apply in_map_iff. exists (i, c). split; [reflexivity |].
      now apply (nth_error_combine_seq _ i 0).
  - intros bad Hbad. unfold verifyTOTPSetup. now rewrite Hfind, Hcodec, Hbad.
Qed.

(** X15: [verifyTOTPSetup] does not ask whether the factor is already
    enabled: with a valid token it replaces the stored recovery codes by
    the hashes of the ten new ones, so that a code none of the new
    hashes answers to is refused from then on, whatever was stored
    before. *)
Theorem verifyTOTPSetup_replaces_codes draw salt (userId token secret : string)
    (w : World) (a : TwoFactorAuth) :
  findTwoFactorAuth userId TOTP w = Some a ->
  decrypt (tfa_secret a) (twoFactor_encryptionKey cfg) = Ok secret ->
  totp_verify secret token (clock w) = true ->
  exists w2,
    verifyTOTPSetup cfg draw salt userId token w = (w2, Ok (generateRecoveryCodes draw 10))
    /\ forall old,
         (forall i c, nth_error (generateRecoveryCodes draw 10) i = Some c ->
                      argon2_verify (argon2_hash c (salt i)) old = false) ->
         verifyRecoveryCode userId old w2 = (w2, false).
Proof.
  intros Hfind Hdec Hvalid.
  destruct (verifyTOTPSetup_confirms draw salt userId token w a _ Hfind Hdec Hvalid)
    as (w2 & Hrun & _ & Hfind2).
  exists w2. split; [exact Hrun |]. clear Hrun.
  remember (generateRecoveryCodes draw 10) as cs eqn:Hcs. clear Hcs.
  intros old Hold. apply (verifyRecoveryCode_none userId old w2 _ Hfind2).
  cbn [recoveryCodes with_enabled_codes]. intros codes h [= <-] Hin.
  apply in_map_iff in Hin as ([i c] & <- & Hin). cbn [fst snd].
  apply Hold. clear - Hin.
  assert (Hgen : forall (l : list string) s j,
             In (j, c) (combine (seq s (length l)) l) -> nth_error l (j - s) = Some c
                                                         /\ (s <= j)%nat).
  { induction l as [| x l IH]; intros s j H; [destruct H |].
    cbn [length seq combine] in H. destruct H as [[= <- <-] | H].
    - rewrite Nat.sub_diag. split; [reflexivity | lia].
    - apply IH in H as [H Hle]. replace (j - s)%nat with (S (j - S s)) by lia.
      split; [exact H | lia]. }
  apply Hgen in Hin as [Hin _]. now rewrite Nat.sub_0_r in Hin.
Qed.

(** X16: what [get2FAStatus] reports after the two switches.
    [disable2FA] turns the flag of the given kind off and
    [enableEmailOTP] turns the e-mail flag on, whether or not a row was
    there; each leaves the flag of the other kind and the flags of every
    other user as they were. *)
Theorem two_factor_switches (userId other : string) (w : World) :
  get2FAStatus userId (disable2FA userId TOTP w)
  = {| status_totp_enabled := false;
       status_email_enabled := status_email_enabled (get2FAStatus userId w) |}
  /\ get2FAStatus userId (disable2FA userId EMAIL w)
     = {| status_totp_enabled := status_totp_enabled (get2FAStatus userId w);
          status_email_enabled := false |}
  /\ get2FAStatus userId (enableEmailOTP userId w)
     = {| status_totp_enabled := status_totp_enabled (get2FAStatus userId w);
          status_email_enabled := true |}
  /\ (other <> userId ->
      forall ty, get2FAStatus other (disable2FA userId ty w) = get2FAStatus other w
                 /\ get2FAStatus other (enableEmailOTP userId w) = get2FAStatus other w).
Proof.
  assert (Hdis : forall uid' ty' ty,
             findTwoFactorAuth uid' ty' (disable2FA userId ty w)
             = option_map (fun a => if isFactor userId ty a then with_enabled false a else a)
                 (findTwoFactorAuth uid' ty' w)).
  { intros uid' ty' ty. unfold disable2FA. apply findTwoFactorAuth_map.
    intros a. now destruct (isFactor userId ty a). }
  assert (Hflag : forall uid' ty' ty,
             match findTwoFactorAuth uid' ty' (disable2FA userId ty w) with
             | Some a => tfa_enabled a
             | None => false
             end
             = if String.eqb uid' userId && TwoFactorType_eqb ty' ty then false
               else match findTwoFactorAuth uid' ty' w with
                    | Some a => tfa_enabled a
                    | None => false
                    end).
  { intros uid' ty' ty. rewrite Hdis.
    destruct (findTwoFactorAuth uid' ty' w) as [a |] eqn:Ha; cbn [option_map].
    - apply findTwoFactorAuth_Some in Ha as [_ Ha]. apply isFactor_eq in Ha as [Hu Ht].
      unfold isFactor. rewrite Hu, Ht.
      now destruct (String.eqb uid' userId && TwoFactorType_eqb ty' ty).
    - now destruct (String.eqb uid' userId && TwoFactorType_eqb ty' ty). }
  assert (Hen : forall a, tfa_userId (with_enabled true a) = tfa_userId a
                          /\ tfa_type (with_enabled true a) = tfa_type a)
    by (intros a; split; reflexivity).
  assert (Hcreate : isFactor userId EMAIL
                      {| tfa_userId := userId; tfa_type := EMAIL; tfa_secret := "email";
                         tfa_enabled := true; recoveryCodes := None |} = true)
    by (unfold isFactor; cbn; now rewrite String.eqb_refl).
  split; [| split; [| split]].
  - rewrite !get2FAStatus_find, !Hflag, String.eqb_refl. reflexivity.
  - rewrite !get2FAStatus_find, !Hflag, String.eqb_refl. reflexivity.
  - rewrite !get2FAStatus_find. unfold enableEmailOTP.
    rewrite upsertTwoFactorAuth_find by assumption.
    rewrite upsertTwoFactorAuth_other by (try assumption; right; discriminate).
    cbn [status_totp_enabled]. now destruct (findTwoFactorAuth userId EMAIL w).
  - intros Hne ty. rewrite !get2FAStatus_find, !Hflag.
    apply String.eqb_neq in Hne. rewrite Hne. cbn [andb]. split; [reflexivity |].
    apply String.eqb_neq in Hne. unfold enableEmailOTP.
    now rewrite !upsertTwoFactorAuth_other by (try assumption; left; exact Hne).
Qed.

End TwoFactorFacts.

Lemma generateTOTPSecret_switches_totp_off_witness :
  @verifyTOTP toy_ext toy_cfg "u1" "JBSWY3DP33" (toy_world [alice_totp []]) = Ok true
  /\ @verifyTOTP toy_ext toy_cfg "u1" "JBSWY3DP33"
       (fst (@generateTOTPSecret toy_ext toy_cfg toy_speakeasy toy_qrcode [] toy_iv
               "u1" "a@x.com" (toy_world [alice_totp []])))
     = Ok false.
Proof.
  split; [reflexivity |].
  refine (proj1 (@generateTOTPSecret_switches_totp_off toy_ext toy_cfg toy_speakeasy
                   toy_qrcode [] toy_iv "u1" "a@x.com" (toy_world [alice_totp []]) _
                   (match snd (@generateTOTPSecret toy_ext toy_cfg toy_speakeasy toy_qrcode
                                 [] toy_iv "u1" "a@x.com" (toy_world [alice_totp []])) with
                    | Ok setup => setup
                    | Throw _ => {| setup_secret := ""; setup_qrCode := "";
                                    setup_manualEntryKey := "" |}
                    end) _) _).
  vm_compute. reflexivity.
Defined.

Lemma totp_setup_round_trip_witness :
  exists w2,
    @verifyTOTPSetup toy_ext toy_cfg toy_draw toy_salt "u1" "JBSWY3DP33"
      (fst (@generateTOTPSecret toy_ext toy_cfg toy_speakeasy toy_qrcode [] toy_iv
              "u1" "a@x.com" (toy_world [])))
    = (w2, Ok (generateRecoveryCodes toy_draw 10)).
Proof.
  destruct (proj1 (@totp_setup_round_trip toy_ext toy_cfg toy_speakeasy toy_qrcode [] toy_iv
                     toy_draw toy_salt "u1" "a@x.com" "JBSWY3DP33" (toy_world [])
                     (fst (@generateTOTPSecret toy_ext toy_cfg toy_speakeasy toy_qrcode []
                             toy_iv "u1" "a@x.com" (toy_world [])))
                     {| setup_secret := "JBSWY3DP";
                        setup_qrCode :=
                          toy_qrcode (snd (toy_speakeasy "Portfolio (a@x.com)" []));
                        setup_manualEntryKey := "JBSWY3DP" |}
                     ltac:(vm_compute; reflexivity)
                     ltac:(intros env H; vm_compute in H; injection H as <-;
                           vm_compute; reflexivity)
                     ltac:(vm_compute; reflexivity))) as (w2 & H & _).
  exists w2. exact H.
Defined.

Lemma verifyTOTPSetup_replaces_codes_witness :
  exists w2,
    @verifyTOTPSetup toy_ext toy_cfg toy_draw toy_salt "u1" "JBSWY3DP33"
      (toy_world [alice_totp ["s1$AB12CD34"]])
    = (w2, Ok (generateRecoveryCodes toy_draw 10))
    /\ @verifyRecoveryCode toy_ext "u1" "AB12CD34" w2 = (w2, false).
Proof.
  destruct (@verifyTOTPSetup_replaces_codes toy_ext toy_cfg toy_draw toy_salt "u1"
              "JBSWY3DP33" "JBSWY3DP" (toy_world [alice_totp ["s1$AB12CD34"]])
              (alice_totp ["s1$AB12CD34"])
              ltac:(reflexivity) ltac:(vm_compute; reflexivity)
              ltac:(vm_compute; reflexivity)) as (w2 & H & Hold).
  exists w2. split; [exact H |]. apply Hold.
  intros i c Hnth.
  do 10 (destruct i as [| i]; [injection Hnth as <-; vm_compute; reflexivity |]).
  destruct i; discriminate Hnth.
Defined.

(** ** AuthService: registration and logout *)

Lemma NoDup_snoc {A : Type} (l : list A) (x : A) :
  List.NoDup l -> ~ In x l -> List.NoDup (l ++ [x]).
Proof.
  induction 1 as [| a l Ha Hl IH]; intros Hx; cbn [app].
  - constructor; [intros [] | constructor].
  - constructor.
    + rewrite in_app_iff. intros [Hin | [-> | []]]; [contradiction |].
      apply Hx. now left.
    + apply IH. intros Hin. apply Hx. now right.
Qed.

Section AuthFacts.
Context `{Ext : Externals}.
Variable cfg : Config.

Lemma register_Ok_inv rnd dto w w1 u t :
  register cfg rnd dto w = (w1, Ok (u, t)) ->
  (forall x, In x (users w) ->
             user_email x <> reg_email dto /\ user_username x <> reg_username dto)
  /\ u = {| user_id := rand_userId rnd; user_email := reg_email dto;
            user_username := reg_username dto; user_name := reg_name dto;
            user_role := USER |}
  /\ users w1 = users w ++ [u]
  /\ accounts w1
     = accounts w ++ [{| account_id := rand_accountId rnd; account_userId := rand_userId rnd;
                         passwordHash := argon2_hash (reg_password dto) (rand_salt rnd);
                         lastLoginAt := None |}]
  /\ twoFactorAuths w1 = twoFactorAuths w.
Proof.
  unfold register.
  destruct (List.find _ (users w)) as [existing |] eqn:Hfind.
  - destruct (String.eqb (user_email existing) (reg_email dto)); discriminate.
  - intros [= <- <- _]. split; [| repeat split].
    intros x Hx. apply find_none with (x := x) in Hfind; [| exact Hx].
    apply orb_false_iff in Hfind as [He Hn].
    now apply String.eqb_neq in He, Hn.
Qed.

(** X17: [register] keeps e-mail addresses and user names unique.  A
    refusal is one of the two conflicts, happens only when some user
    already holds the address or the name, and changes nothing; a
    success adds exactly one user, whose role is USER. *)
Theorem register_keeps_unique rnd (dto : RegisterDto) (w : World) :
  List.NoDup (map user_email (users w)) ->
  List.NoDup (map user_username (users w)) ->
  List.NoDup (map user_email (users (fst (register cfg rnd dto w))))
  /\ List.NoDup (map user_username (users (fst (register cfg rnd dto w))))
  /\ (forall e,
        snd (register cfg rnd dto w) = Throw e ->
        fst (register cfg rnd dto w) = w
        /\ (e = ConflictException "Email already exists"
            \/ e = ConflictException "Username already exists")
        /\ exists x, In x (users w)
                     /\ (user_email x = reg_email dto
                         \/ user_username x = reg_username dto))
  /\ (forall u t,
        snd (register cfg rnd dto w) = Ok (u, t) ->
        user_role u = USER /\ users (fst (register cfg rnd dto w)) = users w ++ [u]).
Proof.
  intros Hemails Hnames.
  destruct (register cfg rnd dto w) as [w1 [[u t] | e]] eqn:Hreg; cbn [fst snd].
  - destruct (register_Ok_inv _ _ _ _ _ _ Hreg) as (Hfree & Hu & Husers & _).
    rewrite Husers, !map_app. cbn [map].
    split; [| split; [| split]].
    + apply NoDup_snoc; [exact Hemails |]. intros Hin.
      apply in_map_iff in Hin as (x & Hx & Hin). apply (proj1 (Hfree x Hin)).
      now rewrite Hx, Hu.
    + apply NoDup_snoc; [exact Hnames |]. intros Hin.
      apply in_map_iff in Hin as (x & Hx & Hin). apply (proj2 (Hfree x Hin)).
      now rewrite Hx, Hu.
    + discriminate.
    + intros u' t' [= <- <-]. split; [now rewrite Hu | reflexivity].
  - unfold register in Hreg.
    destruct (List.find _ (users w)) as [existing |] eqn:Hfind; [| discriminate].
    apply find_some in Hfind as [Hin Hmatch].
    assert (Hsame : w1 = w
                    /\ (e = ConflictException "Email already exists"
                        \/ e = ConflictException "Username already exists")).
    { destruct (String.eqb (user_email existing) (reg_email dto));
        injection Hreg as <- <-; auto. }
    destruct Hsame as [-> He].
    split; [exact Hemails |]. split; [exact Hnames |]. split; [| discriminate].
    intros e' [= <-]. split; [reflexivity |]. split; [exact He |].
    exists existing. split; [exact Hin |].
    apply orb_true_iff in Hmatch as [H | H]; apply String.eqb_eq in H; auto.
Qed.

(** X18: a user who has just registered can log in with the address
    and password given: when the hashing library verifies the hash it
    made, the generated user id is not yet used by an account or a
    second factor, and no earlier user has the new address as user name,
    [login] with the address, at any later moment, returns that user
    with a token pair and asks for no second factor. *)
Theorem register_then_login rnd rnd' (dto : RegisterDto) (ip : option string)
    (w w1 : World) (u : User) (t : Tokens) (d : Z) :
  register cfg rnd dto w = (w1, Ok (u, t)) ->
  argon2_verify (argon2_hash (reg_password dto) (rand_salt rnd)) (reg_password dto) = true ->
  (forall x, In x (users w) -> user_username x <> reg_email dto) ->
  (forall a, In a (accounts w) -> account_userId a <> rand_userId rnd) ->
  (forall e, In e (twoFactorAuths w) -> tfa_userId e <> rand_userId rnd) ->
  exists w2 tokens,
    login cfg rnd'
      {| identifier := reg_email dto; password := reg_password dto; twoFactorToken := None |}
      ip (advance d w1)
    = (w2, Ok (LoggedIn u tokens)).
Proof.
  intros Hreg Hhash Hnames Hacc Hfactors.
  destruct (register_Ok_inv _ _ _ _ _ _ Hreg) as (Hfree & Hu & Husers & Haccounts & Htfa).
  set (account := {| account_id := rand_accountId rnd; account_userId := rand_userId rnd;
                     passwordHash := argon2_hash (reg_password dto) (rand_salt rnd);
                     lastLoginAt := None |}) in *.
  assert (Hfind : findUserByIdentifier (reg_email dto) (advance d w1) = Some u).
  { unfold findUserByIdentifier. world_simpl. rewrite Husers, find_app_split.
    rewrite find_all_false.
    - cbn [List.find]. rewrite Hu. cbn [user_email]. now rewrite String.eqb_refl.
    - intros x Hx. apply orb_false_iff. split; apply String.eqb_neq;
        [apply (Hfree x Hx) | apply (Hnames x Hx)]. }
  assert (Hacct : findAccount (user_id u) (advance d w1) = Some account).
  { unfold findAccount. world_simpl. rewrite Haccounts, find_app_split.
    rewrite Hu. cbn [user_id]. rewrite find_all_false.
    - cbn [List.find account account_userId]. now rewrite String.eqb_refl.
    - intros a Ha. apply String.eqb_neq. now apply Hacc. }
  rewrite (login_without_factors cfg rnd'
             {| identifier := reg_email dto; password := reg_password dto;
                twoFactorToken := None |}
             ip (advance d w1) u account Hfind Hacct Hhash).
  - unfold completeLogin. eexists. eexists. reflexivity.
  - intros e Hin He. world_simpl in Hin. rewrite Htfa in Hin.
    exfalso. apply (Hfactors e Hin). rewrite He, Hu. reflexivity.
Qed.

Lemma logout_sessions (userId : string) (token : option string) (w : World) (s : Session) :
  In s (sessions (logout userId token w))
  <-> In s (sessions w)
      /\ (session_userId s <> userId
          \/ (truthy token = true /\ session_token s <> default "" token)).
Proof.
  unfold logout. destruct (truthy token); world_simpl; rewrite filter_In;
    split; intros [Hin H]; (split; [exact Hin |]).
  - apply negb_true_iff, andb_false_iff in H as [H | H]; apply String.eqb_neq in H; auto.
  - apply negb_true_iff, andb_false_iff.
    destruct H as [H | [_ H]]; apply String.eqb_neq in H; auto.
  - apply negb_true_iff, String.eqb_neq in H. auto.
  - destruct H as [H | [H _]]; [| discriminate]. now apply negb_true_iff, String.eqb_neq.
Qed.

(** X19: [logout] removes sessions of the given user only.  With a
    non-empty token it removes exactly the rows of that user holding
    that token, so that the user's sessions with other tokens stay;
    with no token, or the empty one, it removes exactly the rows of the
    user.  A refresh token of the user
    that was logged out is refused by [refreshTokens] afterwards,
    whereas [validateToken] answers as before: access tokens stay valid
    after logout. *)
Theorem logout_effects (userId : string) (token : option string) (w : World) :
  logout userId (Some "") w = logout userId None w
  /\ (forall s, In s (sessions (logout userId token w)) -> In s (sessions w))
  /\ (forall s, In s (sessions w) -> session_userId s <> userId ->
                In s (sessions (logout userId token w)))
  /\ (forall s, In s (sessions (logout userId None w)) -> session_userId s <> userId)
  /\ (forall tok s,
        tok <> "" ->
        (In s (sessions (logout userId (Some tok) w))
         <-> In s (sessions w) /\ (session_userId s <> userId \/ session_token s <> tok)))
  /\ (forall s,
        In s (sessions (logout userId None w))
        <-> In s (sessions w) /\ session_userId s <> userId)
  /\ (forall tok payload,
        jwt_verify tok (jwt_refreshSecret cfg) (clock w) = Some payload ->
        sub payload = userId ->
        refreshTokens cfg tok (logout userId (Some tok) w)
        = (logout userId (Some tok) w,
           Throw (UnauthorizedException "Invalid refresh token"))
        /\ refreshTokens cfg tok (logout userId None w)
           = (logout userId None w, Throw (UnauthorizedException "Invalid refresh token")))
  /\ (forall t, validateToken cfg t (logout userId token w) = validateToken cfg t w).
Proof.
  split; [reflexivity |]. split; [| split; [| split; [| split; [| split; [| split]]]]].
  - intros s Hs. now apply logout_sessions in Hs.
  - intros s Hs Hne. apply logout_sessions. auto.
  - intros s Hs. apply logout_sessions in Hs as [_ [H | [H _]]]; [exact H | discriminate].
  - intros tok s Htok. rewrite logout_sessions.
    assert (Htruthy : truthy (Some tok) = true)
      by (cbn; now apply negb_true_iff, String.eqb_neq).
    rewrite Htruthy. change (default "" (Some tok)) with tok.
    split; intros [Hin H]; (split; [exact Hin |]); tauto.
  - intros s. rewrite logout_sessions. cbn [truthy].
    split; intros [Hin H]; (split; [exact Hin |]); [| tauto].
    destruct H as [H | [H _]]; [exact H | discriminate].
  - intros tok payload Hjwt Hsub.
    assert (Hgone : forall token',
               (truthy token' = true -> token' = Some tok) ->
               refreshTokens cfg tok (logout userId token' w)
               = (logout userId token' w,
                  Throw (UnauthorizedException "Invalid refresh token"))).
    { intros token' Htok. unfold refreshTokens, refreshTokens_try.
      replace (clock (logout userId token' w)) with (clock w)
        by (unfold logout; now destruct (truthy token')).
      rewrite Hjwt, find_all_false; [reflexivity |].
      intros s Hs. apply logout_sessions in Hs as [_ Hs].
      destruct (String.eqb_spec (session_userId s) (sub payload)) as [Hu | _];
        [| now rewrite andb_false_r].
      destruct (String.eqb_spec (session_token s) tok) as [Ht | _]; [| reflexivity].
      exfalso. destruct Hs as [Hs | [Htruthy Hs]]; [congruence |].
      rewrite (Htok Htruthy) in Hs. now apply Hs. }
    split; apply Hgone; [auto | discriminate].
  - intros t. unfold validateToken, logout. now destruct (truthy token).
Qed.

(** X20: the second-factor token of [AuthController.disable2FA] is
    optional: for a request without token, or with an empty one, the
    right password alone switches the factor of the given kind off, with
    no second-factor check; afterwards [get2FAStatus] reports it as off
    and, for TOTP, [verifyTOTP] answers false to every token. *)
Theorem controller_disable2FA_token_optional (userId : string) (dto : Disable2FADto)
    (ip : option string) (w : World) (a : Account) :
  findAccount userId w = Some a ->
  argon2_verify (passwordHash a) (disable_password dto) = true ->
  truthy (disable_token dto) = false ->
  exists w',
    controller_disable2FA cfg userId dto ip w
    = (w', Ok "Two-Factor Authentication has been disabled")
    /\ (disable_method dto = TOTP ->
        status_totp_enabled (get2FAStatus userId w') = false
        /\ forall token, verifyTOTP cfg userId token w' = Ok false)
    /\ (disable_method dto = EMAIL ->
        status_email_enabled (get2FAStatus userId w') = false).
Proof.
  intros Hacc Hpw Htok. unfold controller_disable2FA, verifyPassword.
  rewrite Hacc, Hpw, Htok. cbn [negb]. eexists. split; [reflexivity |].
  assert (Hfind : forall ty,
             findTwoFactorAuth userId ty
               (auditLog userId "2fa_disabled"
                  (Some (if TwoFactorType_eqb (disable_method dto) TOTP
                         then "google" else "email")) true ip
                  (disable2FA userId (disable_method dto) w))
             = option_map (fun x => if isFactor userId (disable_method dto) x
                                    then with_enabled false x else x)
                 (findTwoFactorAuth userId ty w)).
  { intros ty. unfold disable2FA.
    rewrite <- (findTwoFactorAuth_map userId ty
                  (fun x => if isFactor userId (disable_method dto) x
                            then with_enabled false x else x) w)
      by (intros x; now destruct (isFactor userId (disable_method dto) x)).
    reflexivity. }
  assert (Hoff : forall ty, disable_method dto = ty ->
             match findTwoFactorAuth userId ty
                     (auditLog userId "2fa_disabled"
                        (Some (if TwoFactorType_eqb (disable_method dto) TOTP
                               then "google" else "email")) true ip
                        (disable2FA userId (disable_method dto) w)) with
             | Some x => tfa_enabled x
             | None => false
             end = false).
  { intros ty Hty. rewrite Hfind, Hty.
    destruct (findTwoFactorAuth userId ty w) as [x |] eqn:Hx; [| reflexivity].
    cbn [option_map]. now rewrite (proj2 (findTwoFactorAuth_Some _ _ _ _ Hx)). }
  split.
  - intros Hty. split.
    + rewrite get2FAStatus_find. cbn [status_totp_enabled]. now apply Hoff.
    + intros token. unfold verifyTOTP. specialize (Hoff TOTP Hty).
      destruct (findTwoFactorAuth userId TOTP _) as [x |]; [| reflexivity].
      now rewrite Hoff.
  - intros Hty. rewrite get2FAStatus_find. cbn [status_email_enabled]. now apply Hoff.
Qed.

(** X21: [AuthController.resendOTP] answers an unknown identifier with
    "If the account exists, an OTP has been sent" and does nothing; for
    an identifier of a user it never gives that answer: it either
    reports that a new code was sent or throws the resend limit. *)
Theorem controller_resendOTP_answers rnd (ident : string) (ip : option string)
    (w : World) :
  (findUserByIdentifier ident w = None ->
   controller_resendOTP cfg rnd ident ip w
   = (w, Ok "If the account exists, an OTP has been sent"))
  /\ (forall u,
        findUserByIdentifier ident w = Some u ->
        snd (controller_resendOTP cfg rnd ident ip w)
        <> Ok "If the account exists, an OTP has been sent"
        /\ (snd (controller_resendOTP cfg rnd ident ip w)
            = Ok "A new verification code has been sent to your email"
            \/ snd (controller_resendOTP cfg rnd ident ip w)
               = Throw (BadRequestException
                          "Too many OTP requests. Please try again later."))).
Proof.
  unfold controller_resendOTP. split.
  - now intros ->.
  - intros u ->. unfold generateAndSendOTP.
    destruct (truthy _ && js_ge _ _); cbn [snd]; split; try discriminate; auto.
Qed.

End AuthFacts.

Lemma register_keeps_unique_witness :
  List.NoDup (map user_email (users (fst (@register toy_ext toy_cfg toy_rnd
           {| reg_name := "Bob"; reg_username := "bob"; reg_email := "b@x.com";
              reg_password := "hunter2!" |} (toy_world []))))).
Proof.
  apply (@register_keeps_unique toy_ext toy_cfg toy_rnd
           {| reg_name := "Bob"; reg_username := "bob"; reg_email := "b@x.com";
              reg_password := "hunter2!" |} (toy_world []));
    repeat constructor; intros [].
Defined.

Lemma register_then_login_witness :
  exists w2 tokens,
    @login toy_ext toy_cfg toy_rnd
      {| identifier := "b@x.com"; password := "hunter2!"; twoFactorToken := None |} None
      (advance 5000
         (fst (@register toy_ext toy_cfg toy_rnd
                 {| reg_name := "Bob"; reg_username := "bob"; reg_email := "b@x.com";
                    reg_password := "hunter2!" |} (toy_world []))))
    = (w2, Ok (LoggedIn
                 {| user_id := "u2"; user_email := "b@x.com"; user_username := "bob";
                    user_name := "Bob"; user_role := USER |} tokens)).
Proof.
  apply (@register_then_login toy_ext toy_cfg toy_rnd toy_rnd
           {| reg_name := "Bob"; reg_username := "bob"; reg_email := "b@x.com";
              reg_password := "hunter2!" |} None (toy_world []) _ _
           (@generateTokens toy_ext toy_cfg
              {| user_id := "u2"; user_email := "b@x.com"; user_username := "bob";
                 user_name := "Bob"; user_role := USER |} (toy_world [])) 5000).
  - reflexivity.
  - vm_compute. reflexivity.
  - intros x [<- | []]. discriminate.
  - intros a [<- | []]. discriminate.
  - intros e [].
Defined.

Lemma controller_disable2FA_token_optional_witness :
  exists w',
    @controller_disable2FA toy_ext toy_cfg "u1"
      {| disable_password := "Secr3t!23"; disable_method := TOTP; disable_token := None |}
      None (toy_world [alice_totp []])
    = (w', Ok "Two-Factor Authentication has been disabled")
    /\ @verifyTOTP toy_ext toy_cfg "u1" "JBSWY3DP33" w' = Ok false.
Proof.
  destruct (@controller_disable2FA_token_optional toy_ext toy_cfg "u1"
              {| disable_password := "Secr3t!23"; disable_method := TOTP;
                 disable_token := None |}
              None (toy_world [alice_totp []]) alice_account
              ltac:(reflexivity) ltac:(vm_compute; reflexivity) ltac:(reflexivity))
    as (w' & Hrun & Htotp & _).
  exists w'. split; [exact Hrun |]. apply (proj2 (Htotp eq_refl)).
Defined.

(** ** PasswordResetService *)

Section ResetFacts.
Context `{Ext : Externals}.
Variable expiryMinutes : Z.
Variable frontendUrl : string.

Lemma initiateReset_refused tokenBytes salt email st n :
  redis_get ("reset:rate:" +:+ email) (rs_world st) = Some (toString (Num n)) -> 3 <= n ->
  initiateReset expiryMinutes frontendUrl tokenBytes salt email st
  = (st, Throw (BadRequestException
                  "Too many password reset requests. Please try again later.")).
Proof.
  intros Hget Hn. unfold initiateReset.
  change ("reset:rate:" ++ email)%string with ("reset:rate:" +:+ email).
  rewrite Hget, toString_truthy. change (default "" (Some ?s)) with s.
  rewrite parseInt_toString. cbn [js_ge andb].
  now destruct (Z.leb_spec 3 n); [| lia].
Qed.

Lemma initiateReset_served tokenBytes salt email st n :
  (redis_get ("reset:rate:" +:+ email) (rs_world st) = None /\ n = 0)
  \/ (redis_get ("reset:rate:" +:+ email) (rs_world st) = Some (toString (Num n)) /\ n < 3) ->
  snd (initiateReset expiryMinutes frontendUrl tokenBytes salt email st) = Ok tt
  /\ redis (rs_world (fst (initiateReset expiryMinutes frontendUrl tokenBytes salt email st)))
       !! ("reset:rate:" +:+ email)
     = Some (toString (Num (n + 1)), clock (rs_world st) + 900 * 1000)
  /\ clock (rs_world (fst (initiateReset expiryMinutes frontendUrl tokenBytes salt email st)))
     = clock (rs_world st).
Proof.
  intros Hcached. unfold initiateReset, bumpResetRate.
  change ("reset:rate:" ++ email)%string with ("reset:rate:" +:+ email).
  assert (Hguard : truthy (redis_get ("reset:rate:" +:+ email) (rs_world st))
                   && js_ge (parseInt (default ""
                               (redis_get ("reset:rate:" +:+ email) (rs_world st)))) 3
                   = false
                   /\ (if truthy (redis_get ("reset:rate:" +:+ email) (rs_world st))
                       then parseInt (default ""
                              (redis_get ("reset:rate:" +:+ email) (rs_world st)))
                       else Num 0) = Num n).
  { destruct Hcached as [[-> ->] | [-> Hn]]; [now cbn |].
    rewrite toString_truthy. change (default "" (Some ?s)) with s.
    rewrite parseInt_toString. cbn [js_ge andb]. split; [apply Z.leb_gt; lia | reflexivity]. }
  destruct Hguard as [-> ->]. cbn [js_succ].
  destruct (List.find _ (users (rs_world st))) as [user |];
    [destruct (findAccount (user_id user) (rs_world st)) |];
    cbn [fst snd rs_world]; unfold redis_set; world_simpl; rewrite lookup_insert_eq; auto.
Qed.

(** X22: what [initiateReset] answers depends only on the cached request
    counter of the address, not on whether the address belongs to an
    account; for an address no user has, no mail is sent and no token is
    stored or removed. *)
Theorem initiateReset_hides_account tokenBytes salt tokenBytes' salt' (email : string)
    (st st' : ResetStore) :
  redis_get ("reset:rate:" +:+ email) (rs_world st)
  = redis_get ("reset:rate:" +:+ email) (rs_world st') ->
  snd (initiateReset expiryMinutes frontendUrl tokenBytes salt email st)
  = snd (initiateReset expiryMinutes frontendUrl tokenBytes' salt' email st')
  /\ ((forall x, In x (users (rs_world st)) -> user_email x <> email) ->
      outbox (rs_world (fst (initiateReset expiryMinutes frontendUrl tokenBytes salt email st)))
      = outbox (rs_world st)
      /\ resetTokens (fst (initiateReset expiryMinutes frontendUrl tokenBytes salt email st))
         = resetTokens st).
Proof.
  intros Hsame. split.
  - unfold initiateReset.
    change ("reset:rate:" ++ email)%string with ("reset:rate:" +:+ email).
    rewrite <- Hsame. destruct (truthy _ && js_ge _ 3); [reflexivity |].
    destruct (List.find _ (users (rs_world st))) as [user |];
      [destruct (findAccount (user_id user) (rs_world st)) |];
      (destruct (List.find _ (users (rs_world st'))) as [user' |];
       [destruct (findAccount (user_id user') (rs_world st')) |]); reflexivity.
  - intros Hunknown. unfold initiateReset.
    destruct (truthy _ && js_ge _ 3); [auto |].
    rewrite find_all_false; [auto |].
    intros x Hx. apply String.eqb_neq. now apply Hunknown.
Qed.

Lemma initiateReset_step tokenBytes salt (email : string) (n gap : Z) (st : ResetStore) :
  0 <= n < 3 -> 0 <= gap < 900 * 1000 ->
  resetsCounted email n (rs_world st) ->
  resetsCounted email (n + 1)
    (rs_world (fst (initiateReset expiryMinutes frontendUrl tokenBytes salt email
                      (advanceStore gap st)))).
Proof.
  intros Hn Hgap Hinv. unfold resetsCounted in *.
  change ("reset:rate:" ++ email)%string with ("reset:rate:" +:+ email) in *.
  destruct (Z.eqb_spec (n + 1) 0); [lia |].
  destruct (initiateReset_served tokenBytes salt email (advanceStore gap st) n)
    as (_ & Hentry & Hclock).
  - unfold advanceStore. cbn [rs_world]. destruct (Z.eqb_spec n 0) as [-> | Hpos].
    + left. split; [| reflexivity]. apply redis_get_advance_None; [lia | exact Hinv].
    + right. split; [| lia].
      apply (redis_get_live _ _ _ (advance gap (rs_world st)) Hinv). world_simpl. lia.
  - now rewrite Hentry, Hclock.
Qed.

Lemma resetRequestsAfter_counted (email : string) (reqs : list (Z * (Buffer * string))) :
  Forall (fun req => 0 <= fst req < 900 * 1000) reqs ->
  forall n st,
    0 <= n -> n + Z.of_nat (length reqs) <= 3 ->
    resetsCounted email n (rs_world st) ->
    resetsCounted email (n + Z.of_nat (length reqs))
      (rs_world (resetRequestsAfter expiryMinutes frontendUrl reqs email st)).
Proof.
  intros Hreqs. induction Hreqs as [| [gap [bytes salt]] reqs Hgap _ IH]; intros n st Hn Hmax Hinv.
  - cbn. now rewrite Z.add_0_r.
  - cbn [resetRequestsAfter length] in *.
    replace (n + Z.of_nat (S (length reqs))) with (n + 1 + Z.of_nat (length reqs)) by lia.
    apply IH; [lia | lia |]. apply initiateReset_step; [lia | exact Hgap | exact Hinv].
Qed.

(** X23: starting with no request counter cached for an address, three
    [initiateReset] requests, each made less than 900 seconds after the
    one before, are all served (each returns without exception, in the
    state the requests before it left), whether or not the address
    belongs to an account; a further request within 900 seconds is
    refused with "Too many password reset requests..." and changes
    nothing, and a request made after 900 quiet seconds is served
    again. *)
Theorem reset_rate_limit (email : string) (reqs : list (Z * (Buffer * string)))
    (st : ResetStore) :
  Forall (fun req => 0 <= fst req < 900 * 1000) reqs ->
  length reqs = 3%nat ->
  redis_get ("reset:rate:" +:+ email) (rs_world st) = None ->
  (forall before gap tokenBytes salt after,
     reqs = before ++ (gap, (tokenBytes, salt)) :: after ->
     snd (initiateReset expiryMinutes frontendUrl tokenBytes salt email
            (advanceStore gap
               (resetRequestsAfter expiryMinutes frontendUrl before email st)))
     = Ok tt)
  /\ forall tokenBytes salt gap,
       (0 <= gap < 900 * 1000 ->
        initiateReset expiryMinutes frontendUrl tokenBytes salt email
          (advanceStore gap (resetRequestsAfter expiryMinutes frontendUrl reqs email st))
        = (advanceStore gap (resetRequestsAfter expiryMinutes frontendUrl reqs email st),
           Throw (BadRequestException
                    "Too many password reset requests. Please try again later.")))
       /\ (900 * 1000 <= gap ->
           snd (initiateReset expiryMinutes frontendUrl tokenBytes salt email
                  (advanceStore gap
                     (resetRequestsAfter expiryMinutes frontendUrl reqs email st)))
           = Ok tt).
Proof.
  intros Hreqs Hlen Hnone. split.
  { intros before gap tokenBytes salt after Heq. subst reqs.
    apply Forall_app in Hreqs as [Hbefore Hrest].
    apply Forall_cons_iff in Hrest as [Hgap _]. cbn [fst] in Hgap.
    rewrite length_app in Hlen. cbn [length] in Hlen.
    pose proof (resetRequestsAfter_counted email before Hbefore 0 st
                  ltac:(lia) ltac:(lia) Hnone) as Hc.
    rewrite Z.add_0_l in Hc. unfold resetsCounted in Hc.
    change ("reset:rate:" ++ email)%string with ("reset:rate:" +:+ email) in Hc.
    apply (initiateReset_served tokenBytes salt email _ (Z.of_nat (length before))).
    unfold advanceStore. cbn [rs_world].
    destruct (Z.eqb_spec (Z.of_nat (length before)) 0) as [Hz | Hpos].
    - left. split; [| exact Hz]. apply redis_get_advance_None; [lia | exact Hc].
    - right. split; [| lia].
      apply (redis_get_live _ _ _ (advance gap _) Hc). world_simpl. lia. }
  intros tokenBytes salt gap.
  pose proof (resetRequestsAfter_counted email reqs Hreqs 0 st ltac:(lia) ltac:(lia) Hnone)
    as Hc.
  rewrite Hlen in Hc.
  assert (Hentry : redis (rs_world (resetRequestsAfter expiryMinutes frontendUrl reqs
                                      email st)) !! ("reset:rate:" +:+ email)
                   = Some (toString (Num 3),
                           clock (rs_world (resetRequestsAfter expiryMinutes frontendUrl reqs
                                              email st)) + 900 * 1000))
    by exact Hc.
  clear Hc. rename Hentry into Hc.
  split.
  - intros Hgap. apply initiateReset_refused with (n := 3); [| lia].
    unfold advanceStore. cbn [rs_world].
    apply (redis_get_live _ _ _ (advance gap _) Hc). world_simpl. lia.
  - intros Hgap.
    apply (initiateReset_served tokenBytes salt email _ 0).
    left. split; [| reflexivity]. unfold redis_get, advanceStore. cbn [rs_world]. world_simpl.
    rewrite Hc.
    now destruct (Z.ltb_spec
                    (clock (rs_world (resetRequestsAfter expiryMinutes frontendUrl reqs
                                        email st)) + gap)
                    (clock (rs_world (resetRequestsAfter expiryMinutes frontendUrl reqs
                                        email st)) + 900 * 1000)); [lia |].
Qed.

Lemma firstOwnedMatch_app (tokenString : string) (us : list User)
    (l l' : list PasswordResetToken) :
  (forall t, In t l -> argon2_verify (prt_token t) tokenString = false) ->
  firstOwnedMatch tokenString us (l ++ l') = firstOwnedMatch tokenString us l'.
Proof.
  induction l as [| x l IH]; intros H; [reflexivity |].
  cbn [app firstOwnedMatch]. rewrite (H x (or_introl eq_refl)).
  apply IH. intros t Ht. apply H. now right.
Qed.

(** X24: the password reset round trip.  For an address of a user with
    an account, when the hashing library verifies the hashes it made of
    the token and of the new password and no token stored for another
    user answers to the token, the token mailed by [initiateReset] is
    valid until its expiry: [resetPassword] with it succeeds, removes
    every session of the user and makes [verifyPassword] accept the new
    password; afterwards the token is spent: a second [resetPassword]
    with it is refused and [validateResetToken] reports it invalid.
    From the expiry on the token is refused. *)
Theorem reset_round_trip tokenBytes salt salt' (email newPassword : string)
    (st st1 : ResetStore) (u : User) (a : Account) (d : Z) :
  initiateReset expiryMinutes frontendUrl tokenBytes salt email st = (st1, Ok tt) ->
  List.find (fun x => String.eqb (user_email x) email) (users (rs_world st)) = Some u ->
  findAccount (user_id u) (rs_world st) = Some a ->
  argon2_verify (argon2_hash (to_hex tokenBytes) salt) (to_hex tokenBytes) = true ->
  (forall t, In t (resetTokens st) -> prt_userId t <> user_id u ->
             argon2_verify (prt_token t) (to_hex tokenBytes) = false) ->
  argon2_verify (argon2_hash newPassword salt') newPassword = true ->
  0 <= d ->
  (d < expiryMinutes * 60 * 1000 ->
   check_valid (validateResetToken (to_hex tokenBytes) (advanceStore d st1)) = true
   /\ exists st2,
        resetPassword salt' (to_hex tokenBytes) newPassword (advanceStore d st1) = (st2, Ok tt)
        /\ (forall s, In s (sessions (rs_world st2)) -> session_userId s <> user_id u)
        /\ verifyPassword (user_id u) newPassword (rs_world st2) = Ok tt
        /\ (forall salt'' pwd,
              resetPassword salt'' (to_hex tokenBytes) pwd st2
              = (st2, Throw (BadRequestException "Invalid or expired reset token")))
        /\ check_valid (validateResetToken (to_hex tokenBytes) st2) = false)
  /\ (expiryMinutes * 60 * 1000 <= d ->
      resetPassword salt' (to_hex tokenBytes) newPassword (advanceStore d st1)
      = (advanceStore d st1, Throw (BadRequestException "Invalid or expired reset token"))).
Proof.
  intros Hinit Hu Hacct Htoken Hother Hpwd Hd.
  set (w := rs_world st) in *.
  set (created := {| prt_id := nextId w; prt_userId := user_id u;
                     prt_token := argon2_hash (to_hex tokenBytes) salt; prt_used := false;
                     prt_expiresAt := clock w + expiryMinutes * 60 * 1000 |}).
  set (kept := List.filter (fun t => negb (String.eqb (prt_userId t) (user_id u)))
                 (resetTokens st)).
  assert (Hst1 : resetTokens st1 = kept ++ [created]
                 /\ users (rs_world st1) = users w /\ accounts (rs_world st1) = accounts w
                 /\ clock (rs_world st1) = clock w).
  { unfold initiateReset in Hinit. fold w in Hinit. rewrite Hu, Hacct in Hinit.
    destruct (truthy _ && js_ge _ 3); [discriminate |].
    injection Hinit as <-. repeat split. }
  destruct Hst1 as (Htokens & Husers & Haccounts & Hclock).
  assert (Hkept : forall t, In t kept -> argon2_verify (prt_token t) (to_hex tokenBytes) = false).
  { intros t Ht. apply filter_In in Ht as [Hin Hne].
    apply Hother; [exact Hin |]. now apply negb_true_iff, String.eqb_neq in Hne. }
  assert (Hfilter_kept : forall (p : PasswordResetToken -> bool) t,
             In t (List.filter p kept) ->
             argon2_verify (prt_token t) (to_hex tokenBytes) = false).
  { intros p t Ht. apply filter_In in Ht as [Ht _]. now apply Hkept. }
  assert (Hvalid : validResetTokens (advanceStore d st1)
                   = List.filter (fun t => negb (prt_used t)
                                           && (clock w + d <? prt_expiresAt t)) kept
                     ++ (if clock w + d <? clock w + expiryMinutes * 60 * 1000
                         then [created] else [])).
  { unfold validResetTokens, advanceStore. cbn [rs_world resetTokens]. world_simpl.
    rewrite Htokens, Hclock, List.filter_app. reflexivity. }
  assert (Hin_u : In u (users w)) by (now apply find_some in Hu).
  destruct (find_some_exists (fun x => String.eqb (user_id x) (user_id u)) (users w) u Hin_u
              (String.eqb_refl _)) as [owner Howner].
  split.
  - intros Hlive.
    assert (Hnow : (clock w + d <? clock w + expiryMinutes * 60 * 1000) = true)
      by (apply Z.ltb_lt; lia).
    rewrite Hnow in Hvalid.
    assert (Hmatch : List.find (fun t => argon2_verify (prt_token t) (to_hex tokenBytes))
                       (validResetTokens (advanceStore d st1)) = Some created).
    { rewrite Hvalid, find_app_split, find_all_false by apply Hfilter_kept.
      cbn [List.find created prt_token]. now rewrite Htoken. }
    split.
    + unfold validateResetToken. rewrite Hvalid, firstOwnedMatch_app by apply Hfilter_kept.
      cbn [firstOwnedMatch created prt_token prt_userId]. rewrite Htoken.
      unfold advanceStore. cbn [rs_world]. world_simpl. rewrite Husers, Howner. reflexivity.
    + unfold resetPassword at 1. rewrite Hmatch.
      assert (Hacct1 : findAccount (prt_userId created) (rs_world (advanceStore d st1))
                       = Some a).
      { unfold findAccount, advanceStore. cbn [rs_world created prt_userId]. world_simpl.
        rewrite Haccounts. exact Hacct. }
      rewrite Hacct1. eexists. split; [reflexivity |].
      cbn [rs_world resetTokens created prt_userId prt_id].
      assert (Hw2 : forall w2,
                 w2 = match List.find (fun x => String.eqb (user_id x) (user_id u))
                              (users (rs_world st1)) with
                      | Some user =>
                          set_outbox
                            (outbox (rs_world st1) ++
                             [{| mail_to := user_email user;
                                 mail_subject := "Your Password Has Been Changed";
                                 mail_template := "password-changed";
                                 mail_context :=
                                   [("name", user_name user);
                                    ("timestamp", toString (Num (clock w + d)));
                                    ("ipAddress", "Password reset flow")] |}])
                            (redis_del ("reset:rate:" ++ user_email user)
                               (set_sessions
                                  (List.filter
                                     (fun s => negb (String.eqb (session_userId s) (user_id u)))
                                     (sessions (rs_world st1)))
                                  (set_accounts
                                     (map (fun x => if String.eqb (account_userId x) (user_id u)
                                                    then with_passwordHash
                                                           (argon2_hash newPassword salt') x
                                                    else x) (accounts w))
                                     (advance d (rs_world st1)))))
                      | None =>
                          set_sessions
                            (List.filter
                               (fun s => negb (String.eqb (session_userId s) (user_id u)))
                               (sessions (rs_world st1)))
                            (set_accounts
                               (map (fun x => if String.eqb (account_userId x) (user_id u)
                                              then with_passwordHash
                                                     (argon2_hash newPassword salt') x
                                              else x) (accounts w))
                               (advance d (rs_world st1)))
                      end ->
                 sessions w2
                 = List.filter (fun s => negb (String.eqb (session_userId s) (user_id u)))
                     (sessions (rs_world st1))
                 /\ accounts w2
                    = map (fun x => if String.eqb (account_userId x) (user_id u)
                                    then with_passwordHash (argon2_hash newPassword salt') x
                                    else x) (accounts w)
                 /\ clock w2 = clock w + d /\ users w2 = users w).
      { intros w2 ->. rewrite Husers, Howner. unfold redis_del. world_simpl.
        rewrite Hclock, Husers. auto. }
      unfold advanceStore. cbn [rs_world resetTokens]. world_simpl.
      rewrite Haccounts, Hclock.
      match goal with
      | |- context [{| rs_world := ?w2; resetTokens := ?ts |}] =>
          destruct (Hw2 w2 eq_refl) as (Hs2 & Ha2 & Hc2 & Hu2);
          set (world2 := w2) in *; set (tokens2 := ts) in *
      end.
      assert (Hspent : forall x, In x (validResetTokens {| rs_world := world2;
                                                           resetTokens := tokens2 |}) ->
                                 argon2_verify (prt_token x) (to_hex tokenBytes) = false).
      { intros x Hx. unfold validResetTokens in Hx. cbn [rs_world resetTokens] in Hx.
        apply filter_In in Hx as [Hx Hok]. unfold tokens2 in Hx. rewrite Htokens in Hx.
        apply in_map_iff in Hx as (t & <- & Ht).
        apply in_app_iff in Ht as [Ht | [<- | []]].
        - destruct (Nat.eqb (prt_id t) (nextId w)); cbn [with_used prt_token];
            now apply Hkept.
        - cbn [created prt_id] in Hok. rewrite Nat.eqb_refl in Hok. discriminate. }
      split; [| split; [| split]].
      * intros s Hs. rewrite Hs2 in Hs. apply filter_In in Hs as [_ Hs].
        now apply negb_true_iff, String.eqb_neq in Hs.
      * unfold verifyPassword, findAccount. rewrite Ha2.
        rewrite find_map_same
          by (intros x; cbn beta;
              destruct (String.eqb (account_userId x) (user_id u)) eqn:E;
              cbn [with_passwordHash account_userId]; congruence).
        unfold findAccount in Hacct. rewrite Hacct. cbn [option_map].
        apply find_some in Hacct as [_ ->]. cbn [with_passwordHash passwordHash].
        now rewrite Hpwd.
      * intros salt'' pwd. unfold resetPassword. now rewrite find_all_false by exact Hspent.
      * unfold validateResetToken.
        rewrite <- (app_nil_r (validResetTokens _)), firstOwnedMatch_app by exact Hspent.
        reflexivity.
  - intros Hdead.
    assert (Hnow : (clock w + d <? clock w + expiryMinutes * 60 * 1000) = false)
      by (apply Z.ltb_ge; lia).
    rewrite Hnow, app_nil_r in Hvalid.
    unfold resetPassword. rewrite Hvalid, find_all_false by apply Hfilter_kept.
    reflexivity.
Qed.

End ResetFacts.

Lemma initiateReset_hides_account_witness :
  snd (@initiateReset toy_ext 30 "https://app" toy_token_bytes "salt" "a@x.com" toy_store)
  = snd (@initiateReset toy_ext 30 "https://app" toy_token_bytes "salt" "a@x.com"
           {| rs_world := set_users [] (toy_world []); resetTokens := [] |}).
Proof.
  apply (@initiateReset_hides_account toy_ext 30 "https://app" toy_token_bytes "salt"
           toy_token_bytes "salt" "a@x.com" toy_store
           {| rs_world := set_users [] (toy_world []); resetTokens := [] |}).
  reflexivity.
Defined.

Lemma reset_rate_limit_witness :
  let st := @resetRequestsAfter toy_ext 30 "https://app"
              [(0, (toy_token_bytes, "s1")); (1000, (toy_token_bytes, "s2"));
               (1000, (toy_token_bytes, "s3"))] "a@x.com" toy_store in
  @initiateReset toy_ext 30 "https://app" toy_token_bytes "s4" "a@x.com" (advanceStore 1000 st)
  = (advanceStore 1000 st,
     Throw (BadRequestException "Too many password reset requests. Please try again later.")).
Proof.
  apply (proj1 (proj2 (@reset_rate_limit toy_ext 30 "https://app" "a@x.com"
                         [(0, (toy_token_bytes, "s1")); (1000, (toy_token_bytes, "s2"));
                          (1000, (toy_token_bytes, "s3"))] toy_store
                         ltac:(repeat constructor; cbn; lia) ltac:(reflexivity)
                         ltac:(reflexivity))
                  toy_token_bytes "s4" 1000)).
  lia.
Defined.

Lemma reset_round_trip_witness :
  check_valid
    (@validateResetToken toy_ext (to_hex toy_token_bytes)
       (advanceStore 1000
          (fst (@initiateReset toy_ext 30 "https://app" toy_token_bytes "salt" "a@x.com"
                  toy_store))))
  = true.
Proof.
  apply (proj1 (@reset_round_trip toy_ext 30 "https://app" toy_token_bytes "salt" "pepper"
                  "a@x.com" "N3w-Secr3t" toy_store
                  (fst (@initiateReset toy_ext 30 "https://app" toy_token_bytes "salt"
                          "a@x.com" toy_store))
                  alice alice_account 1000
                  ltac:(reflexivity) ltac:(reflexivity) ltac:(reflexivity)
                  ltac:(vm_compute; reflexivity) ltac:(intros t [])
                  ltac:(vm_compute; reflexivity) ltac:(lia))).
  lia.
Defined.

(** X25: [maskEmail], the masking inside [validateResetToken], shows of
    an address [local@domain] the first UTF-16 code unit of the local
    part and the domain, whatever the rest of the local part is: for a
    local part that starts with an ASCII character that character, for
    one that starts with a character of two octets those two octets.
    An address without "@" is printed with the domain "undefined", and
    one that starts with "@" with "undefined" in place of the first
    character. *)
Theorem maskEmail_shows_first_char (local domain : string) :
  contains "@" local = false ->
  contains "@" domain = false ->
  maskEmail (local +:+ String "@" domain)
  = default "undefined" (js_first_unit local) +:+ "***@" +:+ domain
  /\ maskEmail local = default "undefined" (js_first_unit local) +:+ "***@undefined"
  /\ (forall c rest, local = String c rest -> (N_of_ascii c < 128)%N ->
                     maskEmail (local +:+ String "@" domain) = String c ("***@" +:+ domain))
  /\ (forall c1 c2 rest, local = String c1 (String c2 rest) ->
                         (192 <= N_of_ascii c1 < 224)%N ->
                         maskEmail (local +:+ String "@" domain)
                         = String c1 (String c2 ("***@" +:+ domain)))
  /\ (local = "" -> maskEmail (local +:+ String "@" domain) = "undefined***@" +:+ domain).
Proof.
  intros Hlocal Hdomain.
  assert (Hfull : maskEmail (local +:+ String "@" domain)
                  = default "undefined" (js_first_unit local) +:+ "***@" +:+ domain).
  { unfold maskEmail.
    rewrite (split_app "@" local domain Hlocal), (split_no_sep "@" domain Hdomain).
    cbn [nth_error]. change (default ?d (Some ?s)) with s. reflexivity. }
  split; [exact Hfull |]. split; [| split; [| split]].
  - unfold maskEmail. rewrite (split_no_sep "@" local Hlocal).
    cbn [nth_error]. change (default "" (Some local)) with local. reflexivity.
  - intros c rest -> Hc. rewrite Hfull. unfold js_first_unit.
    destruct (N.ltb_spec (N_of_ascii c) 192); [reflexivity | lia].
  - intros c1 c2 rest -> Hc. rewrite Hfull. unfold js_first_unit.
    destruct (N.ltb_spec (N_of_ascii c1) 192); [lia |].
    destruct (N.ltb_spec (N_of_ascii c1) 224); [| lia].
    cbn [String.substring]. change (default ?d (Some ?s)) with s.
    replace (String.substring 0 0 rest) with "" by (now destruct rest).
    now rewrite !append_cons, append_nil_l.
  - intros ->. rewrite Hfull. reflexivity.
Qed.

Lemma maskEmail_shows_first_char_witness :
  maskEmail "alice@example.com" = "a***@example.com".
Proof.
  apply (proj1 (proj2 (proj2 (maskEmail_shows_first_char "alice" "example.com"
                                eq_refl eq_refl))) "a"%char "lice" eq_refl).
  reflexivity.
Defined.
